(** * CineVerse: the local session store and the watchlist store

    A shallow embedding of the persisted-state logic of the CineVerse
    React Native application, and the properties its specification states
    about it.  The code that is modelled:

    - the session store, [AuthProvider] of [app/contexts/AuthContext.tsx]:
      the auth reducer, [initializeApp], [login], [register], [logout] and
      [updateUser];
    - the watchlist store, which the source spreads over its screens:
      [WatchlistScreen] ([app/(tabs)/watchlist.tsx]), [MovieDetailScreen]
      (the second unit of [app/(tabs)/watchlist.tsx]), [TVShowDetailScreen]
      (the second unit of [app/types/auth.ts]), [MovieCard]
      ([app/components/MovieCard.tsx]) and [ProfileScreen] (the second unit
      of [unnamed/part_002]);
    - the settings of [ProfileScreen] ([toggleNotifications],
      [clearAllData], [formatRuntime]), the theme store [ThemeProvider]
      ([unnamed/part_005]) and the login screen [LoginScreen]
      ([app/(auth)/login.tsx]: [validateForm], [handleLogin]).

    The code talks to collaborators that are not part of the repository:
    the JavaScript runtime ([JSON], strings, dynamic objects), [AsyncStorage]
    (a key/value store of texts), the clock and the UI toolkit ([Alert],
    [Toast]).  They are modelled first, with these conventions:

    - a text is a [string]; [toLowerCase], [trim] and [length] are
      those of the runtime, which are fixed on ASCII text only;
    - a JSON number is an integer;
    - a read of the storage always succeeds, a write may be rejected;
    - [console.log] and [console.error] are not observable and are left
      out, except where evaluating their argument can throw. *)

From Stdlib Require Import ZArith Ascii String List Bool Lia.
From Stdlib Require Import DecimalString DecimalZ.
From stdpp Require Import base option list gmap strings.

Open Scope string_scope.
Open Scope list_scope.
Open Scope Z_scope.
Open Scope nat_scope.

(** ** JavaScript values *)

(** The values that survive a trip through [JSON.stringify]: numbers are
    integers here (identifiers are, and no claim looks at another number),
    an object is the list of its own properties in insertion order (the
    runtime builds objects whose property names are distinct). *)
#[local] Unset Elimination Schemes.
Inductive json : Type :=
| JNull
| JBool (b : bool)
| JNum (n : Z)
| JStr (s : string)
| JArr (items : list json)
| JObj (props : list (string * json)).
#[local] Set Elimination Schemes.

(** Induction that reaches below arrays and objects. *)
Section json_nested_induction.
Variable P : json → Prop.
Hypothesis Hnull : P JNull.
Hypothesis Hbool : ∀ b, P (JBool b).
Hypothesis Hnum : ∀ n, P (JNum n).
Hypothesis Hstr : ∀ s, P (JStr s).
Hypothesis Harr : ∀ l, Forall P l → P (JArr l).
Hypothesis Hobj : ∀ fs, Forall (λ kv, P kv.2) fs → P (JObj fs).

Fixpoint json_nested_ind (j : json) : P j :=
    match j with
    | JNull => Hnull
    | JBool b => Hbool b
    | JNum n => Hnum n
    | JStr s => Hstr s
    | JArr l =>
        Harr l ((fix go (l : list json) : Forall P l :=
                   match l with
                   | [] => List.Forall_nil P
                   | x :: r => List.Forall_cons P x r (json_nested_ind x) (go r)
                   end) l)
    | JObj fs =>
        Hobj fs ((fix go (fs : list (string * json)) : Forall (λ kv, P kv.2) fs :=
                    match fs with
                    | [] => List.Forall_nil _
                    | kv :: r => List.Forall_cons (λ kv, P kv.2) kv r (json_nested_ind kv.2) (go r)
                    end) fs)
    end.
End json_nested_induction.

(** A value that may not be there: [None] is JavaScript's [undefined]. *)
Abbreviation jsval := (option json).

(** ** Exceptions and results *)

Inductive exn : Type :=
| Error (message : string)
| TypeError (message : string)
| SyntaxError (message : string)
| StorageError (message : string).

Definition message (e : exn) : string :=
  match e with
  | Error m | TypeError m | SyntaxError m | StorageError m => m
  end.

Inductive Result (A : Type) : Type :=
| Ok (a : A)
| Throw (e : exn).
Arguments Ok {A} a.
Arguments Throw {A} e.

(** ** Number and string primitives *)

(** [Number.prototype.toString] on an integer. *)
Definition Number_toString (z : Z) : string :=
  match Z.to_int z with
  | Decimal.Pos d => NilZero.string_of_uint d
  | Decimal.Neg d => String "-" (NilZero.string_of_uint d)
  end.

(** ** Text primitives of the runtime *)

(** The texts of the application are the emails, passwords and names that
    the user types.  What the runtime does with a text of ASCII characters
    is written out in [AsciiText].  What it does with another character
    depends on the Unicode properties of the character and on how the text
    is laid out in a [string]; that is left open: [toLowerCase], [trim]
    and [length] are the operations of the class [JSString], of which
    only their values on ASCII text are fixed, and the bound
    [String_length_le] (a text has no more UTF-16 code units than
    bytes). *)
Definition is_ascii (c : ascii) : bool := (nat_of_ascii c <? 128)%nat.

Fixpoint ascii_text (s : string) : bool :=
  match s with
  | EmptyString => true
  | String c r => is_ascii c && ascii_text r
  end.

Module AsciiText.

Definition is_capital (c : ascii) : bool :=
  let n := nat_of_ascii c in (65 <=? n)%nat && (n <=? 90)%nat.

Definition lower_char (c : ascii) : ascii :=
  if is_capital c then ascii_of_nat (nat_of_ascii c + 32) else c.

(** [String.prototype.toLowerCase] on ASCII text: the letters A-Z. *)
Fixpoint toLowerCase (s : string) : string :=
  match s with
  | EmptyString => EmptyString
  | String c r => String (lower_char c) (toLowerCase r)
  end.

(** The white space of ASCII: the tabulator, the line feed, the vertical
    tabulator, the form feed, the carriage return and the space. *)
Definition is_space (c : ascii) : bool :=
  let n := nat_of_ascii c in
  ((9 <=? n)%nat && (n <=? 13)%nat) || (n =? 32)%nat.

Fixpoint trimStart (s : string) : string :=
  match s with
  | EmptyString => EmptyString
  | String c r => if is_space c then trimStart r else s
  end.

Fixpoint trimEnd (s : string) : string :=
  match s with
  | EmptyString => EmptyString
  | String c r =>
      match trimEnd r with
      | EmptyString => if is_space c then EmptyString else String c EmptyString
      | r' => String c r'
      end
  end.

(** [String.prototype.trim] on ASCII text. *)
Definition trim (s : string) : string := trimEnd (trimStart s).

End AsciiText.

(** [s.toLowerCase()], [s.trim()] and [s.length]. *)
Class JSString : Type := {
  toLowerCase : string → string;
  trim : string → string;
  String_length : string → nat;
  toLowerCase_ascii :
    ∀ s, ascii_text s = true → toLowerCase s = AsciiText.toLowerCase s;
  trim_ascii : ∀ s, ascii_text s = true → trim s = AsciiText.trim s;
  String_length_ascii :
    ∀ s, ascii_text s = true → String_length s = String.length s;
  String_length_le : ∀ s, (String_length s ≤ String.length s)%nat
}.

(** The strings of a runtime that is given nothing but ASCII text. *)
Definition ascii_strings : JSString :=
  {| toLowerCase := AsciiText.toLowerCase;
     trim := AsciiText.trim;
     String_length := String.length;
     toLowerCase_ascii := λ _ _, eq_refl;
     trim_ascii := λ _ _, eq_refl;
     String_length_ascii := λ _ _, eq_refl;
     String_length_le := λ s, le_n (String.length s) |}.

(** ** The JSON codec of the runtime *)

(** The application only relies on two facts about [JSON]: what
    [JSON.stringify] writes, [JSON.parse] reads back, and [JSON.stringify]
    never writes the empty text (which the code treats as "no value").
    The development is stated against this interface. *)
Class JSONCodec : Type := {
  JSON_stringify : json → string;
  JSON_parse : string → option json;
  JSON_parse_stringify : ∀ j, JSON_parse (JSON_stringify j) = Some j;
  JSON_stringify_nonempty : ∀ j, JSON_stringify j ≠ EmptyString
}.

(** *** A codec for the compact form *)

(** An implementation of the interface: the printer emits JSON without
    white space, the parser reads that form back. *)
Module Compact.

Definition dquote : ascii := "034"%char.
Definition backslash : ascii := "\"%char.

Fixpoint escape (s : string) : string :=
  match s with
  | EmptyString => EmptyString
  | String c r =>
      if Ascii.eqb c dquote || Ascii.eqb c backslash
      then String backslash (String c (escape r))
      else String c (escape r)
  end.

Definition quote (s : string) : string :=
  String dquote (escape s +:+ String dquote EmptyString).

Fixpoint stringify (j : json) : string :=
  match j with
  | JNull => "null"
  | JBool true => "true"
  | JBool false => "false"
  | JNum n => Number_toString n
  | JStr s => quote s
  | JArr l =>
      String "[" ((fix elems (l : list json) : string :=
                     match l with
                     | [] => "]"
                     | x :: r =>
                         stringify x +:+
                         match r with [] => "]" | _ :: _ => String "," (elems r) end
                     end) l)
  | JObj fs =>
      String "{" ((fix members (fs : list (string * json)) : string :=
                     match fs with
                     | [] => "}"
                     | kv :: r =>
                         quote kv.1 +:+ String ":" (stringify kv.2 +:+
                         match r with [] => "}" | _ :: _ => String "," (members r) end)
                     end) fs)
  end.

Fixpoint stringify_elems (l : list json) : string :=
  match l with
  | [] => "]"
  | x :: r =>
      stringify x +:+ match r with [] => "]" | _ :: _ => String "," (stringify_elems r) end
  end.

Fixpoint stringify_members (fs : list (string * json)) : string :=
  match fs with
  | [] => "}"
  | kv :: r =>
      quote kv.1 +:+ String ":" (stringify kv.2 +:+
      match r with [] => "}" | _ :: _ => String "," (stringify_members r) end)
  end.

Definition is_digit (c : ascii) : bool :=
  let n := nat_of_ascii c in (48 <=? n)%nat && (n <=? 57)%nat.

Definition push_digit (c : ascii) (d : Decimal.uint) : Decimal.uint :=
  default d (uint_of_char c (Some d)).

(** The longest run of digits at the head of [s], and what follows it. *)
Fixpoint scan_uint (s : string) : Decimal.uint * string :=
  match s with
  | EmptyString => (Decimal.Nil, EmptyString)
  | String c r =>
      if is_digit c
      then let '(d, rest) := scan_uint r in (push_digit c d, rest)
      else (Decimal.Nil, s)
  end.

(** The characters of a string literal, after its opening quote. *)
Fixpoint parse_chars (s : string) : option (string * string) :=
  match s with
  | EmptyString => None
  | String c r =>
      if Ascii.eqb c dquote then Some (EmptyString, r)
      else if Ascii.eqb c backslash then
        match r with
        | EmptyString => None
        | String e r' =>
            if Ascii.eqb e dquote || Ascii.eqb e backslash
            then match parse_chars r' with
                 | Some (t, rest) => Some (String e t, rest)
                 | None => None
                 end
            else None
        end
      else match parse_chars r with
           | Some (t, rest) => Some (String c t, rest)
           | None => None
           end
  end.

Fixpoint expect (word s : string) : option string :=
  match word, s with
  | EmptyString, _ => Some s
  | String c w, String c' r => if Ascii.eqb c c' then expect w r else None
  | String _ _, EmptyString => None
  end.

Definition starts_with (c : ascii) (s : string) : bool :=
  match s with
  | String c' _ => Ascii.eqb c c'
  | EmptyString => false
  end.

Definition tail (s : string) : string :=
  match s with
  | String _ r => r
  | EmptyString => EmptyString
  end.

(** An optional minus sign and a run of digits. *)
Definition parse_number (s : string) : option (json * string) :=
  if starts_with "-" s then
    match scan_uint (tail s) with
    | (Decimal.Nil, _) => None
    | (d, r) => Some (JNum (Z.of_int (Decimal.Neg d)), r)
    end
  else
    match scan_uint s with
    | (Decimal.Nil, _) => None
    | (d, r) => Some (JNum (Z.of_int (Decimal.Pos d)), r)
    end.

Fixpoint parse_value (fuel : nat) (s : string) {struct fuel} : option (json * string) :=
  match fuel with
  | O => None
  | S fuel' =>
      match s with
      | EmptyString => None
      | String c r =>
          if Ascii.eqb c "n" then r' ← expect "ull" r; Some (JNull, r')
          else if Ascii.eqb c "t" then r' ← expect "rue" r; Some (JBool true, r')
          else if Ascii.eqb c "f" then r' ← expect "alse" r; Some (JBool false, r')
          else if Ascii.eqb c dquote then
            match parse_chars r with
            | Some (t, r') => Some (JStr t, r')
            | None => None
            end
          else if Ascii.eqb c "[" then
            if starts_with "]" r then Some (JArr [], tail r)
            else match parse_elems fuel' r with
                 | Some (l, r') => Some (JArr l, r')
                 | None => None
                 end
          else if Ascii.eqb c "{" then
            if starts_with "}" r then Some (JObj [], tail r)
            else match parse_members fuel' r with
                 | Some (fs, r') => Some (JObj fs, r')
                 | None => None
                 end
          else parse_number s
      end
  end
with parse_elems (fuel : nat) (s : string) {struct fuel} : option (list json * string) :=
  match fuel with
  | O => None
  | S fuel' =>
      match parse_value fuel' s with
      | Some (x, r) =>
          if starts_with "," r then
            match parse_elems fuel' (tail r) with
            | Some (l, r') => Some (x :: l, r')
            | None => None
            end
          else if starts_with "]" r then Some ([x], tail r)
          else None
      | None => None
      end
  end
with parse_members (fuel : nat) (s : string) {struct fuel} : option (list (string * json) * string) :=
  match fuel with
  | O => None
  | S fuel' =>
      if starts_with dquote s then
        match parse_chars (tail s) with
        | Some (k, r) =>
            if starts_with ":" r then
              match parse_value fuel' (tail r) with
              | Some (v, r') =>
                  if starts_with "," r' then
                    match parse_members fuel' (tail r') with
                    | Some (fs, r'') => Some ((k, v) :: fs, r'')
                    | None => None
                    end
                  else if starts_with "}" r' then Some ([(k, v)], tail r')
                  else None
              | None => None
              end
            else None
        | None => None
        end
      else None
  end.

Definition parse (s : string) : option json :=
  match parse_value (String.length s) s with
  | Some (j, EmptyString) => Some j
  | _ => None
  end.

Fixpoint weight (j : json) : nat :=
  match j with
  | JArr l => S ((fix go (l : list json) : nat :=
                    match l with [] => 0 | x :: r => S (weight x + go r) end) l)
  | JObj fs => S ((fix go (fs : list (string * json)) : nat :=
                     match fs with [] => 0 | kv :: r => S (weight kv.2 + go r) end) fs)
  | _ => 1
  end.

Fixpoint weight_elems (l : list json) : nat :=
  match l with [] => 0 | x :: r => S (weight x + weight_elems r) end.

Fixpoint weight_members (fs : list (string * json)) : nat :=
  match fs with [] => 0 | kv :: r => S (weight kv.2 + weight_members r) end.

End Compact.

(** ** Dynamic objects *)

(** The binding of [k] that a property read sees: the last one written. *)
Fixpoint lookup_last (k : string) (fs : list (string * json)) : jsval :=
  match fs with
  | [] => None
  | (k', v) :: r =>
      match lookup_last k r with
      | Some v' => Some v'
      | None => if String.eqb k k' then Some v else None
      end
  end.

(** [o.k] on a value that is neither [null] nor [undefined], for the
    property names the application reads ([id], [email], [title], [name],
    [media_type], [genre_ids], [genres]): only objects carry them. *)
Definition member (k : string) (o : json) : jsval :=
  match o with
  | JObj fs => lookup_last k fs
  | _ => None
  end.

(** The property read [o.k]; reading from [null] or [undefined] throws. *)
Definition prop (o : jsval) (k : string) : Result jsval :=
  match o with
  | None => Throw (TypeError "Cannot read property of undefined")
  | Some JNull => Throw (TypeError "Cannot read property of null")
  | Some j => Ok (member k j)
  end.

Definition has_key (k : string) (fs : list (string * json)) : bool :=
  existsb (λ kv, String.eqb k kv.1) fs.

(** The assignment [o[k] = v]: an existing property keeps its place. *)
Definition assign (k : string) (v : json) (fs : list (string * json))
  : list (string * json) :=
  if has_key k fs
  then map (λ kv, if String.eqb k kv.1 then (kv.1, v) else kv) fs
  else fs ++ [(k, v)].

Fixpoint chars (s : string) : list json :=
  match s with
  | EmptyString => []
  | String c r => JStr (String c EmptyString) :: chars r
  end.

Definition indexed (l : list json) : list (string * json) :=
  imap (λ i x, (Number_toString (Z.of_nat i), x)) l.

(** The own enumerable properties that a spread [...v] copies. *)
Definition own_props (v : json) : list (string * json) :=
  match v with
  | JObj fs => fs
  | JArr l => indexed l
  | JStr s => indexed (chars s)
  | JNull | JBool _ | JNum _ => []
  end.

(** The object literal [{...v1, ..., ...vn}]. *)
Definition spread (sources : list json) : list (string * json) :=
  foldl (λ acc kv, assign kv.1 kv.2 acc) [] (concat (map own_props sources)).

(** [a === b].  Arrays and objects compare by identity; every comparison
    in the application has a freshly parsed value on one side, so two of
    them are never the same object. *)
Definition strict_eq (a b : jsval) : bool :=
  match a, b with
  | None, None => true
  | Some JNull, Some JNull => true
  | Some (JBool x), Some (JBool y) => Bool.eqb x y
  | Some (JNum x), Some (JNum y) => Z.eqb x y
  | Some (JStr x), Some (JStr y) => String.eqb x y
  | _, _ => false
  end.

(** Truthiness, as [if (v)], [!v], [a || b] and [a && b] test it. *)
Definition truthy (v : jsval) : bool :=
  match v with
  | None | Some JNull => false
  | Some (JBool b) => b
  | Some (JNum n) => negb (Z.eqb n 0)
  | Some (JStr s) => negb (String.eqb s EmptyString)
  | Some (JArr _) | Some (JObj _) => true
  end.

(** [a || b] *)
Definition or_else (a b : jsval) : jsval := if truthy a then a else b.

(** The text a template literal [`${v}`] inserts for a value. *)
Fixpoint js_toString (j : json) : string :=
  match j with
  | JNull => "null"
  | JBool true => "true"
  | JBool false => "false"
  | JNum n => Number_toString n
  | JStr s => s
  | JArr l =>
      (fix join (l : list json) : string :=
         match l with
         | [] => EmptyString
         | x :: r =>
             match x with JNull => EmptyString | _ => js_toString x end +:+
             match r with [] => EmptyString | _ :: _ => String "," (join r) end
         end) l
  | JObj _ => "[object Object]"
  end.

Definition template (v : jsval) : string :=
  match v with
  | None => "undefined"
  | Some j => js_toString j
  end.

(** A text is falsy exactly when it is empty. *)
Definition nonempty (s : string) : bool := negb (String.eqb s EmptyString).

(** [if (data)] on what [getItem] returned: a text or [null]. *)
Definition present (data : option string) : bool :=
  match data with
  | Some text => nonempty text
  | None => false
  end.

Section JSON.
Context `{JSONCodec}.

(** [JSON.parse(text)], which throws on a text that is not JSON. *)
Definition JSON_parse_or_throw (text : string) : Result json :=
  match JSON_parse text with
  | Some j => Ok j
  | None => Throw (SyntaxError "JSON Parse error")
  end.

(** The idiom [data ? JSON.parse(data) : []] on what [getItem] returned. *)
Definition parse_or_empty (data : option string) : Result json :=
  match data with
  | Some text => if nonempty text then JSON_parse_or_throw text else Ok (JArr [])
  | None => Ok (JArr [])
  end.

End JSON.

(** ** Array methods on a dynamic value *)

Definition not_a_function (name : string) : exn :=
  TypeError (name +:+ " is not a function").

Definition as_array (name : string) (v : json) : Result (list json) :=
  match v with
  | JArr l => Ok l
  | JNull => Throw (TypeError "Cannot read property of null")
  | _ => Throw (not_a_function name)
  end.

(** [l.find(p)] where the callback may throw. *)
Fixpoint find_first (p : json → Result bool) (l : list json) : Result jsval :=
  match l with
  | [] => Ok None
  | x :: r =>
      match p x with
      | Throw e => Throw e
      | Ok true => Ok (Some x)
      | Ok false => find_first p r
      end
  end.

(** [l.findIndex(p)]; [None] stands for the result [-1]. *)
Fixpoint find_index (p : json → Result bool) (l : list json) : Result (option nat) :=
  match l with
  | [] => Ok None
  | x :: r =>
      match p x with
      | Throw e => Throw e
      | Ok true => Ok (Some O)
      | Ok false =>
          match find_index p r with
          | Ok (Some i) => Ok (Some (S i))
          | other => other
          end
      end
  end.

(** [l.filter(p)] *)
Fixpoint filter_js (p : json → Result bool) (l : list json) : Result (list json) :=
  match l with
  | [] => Ok []
  | x :: r =>
      match p x with
      | Throw e => Throw e
      | Ok keep =>
          match filter_js p r with
          | Throw e => Throw e
          | Ok r' => Ok (if keep then x :: r' else r')
          end
      end
  end.

(** [l.some(p)] *)
Fixpoint some_js (p : json → Result bool) (l : list json) : Result bool :=
  match l with
  | [] => Ok false
  | x :: r =>
      match p x with
      | Throw e => Throw e
      | Ok true => Ok true
      | Ok false => some_js p r
      end
  end.

Definition Array_find (p : json → Result bool) (v : json) : Result jsval :=
  match as_array "find" v with
  | Ok l => find_first p l
  | Throw e => Throw e
  end.

Definition Array_findIndex (p : json → Result bool) (v : json) : Result (option nat) :=
  match as_array "findIndex" v with
  | Ok l => find_index p l
  | Throw e => Throw e
  end.

Definition Array_filter (p : json → Result bool) (v : json) : Result json :=
  match as_array "filter" v with
  | Ok l => match filter_js p l with Ok l' => Ok (JArr l') | Throw e => Throw e end
  | Throw e => Throw e
  end.

Definition Array_some (p : json → Result bool) (v : json) : Result bool :=
  match as_array "some" v with
  | Ok l => some_js p l
  | Throw e => Throw e
  end.

Definition Array_map (f : json → json) (v : json) : Result (list json) :=
  match as_array "map" v with
  | Ok l => Ok (map f l)
  | Throw e => Throw e
  end.

Definition Array_push (v : json) (x : json) : Result json :=
  match as_array "push" v with
  | Ok l => Ok (JArr (l ++ [x]))
  | Throw e => Throw e
  end.

(** ** The device: storage, display and clock *)

Inductive notice : Type :=
| Alert (title body : string)
| Toast (type text1 text2 : string).

(** [storage] is what AsyncStorage holds; [display] the alerts and toasts
    shown so far, latest first; [faults] tells which write will be
    rejected ([Some n]: the next [n] writes succeed, the one after them
    fails and the later ones succeed again; [None]: every write succeeds);
    [clock] is what [Date.now()] returns and [clock_iso] what
    [new Date().toISOString()] returns. *)
Record Device : Type := {
  storage : gmap string string;
  display : list notice;
  faults : option nat;
  clock : Z;
  clock_iso : string
}.

Definition with_storage (d : Device) (s : gmap string string) (f : option nat) : Device :=
  {| storage := s; display := display d; faults := f;
     clock := clock d; clock_iso := clock_iso d |}.

Definition with_notice (d : Device) (n : notice) : Device :=
  {| storage := storage d; display := n :: display d; faults := faults d;
     clock := clock d; clock_iso := clock_iso d |}.

(** ** Asynchronous component code *)

(** A run of component code starts from the component's state [L] and the
    device, and ends with a result or an exception, the component's new
    state and the device.  Every [await] is a sequence point; there is one
    logical thread. *)
Record Run (L A : Type) : Type := {
  result : Result A;
  local : L;
  device : Device
}.
Arguments result {L A} _.
Arguments local {L A} _.
Arguments device {L A} _.

Definition M (L A : Type) : Type := L → Device → Run L A.

Definition ret {L A} (a : A) : M L A :=
  λ l d, {| result := Ok a; local := l; device := d |}.

Definition bind {L A B} (m : M L A) (k : A → M L B) : M L B :=
  λ l d,
    match m l d with
    | {| result := Ok a; local := l'; device := d' |} => k a l' d'
    | {| result := Throw e; local := l'; device := d' |} =>
        {| result := Throw e; local := l'; device := d' |}
    end.

Definition throw {L A} (e : exn) : M L A :=
  λ l d, {| result := Throw e; local := l; device := d |}.

(** [try { body } catch (error) { handler }] *)
Definition try_catch {L A} (body : M L A) (handler : exn → M L A) : M L A :=
  λ l d,
    match body l d with
    | {| result := Ok a; local := l'; device := d' |} =>
        {| result := Ok a; local := l'; device := d' |}
    | {| result := Throw e; local := l'; device := d' |} => handler e l' d'
    end.

(** [try { body } finally { cleanup }] *)
Definition finally {L A} (body : M L A) (cleanup : M L unit) : M L A :=
  λ l d,
    match body l d with
    | {| result := r; local := l'; device := d' |} =>
        match cleanup l' d' with
        | {| result := Ok _; local := l''; device := d'' |} =>
            {| result := r; local := l''; device := d'' |}
        | {| result := Throw e; local := l''; device := d'' |} =>
            {| result := Throw e; local := l''; device := d'' |}
        end
    end.

Definition lift {L A} (r : Result A) : M L A :=
  match r with
  | Ok a => ret a
  | Throw e => throw e
  end.

Definition get_state {L} : M L L :=
  λ l d, {| result := Ok l; local := l; device := d |}.

Definition update_state {L} (f : L → L) : M L unit :=
  λ l d, {| result := Ok tt; local := f l; device := d |}.

#[global] Instance M_ret {L} : MRet (M L) := λ A, ret.
#[global] Instance M_bind {L} : MBind (M L) := λ A B k m, bind m k.

Module AsyncStorage.

Definition rejected : exn := StorageError "AsyncStorage: the write failed".

Definition write {L} (f : gmap string string → gmap string string) : M L unit :=
  λ l d,
    match faults d with
    | Some O =>
        {| result := Throw rejected; local := l;
           device := with_storage d (storage d) None |}
    | Some (S n) =>
        {| result := Ok tt; local := l;
           device := with_storage d (f (storage d)) (Some n) |}
    | None =>
        {| result := Ok tt; local := l;
           device := with_storage d (f (storage d)) None |}
    end.

Definition getItem {L} (key : string) : M L (option string) :=
  λ l d, {| result := Ok (storage d !! key); local := l; device := d |}.

Definition setItem {L} (key value : string) : M L unit :=
  write (<[key := value]>).

Definition removeItem {L} (key : string) : M L unit :=
  write (delete key).

End AsyncStorage.

Definition Alert_alert {L} (title body : string) : M L unit :=
  λ l d, {| result := Ok tt; local := l; device := with_notice d (Alert title body) |}.

Definition Toast_show {L} (type text1 text2 : string) : M L unit :=
  λ l d, {| result := Ok tt; local := l; device := with_notice d (Toast type text1 text2) |}.

Definition Date_now {L} : M L Z :=
  λ l d, {| result := Ok (clock d); local := l; device := d |}.

Definition Date_toISOString {L} : M L string :=
  λ l d, {| result := Ok (clock_iso d); local := l; device := d |}.

#[global] Instance Result_ret : MRet Result := λ A, Ok.
#[global] Instance Result_bind : MBind Result :=
  λ A B k r, match r with Ok a => k a | Throw e => Throw e end.

(** * The application *)

(** ** Session store: app/types/auth.ts and app/contexts/AuthContext.tsx *)

Module LoginCredentials.
Record t : Type := { email : string; password : string }.
End LoginCredentials.

Module RegisterCredentials.
Record t : Type := {
  name : string;
  email : string;
  password : string;
  confirmPassword : string
}.
End RegisterCredentials.

(** [user] is a [User] object or [null] ([JNull]). *)
Record AuthState : Type := {
  isAuthenticated : bool;
  user : json;
  isLoading : bool
}.

Module AuthContext.

Definition AUTH_STORAGE_KEY : string := "auth_user".
Definition USERS_STORAGE_KEY : string := "registered_users".

Inductive AuthAction : Type :=
| SET_LOADING (payload : bool)
| LOGIN_SUCCESS (payload : json)
| LOGOUT
| UPDATE_USER (payload : json).

Definition authReducer (state : AuthState) (action : AuthAction) : AuthState :=
  match action with
  | SET_LOADING payload =>
      {| isAuthenticated := isAuthenticated state;
         user := user state;
         isLoading := payload |}
  | LOGIN_SUCCESS payload =>
      {| isAuthenticated := true; user := payload; isLoading := false |}
  | LOGOUT =>
      {| isAuthenticated := false; user := JNull; isLoading := false |}
  | UPDATE_USER payload =>
      {| isAuthenticated := isAuthenticated state;
         user := if truthy (Some (user state))
                 then JObj (spread [user state; payload])
                 else JNull;
         isLoading := isLoading state |}
  end.

Definition initialState : AuthState :=
  {| isAuthenticated := false; user := JNull; isLoading := true |}.

Definition dispatch (action : AuthAction) : M AuthState unit :=
  update_state (λ state, authReducer state action).

(** The callback [u => u.email.toLowerCase() === email.toLowerCase()]. *)
Definition same_email `{JSString} (email : string) (u : json) : Result bool :=
  address ← prop (Some u) "email";
  match address with
  | Some (JStr s) => Ok (String.eqb (toLowerCase s) (toLowerCase email))
  | _ => Throw (not_a_function "u.email.toLowerCase")
  end.

(** The callback [u => u.email === 'demo@movieflix.com']. *)
Definition is_demo_user (u : json) : Result bool :=
  address ← prop (Some u) "email";
  Ok (strict_eq address (Some (JStr "demo@movieflix.com"))).

(** The callback [u => u.id === authState.user.id]. *)
Definition same_id (current : json) (u : json) : Result bool :=
  a ← prop (Some u) "id";
  b ← prop (Some current) "id";
  Ok (strict_eq a b).

(** [storedPassword !== credentials.password] *)
Definition password_differs (storedPassword : option string) (password : string) : bool :=
  match storedPassword with
  | Some s => negb (String.eqb s password)
  | None => true
  end.

Definition password_key (id : jsval) : string := "password_" +:+ template id.

Definition default_preferences : json :=
  JObj [("notifications", JBool true); ("darkMode", JBool true);
        ("language", JStr "en")].

Section operations.
Context `{JSONCodec} `{JSString}.

Definition createDemoUserIfNeeded : M AuthState unit :=
  try_catch
    (usersData ← AsyncStorage.getItem USERS_STORAGE_KEY;
     users ← lift (parse_or_empty usersData);
     demoUser ← lift (Array_find is_demo_user users);
     if negb (truthy demoUser) then
       now ← Date_now;
       createdAt ← Date_toISOString;
       let newDemoUser :=
         JObj [("id", JStr ("demo-user-" +:+ Number_toString now));
               ("email", JStr "demo@movieflix.com");
               ("name", JStr "Demo User");
               ("createdAt", JStr createdAt);
               ("preferences", default_preferences)] in
       users ← lift (Array_push users newDemoUser);
       AsyncStorage.setItem USERS_STORAGE_KEY (JSON_stringify users);;
       AsyncStorage.setItem (password_key (member "id" newDemoUser)) "demo123"
     else ret tt)
    (λ _, ret tt).

(** The session is restored from the session slot; the slot's [email] is
    read for the log before the state changes. *)
Definition checkAuthSession : M AuthState unit :=
  finally
    (try_catch
       (userData ← AsyncStorage.getItem AUTH_STORAGE_KEY;
        if present userData then
          user ← lift (JSON_parse_or_throw (default EmptyString userData));
          _ ← lift (prop (Some user) "email");
          dispatch (LOGIN_SUCCESS user)
        else ret tt)
       (λ _, ret tt))
    (dispatch (SET_LOADING false)).

Definition initializeApp : M AuthState unit :=
  try_catch
    (createDemoUserIfNeeded;;
     checkAuthSession)
    (λ _, dispatch (SET_LOADING false)).

Definition login (credentials : LoginCredentials.t) : M AuthState unit :=
  try_catch
    (dispatch (SET_LOADING true);;
     usersData ← AsyncStorage.getItem USERS_STORAGE_KEY;
     users ← lift (parse_or_empty usersData);
     user ← lift (Array_find (same_email (LoginCredentials.email credentials)) users);
     if negb (truthy user) then
       throw (Error "User not found. Please register first.")
     else
       id ← lift (prop user "id");
       storedPassword ← AsyncStorage.getItem (password_key id);
       if password_differs storedPassword (LoginCredentials.password credentials) then
         throw (Error "Invalid password")
       else
         let user := default JNull user in
         AsyncStorage.setItem AUTH_STORAGE_KEY (JSON_stringify user);;
         dispatch (LOGIN_SUCCESS user))
    (λ error,
       dispatch (SET_LOADING false);;
       Alert_alert "Login Failed" (message error);;
       throw error).

Definition register (credentials : RegisterCredentials.t) : M AuthState unit :=
  try_catch
    (dispatch (SET_LOADING true);;
     if negb (String.eqb (RegisterCredentials.password credentials)
                         (RegisterCredentials.confirmPassword credentials)) then
       throw (Error "Passwords do not match")
     else if (String_length (RegisterCredentials.password credentials) <? 6)%nat then
       throw (Error "Password must be at least 6 characters")
     else
       usersData ← AsyncStorage.getItem USERS_STORAGE_KEY;
       users ← lift (parse_or_empty usersData);
       existingUser ←
         lift (Array_find (same_email (RegisterCredentials.email credentials)) users);
       if truthy existingUser then
         throw (Error "Email already registered")
       else
         now ← Date_now;
         createdAt ← Date_toISOString;
         let newUser :=
           JObj [("id", JStr (Number_toString now));
                 ("email", JStr (toLowerCase (RegisterCredentials.email credentials)));
                 ("name", JStr (RegisterCredentials.name credentials));
                 ("createdAt", JStr createdAt);
                 ("preferences", default_preferences)] in
         users ← lift (Array_push users newUser);
         AsyncStorage.setItem USERS_STORAGE_KEY (JSON_stringify users);;
         AsyncStorage.setItem (password_key (member "id" newUser))
           (RegisterCredentials.password credentials);;
         AsyncStorage.setItem AUTH_STORAGE_KEY (JSON_stringify newUser);;
         dispatch (LOGIN_SUCCESS newUser))
    (λ error,
       dispatch (SET_LOADING false);;
       Alert_alert "Registration Failed" (message error);;
       throw error).

Definition logout : M AuthState unit :=
  try_catch
    (AsyncStorage.removeItem AUTH_STORAGE_KEY;;
     dispatch LOGOUT)
    (λ _, Alert_alert "Error" "Failed to logout").

Definition updateUser (userData : json) : M AuthState unit :=
  try_catch
    (authState ← get_state;
     if negb (truthy (Some (user authState))) then ret tt
     else
       let updatedUser := JObj (spread [user authState; userData]) in
       AsyncStorage.setItem AUTH_STORAGE_KEY (JSON_stringify updatedUser);;
       usersData ← AsyncStorage.getItem USERS_STORAGE_KEY;
       users ← lift (parse_or_empty usersData);
       userIndex ← lift (Array_findIndex (same_id (user authState)) users);
       match userIndex, users with
       | Some i, JArr l =>
           AsyncStorage.setItem USERS_STORAGE_KEY
             (JSON_stringify (JArr (<[i := updatedUser]> l)))
       | _, _ => ret tt
       end;;
       dispatch (UPDATE_USER userData))
    (λ _, Alert_alert "Error" "Failed to update profile").

End operations.
End AuthContext.

(** ** Watchlist store *)

(** The two collections live under these AsyncStorage keys. *)
Inductive MediaType : Type := movie_type | tv_type.

Definition media_tag (t : MediaType) : string :=
  match t with movie_type => "movie" | tv_type => "tv" end.

Definition watchlistKey (t : MediaType) : string :=
  match t with movie_type => "watchlist" | tv_type => "tvWatchlist" end.

(** The object literal [{ ...item, media_type: tag }]. *)
Definition with_media_type (tag : string) (item : json) : json :=
  JObj (assign "media_type" (JStr tag) (spread [item])).

(** The callback [item => item.id === id]. *)
Definition id_is (id : jsval) (item : json) : Result bool :=
  a ← prop (Some item) "id";
  Ok (strict_eq a id).

(** The callback [item => item.id !== content.id], where [content] is the
    component's movie or TV show. *)
Definition id_differs_from (content : json) (item : json) : Result bool :=
  a ← prop (Some item) "id";
  b ← prop (Some content) "id";
  Ok (negb (strict_eq a b)).

(** *** MovieDetailScreen (second unit of app/(tabs)/watchlist.tsx) *)

Module MovieDetailScreen.

(** [id] is [parseInt] of the route parameter, [movie] the loaded
    [MovieDetails] or [null]. *)
Record State : Type := {
  id : Z;
  movie : json;
  isInWatchlist : bool
}.

Definition setIsInWatchlist (b : bool) : M State unit :=
  update_state (λ s, {| id := id s; movie := movie s; isInWatchlist := b |}).

Section operations.
Context `{JSONCodec} `{JSString}.

Definition checkWatchlistStatus : M State unit :=
  try_catch
    (s ← get_state;
     watchlist ← AsyncStorage.getItem "watchlist";
     match watchlist with
     | Some text =>
         if nonempty text then
           watchlistArray ← lift (JSON_parse_or_throw text);
           found ← lift (Array_some (id_is (Some (JNum (id s)))) watchlistArray);
           setIsInWatchlist found
         else ret tt
     | None => ret tt
     end)
    (λ _, ret tt).

Definition toggleWatchlist : M State unit :=
  try_catch
    (s ← get_state;
     watchlist ← AsyncStorage.getItem "watchlist";
     watchlistArray ← lift (parse_or_empty watchlist);
     watchlistArray ←
       (if isInWatchlist s then
          watchlistArray ← lift (Array_filter (id_differs_from (movie s)) watchlistArray);
          title ← lift (prop (Some (movie s)) "title");
          Toast_show "success" "Removed from Watchlist"
            (template title +:+ " has been removed from your watchlist");;
          ret watchlistArray
        else
          watchlistArray ← lift (Array_push watchlistArray (movie s));
          title ← lift (prop (Some (movie s)) "title");
          Toast_show "success" "Added to Watchlist"
            (template title +:+ " has been added to your watchlist");;
          ret watchlistArray);
     AsyncStorage.setItem "watchlist" (JSON_stringify watchlistArray);;
     setIsInWatchlist (negb (isInWatchlist s)))
    (λ _, Toast_show "error" "Error" "Failed to update watchlist").

End operations.
End MovieDetailScreen.

(** *** TVShowDetailScreen (second unit of app/types/auth.ts) *)

Module TVShowDetailScreen.

Record State : Type := {
  id : Z;
  tvShow : json;
  isInWatchlist : bool
}.

Definition setIsInWatchlist (b : bool) : M State unit :=
  update_state (λ s, {| id := id s; tvShow := tvShow s; isInWatchlist := b |}).

Section operations.
Context `{JSONCodec} `{JSString}.

Definition checkWatchlistStatus : M State unit :=
  try_catch
    (s ← get_state;
     tvWatchlist ← AsyncStorage.getItem "tvWatchlist";
     match tvWatchlist with
     | Some text =>
         if nonempty text then
           watchlistArray ← lift (JSON_parse_or_throw text);
           found ← lift (Array_some (id_is (Some (JNum (id s)))) watchlistArray);
           setIsInWatchlist found
         else ret tt
     | None => ret tt
     end)
    (λ _, ret tt).

Definition toggleWatchlist : M State unit :=
  try_catch
    (s ← get_state;
     tvWatchlist ← AsyncStorage.getItem "tvWatchlist";
     watchlistArray ← lift (parse_or_empty tvWatchlist);
     watchlistArray ←
       (if isInWatchlist s then
          watchlistArray ← lift (Array_filter (id_differs_from (tvShow s)) watchlistArray);
          name ← lift (prop (Some (tvShow s)) "name");
          Toast_show "success" "Removed from Watchlist"
            (template name +:+ " has been removed from your watchlist");;
          ret watchlistArray
        else
          watchlistArray ← lift (Array_push watchlistArray (with_media_type "tv" (tvShow s)));
          name ← lift (prop (Some (tvShow s)) "name");
          Toast_show "success" "Added to Watchlist"
            (template name +:+ " has been added to your watchlist");;
          ret watchlistArray);
     AsyncStorage.setItem "tvWatchlist" (JSON_stringify watchlistArray);;
     setIsInWatchlist (negb (isInWatchlist s)))
    (λ _, Toast_show "error" "Error" "Failed to update watchlist").

End operations.
End TVShowDetailScreen.

(** *** MovieCard (app/components/MovieCard.tsx) *)

Module MovieCard.

(** [movie] is the component's property, an object. *)
Record State : Type := {
  movie : json;
  isLongPressed : bool;
  isInWatchlist : bool
}.

Definition setIsInWatchlist (b : bool) : M State unit :=
  update_state (λ s, {| movie := movie s; isLongPressed := isLongPressed s;
                        isInWatchlist := b |}).

Definition setIsLongPressed (b : bool) : M State unit :=
  update_state (λ s, {| movie := movie s; isLongPressed := b;
                        isInWatchlist := isInWatchlist s |}).

Definition isTV (s : State) : bool :=
  strict_eq (member "media_type" (movie s)) (Some (JStr "tv")).

Definition title (s : State) : jsval :=
  if isTV s
  then or_else (member "name" (movie s)) (member "title" (movie s))
  else member "title" (movie s).

Definition watchlistKey (s : State) : string :=
  if isTV s then "tvWatchlist" else "watchlist".

Section operations.
Context `{JSONCodec} `{JSString}.

Definition checkWatchlistStatus : M State unit :=
  try_catch
    (s ← get_state;
     watchlist ← AsyncStorage.getItem (watchlistKey s);
     match watchlist with
     | Some text =>
         if nonempty text then
           watchlistArray ← lift (JSON_parse_or_throw text);
           found ← lift (Array_some (id_is (member "id" (movie s))) watchlistArray);
           setIsInWatchlist found
         else ret tt
     | None => ret tt
     end)
    (λ _, ret tt).

Definition toggleWatchlist : M State unit :=
  try_catch
    (s ← get_state;
     watchlist ← AsyncStorage.getItem (watchlistKey s);
     watchlistArray ← lift (parse_or_empty watchlist);
     watchlistArray ←
       (if isInWatchlist s then
          watchlistArray ← lift (Array_filter (id_differs_from (movie s)) watchlistArray);
          Toast_show "success" "Removed from Watchlist"
            (template (title s) +:+ " has been removed from your watchlist");;
          ret watchlistArray
        else
          let itemToAdd :=
            if isTV s then with_media_type "tv" (movie s)
            else with_media_type "movie" (movie s) in
          watchlistArray ← lift (Array_push watchlistArray itemToAdd);
          Toast_show "success" "Added to Watchlist"
            (template (title s) +:+ " has been added to your watchlist");;
          ret watchlistArray);
     AsyncStorage.setItem (watchlistKey s) (JSON_stringify watchlistArray);;
     setIsInWatchlist (negb (isInWatchlist s));;
     setIsLongPressed false)
    (λ _, Toast_show "error" "Error" "Failed to update watchlist").

End operations.
End MovieCard.

(** *** WatchlistScreen (app/(tabs)/watchlist.tsx) *)

Module WatchlistScreen.

Inductive WatchlistType : Type := all | movies | tv.

Record State : Type := {
  watchlist : list json;
  loading : bool;
  refreshing : bool;
  activeWatchlistType : WatchlistType
}.

Definition setWatchlist (f : list json → list json) : M State unit :=
  update_state (λ s, {| watchlist := f (watchlist s); loading := loading s;
                        refreshing := refreshing s;
                        activeWatchlistType := activeWatchlistType s |}).

Definition setLoading (b : bool) : M State unit :=
  update_state (λ s, {| watchlist := watchlist s; loading := b;
                        refreshing := refreshing s;
                        activeWatchlistType := activeWatchlistType s |}).

Definition setRefreshing (b : bool) : M State unit :=
  update_state (λ s, {| watchlist := watchlist s; loading := loading s;
                        refreshing := b;
                        activeWatchlistType := activeWatchlistType s |}).

(** [item.media_type === tag] on an entry of the screen's list. *)
Definition has_media_type (tag : string) (item : json) : bool :=
  strict_eq (member "media_type" item) (Some (JStr tag)).

(** [item.id === id] on an entry of the screen's list. *)
Definition has_id (id : Z) (item : json) : bool :=
  strict_eq (member "id" item) (Some (JNum id)).

(** [watchlist.find(item => item.id === id)?.field] *)
Definition found_field (s : State) (id : Z) (field : string) : jsval :=
  match List.find (has_id id) (watchlist s) with
  | Some item => member field item
  | None => None
  end.

(** The entries the screen shows for the selected segment. *)
Definition filteredWatchlist (s : State) : list json :=
  List.filter
    (λ item,
       match activeWatchlistType s with
       | all => true
       | movies => has_media_type "movie" item
       | tv => has_media_type "tv" item
       end)
    (watchlist s).

Section operations.
Context `{JSONCodec} `{JSString}.

(** The items of one stored collection, each tagged with [tag]. *)
Definition tagged_items (tag : string) (data : option string) : M State (list json) :=
  match data with
  | Some text =>
      if nonempty text then
        parsed ← lift (JSON_parse_or_throw text);
        lift (Array_map (with_media_type tag) parsed)
      else ret []
  | None => ret []
  end.

Definition loadWatchlist : M State unit :=
  finally
    (try_catch
       (setLoading true;;
        movieWatchlistData ← AsyncStorage.getItem "watchlist";
        tvWatchlistData ← AsyncStorage.getItem "tvWatchlist";
        movieItems ← tagged_items "movie" movieWatchlistData;
        tvItems ← tagged_items "tv" tvWatchlistData;
        setWatchlist (λ _, movieItems ++ tvItems))
       (λ _, ret tt))
    (setLoading false).

Definition onRefresh : M State unit :=
  setRefreshing true;;
  loadWatchlist;;
  setRefreshing false.

(** [removeFromWatchlist(id, mediaType)] with the dialog answered
    "Remove"; "Cancel" runs nothing. *)
Definition removeFromWatchlist (id : Z) (mediaType : MediaType) : M State unit :=
  s ← get_state;
  let itemTitle :=
    match mediaType with
    | movie_type => found_field s id "title"
    | tv_type => or_else (found_field s id "name") (found_field s id "title")
    end in
  Alert_alert "Remove from Watchlist"
    ("Are you sure you want to remove " +:+
     String "034" (template itemTitle +:+ String "034" " from your watchlist?"));;
  try_catch
    (let watchlistKey := watchlistKey mediaType in
     currentWatchlistData ← AsyncStorage.getItem watchlistKey;
     currentWatchlist ← lift (parse_or_empty currentWatchlistData);
     updatedWatchlist ←
       lift (Array_filter (λ item, b ← id_is (Some (JNum id)) item; Ok (negb b))
               currentWatchlist);
     AsyncStorage.setItem watchlistKey (JSON_stringify updatedWatchlist);;
     setWatchlist
       (List.filter (λ item, negb (has_id id item &&
                                   has_media_type (media_tag mediaType) item))))
    (λ _, Alert_alert "Error" "Failed to remove item from watchlist").

(** [clearWatchlist()] with the dialog answered "Clear All". *)
Definition clearWatchlist : M State unit :=
  Alert_alert "Clear Watchlist"
    "Are you sure you want to remove all items from your watchlist?";;
  try_catch
    (s ← get_state;
     match activeWatchlistType s with
     | all | movies => AsyncStorage.removeItem "watchlist"
     | tv => ret tt
     end;;
     match activeWatchlistType s with
     | all | tv => AsyncStorage.removeItem "tvWatchlist"
     | movies => ret tt
     end;;
     match activeWatchlistType s with
     | all => setWatchlist (λ _, [])
     | movies => setWatchlist (List.filter (has_media_type "tv"))
     | tv => setWatchlist (List.filter (has_media_type "movie"))
     end)
    (λ _, Alert_alert "Error" "Failed to clear watchlist").

End operations.
End WatchlistScreen.

(** *** ProfileScreen (second unit of unnamed/part_002) *)

Module ProfileScreen.

(** [genres] is the object the code uses as a counter per genre name. *)
Record ProfileStats : Type := {
  totalMovies : nat;
  genres : gmap string nat;
  totalRuntime : nat
}.

Record State : Type := {
  watchlistStats : ProfileStats;
  loading : bool
}.

Definition no_stats : ProfileStats :=
  {| totalMovies := 0; genres := ∅; totalRuntime := 0 |}.

Definition setWatchlistStats (stats : ProfileStats) : M State unit :=
  update_state (λ s, {| watchlistStats := stats; loading := loading s |}).

Definition setLoading (b : bool) : M State unit :=
  update_state (λ s, {| watchlistStats := watchlistStats s; loading := b |}).

Definition genreMap : list (string * string) :=
  [("28", "Action"); ("12", "Adventure"); ("16", "Animation"); ("35", "Comedy");
   ("80", "Crime"); ("99", "Documentary"); ("18", "Drama"); ("10751", "Family");
   ("14", "Fantasy"); ("36", "History"); ("27", "Horror"); ("10402", "Music");
   ("9648", "Mystery"); ("10749", "Romance"); ("878", "Science Fiction");
   ("10770", "TV Movie"); ("53", "Thriller"); ("10752", "War"); ("37", "Western")].

(** [genreMap[genreId] || 'Unknown']; the identifier is a number, which the
    property read turns into its decimal text. *)
Definition getGenreName (genreId : json) : string :=
  match List.find (λ kv, String.eqb kv.1 (js_toString genreId)) genreMap with
  | Some kv => kv.2
  | None => "Unknown"
  end.

(** [genres[name] = (genres[name] || 0) + 1] *)
Definition count_genre (name : string) (genres : gmap string nat) : gmap string nat :=
  <[name := S (default 0 (genres !! name))]> genres.

Definition is_array (v : jsval) : bool :=
  match v with Some (JArr _) => true | _ => false end.

Definition elements (v : jsval) : list json :=
  match v with Some (JArr l) => l | _ => [] end.

(** One turn of the [forEach] over the watchlist in [calculateStats]. *)
Definition count_movie (genres : gmap string nat) (movie : json) : gmap string nat :=
  if truthy (member "genre_ids" movie) && is_array (member "genre_ids" movie) then
    foldl (λ acc genreId, count_genre (getGenreName genreId) acc) genres
      (elements (member "genre_ids" movie))
  else if truthy (member "genres" movie) && is_array (member "genres" movie) then
    foldl (λ acc genre,
             if truthy (Some genre) && truthy (member "name" genre)
             then count_genre (template (member "name" genre)) acc
             else acc)
      genres (elements (member "genres" movie))
  else genres.

Definition calculateStats (watchlist : list json) : M State unit :=
  setWatchlistStats
    {| totalMovies := length watchlist;
       genres := foldl count_movie ∅ watchlist;
       totalRuntime := 120 * length watchlist |}.

(** [movie && typeof movie === 'object' && movie.id && movie.title] *)
Definition valid_movie (movie : json) : bool :=
  truthy (Some movie) &&
  match movie with JObj _ | JArr _ => true | _ => false end &&
  truthy (member "id" movie) && truthy (member "title" movie).

Section operations.
Context `{JSONCodec} `{JSString}.

Definition loadProfileData : M State unit :=
  finally
    (try_catch
       (setLoading true;;
        watchlistData ← AsyncStorage.getItem "watchlist";
        if present watchlistData then
          try_catch
            (watchlist ← lift (JSON_parse_or_throw (default EmptyString watchlistData));
             match watchlist with
             | JArr l => calculateStats (List.filter valid_movie l)
             | _ =>
                 AsyncStorage.removeItem "watchlist";;
                 setWatchlistStats no_stats
             end)
            (λ parseError,
               AsyncStorage.removeItem "watchlist";;
               setWatchlistStats no_stats)
        else setWatchlistStats no_stats)
       (λ _, setWatchlistStats no_stats))
    (setLoading false).

End operations.
End ProfileScreen.

(** ** The settings of the profile screen *)

(** [toggleNotifications], [clearAllData] and [formatRuntime] of
    [ProfileScreen]. *)
Module ProfileSettings.

(** [{...v}] of what a property read returned: [undefined] and [null]
    spread to nothing. *)
Definition spread_value (v : jsval) : list (string * json) :=
  match v with
  | Some j => spread [j]
  | None => []
  end.

(** The object literal
    [{...user, preferences: {...user.preferences, notifications: value}}]. *)
Definition with_notifications (user : json) (value : bool) : json :=
  JObj (assign "preferences"
          (JObj (assign "notifications" (JBool value)
                   (spread_value (member "preferences" user))))
          (spread [user])).

Section operations.
Context `{JSONCodec} `{JSString}.

(** The session is the one of [useAuth()]. *)
Definition toggleNotifications (value : bool) : M AuthState unit :=
  try_catch
    (authState ← get_state;
     if truthy (Some (user authState)) then
       AuthContext.updateUser (with_notifications (user authState) value)
     else ret tt)
    (λ _, ret tt).

End operations.

(** [clearAllData()] with the dialog answered "Clear All";
    [AsyncStorage.clear()] is one write that empties the storage. *)
Definition clearAllData : M ProfileScreen.State unit :=
  Alert_alert "Clear All Data"
    "This will remove your watchlist, preferences, and all app data. This action cannot be undone.";;
  try_catch
    (AsyncStorage.write (λ _, ∅);;
     ProfileScreen.setWatchlistStats ProfileScreen.no_stats;;
     Alert_alert "Success" "All data has been cleared")
    (λ _, Alert_alert "Error" "Failed to clear data").

(** [Math.floor(minutes / 60)] and [minutes % 60], whose sign is the one
    of [minutes]. *)
Definition formatRuntime (minutes : Z) : string :=
  let hours := (minutes / 60)%Z in
  let remainingMinutes := Z.rem minutes 60 in
  Number_toString hours +:+ "h " +:+ Number_toString remainingMinutes +:+ "m".

End ProfileSettings.

(** ** The theme: [ThemeProvider] of unnamed/part_005 *)

Module ThemeContext.

Record Theme : Type := {
  background : string;
  surface : string;
  card : string;
  primary : string;
  primaryLight : string;
  text : string;
  textSecondary : string;
  textTertiary : string;
  textMuted : string;
  border : string;
  overlay : string;
  gradient : list string;
  headerBackground : string;
  tabBarBackground : string;
  statusBar : string;
  error : string;
  warning : string;
  success : string
}.

Definition dark : Theme :=
  {| background := "#000"; surface := "#111"; card := "#1a1a1a";
     primary := "#e50914"; primaryLight := "rgba(229, 9, 20, 0.1)";
     text := "#fff"; textSecondary := "#ccc"; textTertiary := "#999";
     textMuted := "#666"; border := "#333"; overlay := "rgba(0, 0, 0, 0.7)";
     gradient := ["transparent"; "rgba(0,0,0,0.8)"; "#000"];
     headerBackground := "#000"; tabBarBackground := "#000";
     statusBar := "light"; error := "#e50914"; warning := "#FFD700";
     success := "#4CAF50" |}.

Definition light : Theme :=
  {| background := "#fff"; surface := "#f8f9fa"; card := "#ffffff";
     primary := "#e50914"; primaryLight := "rgba(229, 9, 20, 0.1)";
     text := "#000"; textSecondary := "#333"; textTertiary := "#666";
     textMuted := "#999"; border := "#e1e1e1"; overlay := "rgba(0, 0, 0, 0.5)";
     gradient := ["transparent"; "rgba(255,255,255,0.8)"; "#fff"];
     headerBackground := "#fff"; tabBarBackground := "#fff";
     statusBar := "dark"; error := "#e50914"; warning := "#F57C00";
     success := "#2E7D32" |}.

(** [themes[mode]]: the table has the two properties [dark] and [light];
    another name reads [undefined] (the names that every object inherits
    are left out: no mode the application sets is one of them). *)
Definition themes (mode : string) : option Theme :=
  if String.eqb mode "dark" then Some dark
  else if String.eqb mode "light" then Some light
  else None.

(** What [useColorScheme()] reports when it reports a scheme. *)
Inductive ColorScheme : Type := scheme_light | scheme_dark.

Definition scheme_name (c : ColorScheme) : string :=
  match c with scheme_light => "light" | scheme_dark => "dark" end.

(** [mode] is a [ThemeMode] by its type only: [loadThemePreference] casts
    whatever text the storage holds. *)
Record ThemeState : Type := {
  mode : string;
  theme : option Theme;
  isDark : bool
}.

Inductive ThemeAction : Type :=
| SET_THEME (payload : string)
| SET_SYSTEM_THEME (payload : ColorScheme).

Definition themeReducer (state : ThemeState) (action : ThemeAction) : ThemeState :=
  match action with
  | SET_THEME payload =>
      if String.eqb payload "auto" then
        {| mode := payload; theme := theme state; isDark := isDark state |}
      else
        {| mode := payload; theme := themes payload;
           isDark := String.eqb payload "dark" |}
  | SET_SYSTEM_THEME payload =>
      if String.eqb (mode state) "auto" then
        {| mode := mode state;
           theme := themes (scheme_name payload);
           isDark := String.eqb (scheme_name payload) "dark" |}
      else state
  end.

Definition initialState : ThemeState :=
  {| mode := "dark"; theme := Some dark; isDark := true |}.

(** The provider: its reducer state and the scheme the system reports. *)
Record State : Type := {
  themeState : ThemeState;
  systemColorScheme : option ColorScheme
}.

Definition dispatch (action : ThemeAction) : M State unit :=
  update_state (λ s, {| themeState := themeReducer (themeState s) action;
                        systemColorScheme := systemColorScheme s |}).

(** [if (mode === 'auto' && systemColorScheme) dispatch(SET_SYSTEM_THEME)] *)
Definition apply_system_theme (payload : string) : M State unit :=
  s ← get_state;
  match systemColorScheme s with
  | Some scheme =>
      if String.eqb payload "auto" then dispatch (SET_SYSTEM_THEME scheme)
      else ret tt
  | None => ret tt
  end.

Definition loadThemePreference : M State unit :=
  try_catch
    (savedTheme ← AsyncStorage.getItem "theme_preference";
     if present savedTheme then
       let payload := default EmptyString savedTheme in
       dispatch (SET_THEME payload);;
       apply_system_theme payload
     else ret tt)
    (λ _, ret tt).

Definition setTheme (payload : string) : M State unit :=
  try_catch
    (AsyncStorage.setItem "theme_preference" payload;;
     dispatch (SET_THEME payload);;
     apply_system_theme payload)
    (λ _, ret tt).

End ThemeContext.

(** ** The login screen: app/(auth)/login.tsx *)

(** [s.includes(needle)] *)
Fixpoint includes (s needle : string) : bool :=
  String.prefix needle s ||
  match s with
  | EmptyString => false
  | String _ r => includes r needle
  end.

Module LoginScreen.

Record State : Type := {
  email : string;
  password : string;
  showPassword : bool;
  isLoading : bool
}.

(** The screen, the session of [useAuth()] and the route of
    [useRouter()]. *)
Record App : Type := {
  screen : State;
  authState : AuthState;
  route : string
}.

Definition setIsLoading (b : bool) : M App unit :=
  update_state (λ a, {| screen := {| email := email (screen a);
                                     password := password (screen a);
                                     showPassword := showPassword (screen a);
                                     isLoading := b |};
                        authState := authState a; route := route a |}).

Definition router_replace (path : string) : M App unit :=
  update_state (λ a, {| screen := screen a; authState := authState a;
                        route := path |}).

(** An operation of the session store, run from the screen. *)
Definition useAuth {A} (m : M AuthState A) : M App A :=
  λ a d,
    match m (authState a) d with
    | {| result := r; local := st; device := d' |} =>
        {| result := r;
           local := {| screen := screen a; authState := st; route := route a |};
           device := d' |}
    end.

Section operations.
Context `{JSONCodec} `{JSString}.

Definition validateForm : M App bool :=
  a ← get_state;
  if negb (nonempty (trim (email (screen a)))) then
    Alert_alert "Validation Error" "Please enter your email";;
    ret false
  else if negb (includes (email (screen a)) "@") then
    Alert_alert "Validation Error" "Please enter a valid email address";;
    ret false
  else if negb (nonempty (trim (password (screen a)))) then
    Alert_alert "Validation Error" "Please enter your password";;
    ret false
  else ret true.

Definition handleLogin : M App unit :=
  valid ← validateForm;
  if negb valid then ret tt
  else
    finally
      (try_catch
         (setIsLoading true;;
          a ← get_state;
          useAuth (AuthContext.login
                     {| LoginCredentials.email := email (screen a);
                        LoginCredentials.password := password (screen a) |});;
          router_replace "/(tabs)/home")
         (λ _, ret tt))
      (setIsLoading false).

End operations.
End LoginScreen.

(** * Facts about the runtime model *)

(** ** Numbers as text *)

Definition number_heads : list ascii :=
  ["-"; "0"; "1"; "2"; "3"; "4"; "5"; "6"; "7"; "8"; "9"]%char.

Lemma Number_toString_head z :
  ∃ c r, Number_toString z = String c r ∧ c ∈ number_heads.
Proof.
  unfold Number_toString, number_heads.
  destruct (Z.to_int z) as [d|d].
  - destruct d; simpl; do 2 eexists; (split; [reflexivity|]);
      repeat first [ apply list_elem_of_here | apply list_elem_of_further ].
  - do 2 eexists. split; [reflexivity|]. apply list_elem_of_here.
Qed.

Lemma Number_toString_not_id z : Number_toString z ≠ "id".
Proof.
  destruct (Number_toString_head z) as (c & r & -> & Hc). unfold number_heads in Hc.
  repeat (apply elem_of_cons in Hc as [->|Hc]; [discriminate|]).
  by apply elem_of_nil in Hc.
Qed.

(** ** The compact codec satisfies the interface *)

Module CompactFacts.
Import Compact.
#[local] Arguments String.append !_ _ / : simpl nomatch.

Lemma stringify_arr l : stringify (JArr l) = String "[" (stringify_elems l).
Proof. reflexivity. Qed.

Lemma stringify_obj fs : stringify (JObj fs) = String "{" (stringify_members fs).
Proof. reflexivity. Qed.

Lemma weight_arr l : weight (JArr l) = S (weight_elems l).
Proof. reflexivity. Qed.

Lemma weight_obj fs : weight (JObj fs) = S (weight_members fs).
Proof. reflexivity. Qed.

Lemma append_assoc (a b c : string) : (a +:+ b) +:+ c = a +:+ (b +:+ c).
Proof. induction a as [|x a IH]; simpl; congruence. Qed.

Lemma length_append (a b : string) :
  String.length (a +:+ b) = String.length a + String.length b.
Proof. induction a as [|x a IH]; simpl; congruence. Qed.

(** What may follow a number without being read as part of it. *)
Definition no_digit_head (s : string) : Prop :=
  match s with
  | EmptyString => True
  | String c _ => is_digit c = false
  end.

Lemma scan_uint_digits d rest :
  no_digit_head rest →
  scan_uint (NilEmpty.string_of_uint d +:+ rest) = (d, rest).
Proof.
  intros Hrest. induction d; simpl; try (rewrite IHd; reflexivity).
  destruct rest as [|c r]; simpl; [done|]. simpl in Hrest. by rewrite Hrest.
Qed.

Lemma scan_uint_print d rest :
  no_digit_head rest →
  ∃ d', scan_uint (NilZero.string_of_uint d +:+ rest) = (d', rest) ∧
        d' ≠ Decimal.Nil ∧
        Z.of_int (Decimal.Pos d') = Z.of_int (Decimal.Pos d) ∧
        Z.of_int (Decimal.Neg d') = Z.of_int (Decimal.Neg d).
Proof.
  intros Hrest. destruct d as [|d|d|d|d|d|d|d|d|d|d].
  1: { exists (Decimal.D0 Decimal.Nil). simpl.
       replace (scan_uint rest) with (Decimal.Nil, rest); [done|].
       destruct rest as [|c r]; simpl; [done|]. simpl in Hrest. by rewrite Hrest. }
  all: eexists; split;
    [ unfold NilZero.string_of_uint; apply scan_uint_digits, Hrest | done ].
Qed.

Lemma parse_chars_escape s rest :
  parse_chars (escape s +:+ String dquote rest) = Some (s, rest).
Proof.
  induction s as [|c s IH]; [done|]. simpl.
  destruct (Ascii.eqb c dquote) eqn:Hq; simpl.
  - rewrite Hq. simpl. by rewrite IH.
  - destruct (Ascii.eqb c backslash) eqn:Hb; simpl.
    + rewrite Hb, Hq. simpl. by rewrite IH.
    + rewrite Hq, Hb. by rewrite IH.
Qed.

Lemma parse_chars_quote s rest :
  parse_chars (escape s +:+ String dquote EmptyString +:+ rest) = Some (s, rest).
Proof. apply (parse_chars_escape s rest). Qed.

Lemma parse_number_print z rest :
  no_digit_head rest →
  parse_number (Number_toString z +:+ rest) = Some (JNum z, rest).
Proof.
  intros Hrest. unfold Number_toString, parse_number.
  pose proof (DecimalZ.of_to z) as Hz.
  destruct (Z.to_int z) as [d|d];
    destruct (scan_uint_print d rest Hrest) as (d' & Hscan & Hnil & Hp & Hn).
  - replace (starts_with "-" (NilZero.string_of_uint d +:+ rest)) with false
      by (by destruct d).
    rewrite Hscan. destruct d'; [done|..]; by rewrite Hp, Hz.
  - change (String "-" (NilZero.string_of_uint d) +:+ rest)
      with (String "-" (NilZero.string_of_uint d +:+ rest)).
    cbn [starts_with tail]. simpl (Ascii.eqb _ _). cbn iota.
    rewrite Hscan. destruct d'; [done|..]; by rewrite Hn, Hz.
Qed.

Lemma parse_value_number z fuel rest :
  no_digit_head rest →
  parse_value (S fuel) (Number_toString z +:+ rest) = Some (JNum z, rest).
Proof.
  intros Hrest. rewrite <- (parse_number_print z rest Hrest).
  destruct (Number_toString_head z) as (c & r & -> & Hc).
  unfold number_heads in Hc.
  repeat (apply elem_of_cons in Hc as [->|Hc]; [reflexivity|]).
  by apply elem_of_nil in Hc.
Qed.

(** No value starts with a closing bracket. *)
Lemma stringify_not_closing j rest :
  starts_with "]" (stringify j +:+ rest) = false.
Proof.
  destruct j as [|[]| | | |]; try reflexivity.
  destruct (Number_toString_head n) as (c & r & Hn & Hc).
  simpl. rewrite Hn. unfold number_heads in Hc.
  repeat (apply elem_of_cons in Hc as [->|Hc]; [reflexivity|]).
  by apply elem_of_nil in Hc.
Qed.

Definition reads_back (j : json) : Prop :=
  ∀ fuel rest, weight j ≤ fuel → no_digit_head rest →
    parse_value fuel (stringify j +:+ rest) = Some (j, rest).

Lemma parse_elems_stringify l :
  Forall reads_back l → l ≠ [] →
  ∀ fuel rest, weight_elems l ≤ fuel →
    parse_elems fuel (stringify_elems l +:+ rest) = Some (l, rest).
Proof.
  induction 1 as [|x r Hx Hr IH]; [done|]. intros _ fuel rest Hfuel.
  destruct fuel as [|fuel]; [simpl in Hfuel; lia|].
  simpl in Hfuel. cbn [stringify_elems parse_elems]. rewrite append_assoc.
  destruct r as [|y r'].
  - rewrite Hx by (simpl; (lia || done)). reflexivity.
  - rewrite Hx by (simpl; (lia || done)). simpl starts_with. cbn iota.
    simpl tail. rewrite IH by (done || lia). reflexivity.
Qed.

Lemma append_cons c (a b : string) : String c a +:+ b = String c (a +:+ b).
Proof. reflexivity. Qed.

Lemma quote_append k tl :
  quote k +:+ tl = String dquote (escape k +:+ String dquote tl).
Proof. unfold quote. by rewrite append_cons, append_assoc. Qed.

Lemma parse_members_stringify fs :
  Forall (λ kv, reads_back kv.2) fs → fs ≠ [] →
  ∀ fuel rest, weight_members fs ≤ fuel →
    parse_members fuel (stringify_members fs +:+ rest) = Some (fs, rest).
Proof.
  induction 1 as [|[k v] r Hx Hr IH]; [done|]. intros _ fuel rest Hfuel.
  destruct fuel as [|fuel]; [simpl in Hfuel; lia|].
  simpl in Hfuel, Hx. cbn [stringify_members parse_members fst snd].
  rewrite append_assoc, quote_append, append_cons, append_assoc.
  cbn [starts_with tail]. simpl (Ascii.eqb _ _). cbn iota.
  rewrite parse_chars_escape. cbn [starts_with tail]. simpl (Ascii.eqb _ _).
  cbn iota.
  destruct r as [|y r'].
  - rewrite Hx by (simpl; (lia || done)). reflexivity.
  - rewrite Hx by (simpl; (lia || done)). rewrite append_cons.
    cbn [starts_with tail]. simpl (Ascii.eqb _ _). cbn iota.
    rewrite IH by (done || lia). reflexivity.
Qed.

Lemma stringify_elems_not_closing x r rest :
  starts_with "]" (stringify_elems (x :: r) +:+ rest) = false.
Proof. cbn [stringify_elems]. rewrite append_assoc. apply stringify_not_closing. Qed.

Lemma stringify_members_not_closing x r rest :
  starts_with "}" (stringify_members (x :: r) +:+ rest) = false.
Proof. cbn [stringify_members]. by rewrite append_assoc, quote_append. Qed.

Lemma parse_value_stringify j : reads_back j.
Proof.
  induction j as [|b|n|s|l IH|fs IH] using json_nested_ind; intros fuel rest Hfuel Hrest;
    (destruct fuel as [|fuel]; [simpl in Hfuel; lia|]).
  - reflexivity.
  - by destruct b.
  - by apply parse_value_number.
  - cbn [stringify]. rewrite quote_append. cbn [parse_value].
    simpl (Ascii.eqb _ _). cbn iota. by rewrite parse_chars_escape.
  - rewrite stringify_arr, weight_arr in *. destruct l as [|x r]; [reflexivity|].
    rewrite append_cons. cbn [parse_value]. simpl (Ascii.eqb _ _). cbn iota.
    rewrite stringify_elems_not_closing.
    rewrite parse_elems_stringify by (done || lia). reflexivity.
  - rewrite stringify_obj, weight_obj in *. destruct fs as [|x r]; [reflexivity|].
    rewrite append_cons. cbn [parse_value]. simpl (Ascii.eqb _ _). cbn iota.
    rewrite stringify_members_not_closing.
    rewrite parse_members_stringify by (done || lia). reflexivity.
Qed.

Lemma weight_le_length j : weight j ≤ String.length (stringify j).
Proof.
  induction j as [|b|n|s|l IH|fs IH] using json_nested_ind.
  - simpl; lia.
  - destruct b; simpl; lia.
  - destruct (Number_toString_head n) as (c & r & Hn & _).
    simpl. rewrite Hn. simpl. lia.
  - simpl. lia.
  - rewrite stringify_arr, weight_arr. simpl String.length.
    apply le_n_S. induction IH as [|x r Hx Hr IHr]; [simpl; lia|].
    cbn [stringify_elems weight_elems]. rewrite length_append.
    destruct r as [|y r']; cbn [String.length]; [simpl weight_elems; lia | lia].
  - rewrite stringify_obj, weight_obj. simpl String.length.
    apply le_n_S. induction IH as [|[k v] r Hx Hr IHr]; [simpl; lia|].
    cbn [stringify_members weight_members fst snd]. rewrite length_append.
    simpl in Hx. cbn [String.length]. rewrite length_append.
    destruct r as [|y r']; cbn [String.length]; [simpl weight_members; lia | lia].
Qed.

Lemma parse_stringify j : parse (stringify j) = Some j.
Proof.
  unfold parse.
  pose proof (parse_value_stringify j (String.length (stringify j)) EmptyString
                (weight_le_length j) I) as H.
  replace (stringify j +:+ EmptyString) with (stringify j) in H; [by rewrite H|].
  generalize (stringify j) as s. induction s; simpl; congruence.
Qed.

Lemma stringify_nonempty j : stringify j ≠ EmptyString.
Proof.
  pose proof (weight_le_length j) as H. intros E. rewrite E in H.
  destruct j; simpl in H; lia.
Qed.

End CompactFacts.

(** The compact codec as an instance of the interface. *)
Definition compact_json : JSONCodec :=
  {| JSON_stringify := Compact.stringify;
     JSON_parse := Compact.parse;
     JSON_parse_stringify := CompactFacts.parse_stringify;
     JSON_stringify_nonempty := CompactFacts.stringify_nonempty |}.

(** ** Dynamic objects *)


Lemma lookup_last_app k fs gs :
  lookup_last k (fs ++ gs) =
  match lookup_last k gs with Some v => Some v | None => lookup_last k fs end.
Proof.
  induction fs as [|[k' v] r IH]; simpl.
  - by destruct (lookup_last k gs).
  - rewrite IH. by destruct (lookup_last k gs), (lookup_last k r).
Qed.

Lemma lookup_last_no_key k fs : has_key k fs = false → lookup_last k fs = None.
Proof.
  unfold has_key. induction fs as [|[k' v] r IH]; simpl; [done|].
  intros [Hk Hr]%orb_false_iff. by rewrite (IH Hr), Hk.
Qed.

Lemma lookup_last_replace k k' v fs :
  lookup_last k (map (λ kv : string * json,
                        if String.eqb k' kv.1 then (kv.1, v) else kv) fs) =
  if String.eqb k k'
  then (if has_key k' fs then Some v else None)
  else lookup_last k fs.
Proof.
  unfold has_key. induction fs as [|[k1 v1] r IH]; simpl.
  - by destruct (String.eqb k k').
  - destruct (String.eqb k' k1) eqn:E1; simpl; rewrite IH;
      destruct (String.eqb k k') eqn:E.
    + apply String.eqb_eq in E as ->. rewrite E1. by destruct (existsb _ r).
    + apply String.eqb_eq in E1 as ->. rewrite E. by destruct (lookup_last k r).
    + apply String.eqb_eq in E as ->. rewrite E1. by destruct (existsb _ r).
    + done.
Qed.

Lemma lookup_last_assign k k' v fs :
  lookup_last k (assign k' v fs) =
  if String.eqb k k' then Some v else lookup_last k fs.
Proof.
  unfold assign. destruct (has_key k' fs) eqn:Hhas.
  - by rewrite lookup_last_replace, Hhas.
  - rewrite lookup_last_app. simpl.
    by destruct (String.eqb k k').
Qed.

Lemma lookup_last_assign_all k acc fs :
  lookup_last k (foldl (λ acc kv, assign kv.1 kv.2 acc) acc fs) =
  match lookup_last k fs with Some v => Some v | None => lookup_last k acc end.
Proof.
  revert acc. induction fs as [|[k' v] r IH]; intros acc; [done|].
  simpl. rewrite IH, lookup_last_assign.
  destruct (lookup_last k r); [done|]. by destruct (String.eqb k k').
Qed.

Lemma lookup_last_spread k fs : lookup_last k (spread [JObj fs]) = lookup_last k fs.
Proof.
  unfold spread. simpl. rewrite app_nil_r, lookup_last_assign_all.
  by destruct (lookup_last k fs).
Qed.

Lemma lookup_last_imap k (h : nat → json → string * json) (l : list json) :
  (∀ i x, (h i x).1 ≠ k) → lookup_last k (imap h l) = None.
Proof.
  revert h. induction l as [|x r IH]; intros h Hh; [done|].
  simpl. rewrite (IH (h ∘ S)) by (intros i y; apply Hh).
  specialize (Hh 0 x). destruct (h 0 x) as [k' v]. simpl in *.
  destruct (String.eqb_spec k k') as [->|]; done.
Qed.

(** An array or a text has no own property [id]. *)
Lemma lookup_last_indexed_id l : lookup_last "id" (indexed l) = None.
Proof.
  apply lookup_last_imap. intros i x. apply Number_toString_not_id.
Qed.

(** The tag is what a later read of [media_type] sees. *)
Lemma with_media_type_tag tag item :
  member "media_type" (with_media_type tag item) = Some (JStr tag).
Proof. unfold with_media_type, member. by rewrite lookup_last_assign. Qed.

(** Tagging an object leaves its other properties as they were. *)
Lemma with_media_type_other k tag fs :
  k ≠ "media_type" →
  member k (with_media_type tag (JObj fs)) = member k (JObj fs).
Proof.
  intros Hk. unfold with_media_type, member.
  rewrite lookup_last_assign, lookup_last_spread.
  by apply String.eqb_neq in Hk as ->.
Qed.

(** [item.id === content.id], for values that are not [null]. *)
Definition has_id_of (content item : json) : bool :=
  strict_eq (member "id" item) (member "id" content).

Lemma prop_not_null j k : j ≠ JNull → prop (Some j) k = Ok (member k j).
Proof. by destruct j. Qed.

(** Tagging any value leaves its [id] as it was. *)
Lemma with_media_type_id tag item :
  member "id" (with_media_type tag item) = member "id" item.
Proof.
  destruct item; try reflexivity.
  - unfold with_media_type, member, spread. simpl.
    rewrite lookup_last_assign. simpl. rewrite app_nil_r, lookup_last_assign_all.
    by rewrite lookup_last_indexed_id.
  - unfold with_media_type, member, spread. simpl.
    rewrite lookup_last_assign. simpl. rewrite app_nil_r, lookup_last_assign_all.
    by rewrite lookup_last_indexed_id.
  - by apply with_media_type_other.
Qed.

(** ** Array methods with callbacks that do not throw *)

Lemma find_first_pure p q l :
  Forall (λ x, p x = Ok (q x)) l → find_first p l = Ok (List.find q l).
Proof.
  induction 1 as [|x r Hx _ IH]; [done|]. simpl. rewrite Hx.
  by destruct (q x).
Qed.

(** The position of the first element that satisfies [q]. *)
Fixpoint index_of (q : json → bool) (l : list json) : option nat :=
  match l with
  | [] => None
  | x :: r => if q x then Some O else S <$> index_of q r
  end.

Lemma find_index_pure p q l :
  Forall (λ x, p x = Ok (q x)) l → find_index p l = Ok (index_of q l).
Proof.
  induction 1 as [|x r Hx _ IH]; [done|]. simpl. rewrite Hx.
  destruct (q x); [done|]. rewrite IH. by destruct (index_of q r).
Qed.

Lemma find_index_none p l :
  Forall (λ x, p x = Ok false) l → find_index p l = Ok None.
Proof. induction 1 as [|x r Hx _ IH]; [done|]. simpl. by rewrite Hx, IH. Qed.

Lemma filter_js_pure p q l :
  Forall (λ x, p x = Ok (q x)) l → filter_js p l = Ok (List.filter q l).
Proof.
  induction 1 as [|x r Hx _ IH]; [done|]. simpl. by rewrite Hx, IH.
Qed.

Lemma some_js_pure p q l :
  Forall (λ x, p x = Ok (q x)) l → some_js p l = Ok (existsb q l).
Proof.
  induction 1 as [|x r Hx _ IH]; [done|]. simpl. rewrite Hx.
  by destruct (q x).
Qed.

Lemma Array_find_arr p l : Array_find p (JArr l) = find_first p l.
Proof. reflexivity. Qed.

Lemma Array_findIndex_arr p l : Array_findIndex p (JArr l) = find_index p l.
Proof. reflexivity. Qed.

Lemma Array_filter_pure p q l :
  Forall (λ x, p x = Ok (q x)) l →
  Array_filter p (JArr l) = Ok (JArr (List.filter q l)).
Proof. intros Hp. unfold Array_filter. simpl. by rewrite (filter_js_pure p q l Hp). Qed.

Lemma Array_some_pure p q l :
  Forall (λ x, p x = Ok (q x)) l → Array_some p (JArr l) = Ok (existsb q l).
Proof. intros Hp. unfold Array_some. simpl. by apply some_js_pure. Qed.

Lemma Array_push_arr l x : Array_push (JArr l) x = Ok (JArr (l ++ [x])).
Proof. reflexivity. Qed.

(** ** Running component code *)

Ltac exec :=
  cbv [negb andb orb default from_option id
       try_catch finally mbind M_bind bind mret M_ret ret throw lift get_state
       update_state AuthContext.dispatch AsyncStorage.getItem
       AsyncStorage.setItem AsyncStorage.removeItem AsyncStorage.write
       Alert_alert Toast_show Date_now Date_toISOString
       MovieDetailScreen.setIsInWatchlist TVShowDetailScreen.setIsInWatchlist
       MovieCard.setIsInWatchlist MovieCard.setIsLongPressed
       WatchlistScreen.setWatchlist WatchlistScreen.setLoading
       WatchlistScreen.setRefreshing
       ProfileScreen.setWatchlistStats ProfileScreen.setLoading
       ProfileScreen.calculateStats];
  cbn [result local device storage display faults clock clock_iso
       with_storage with_notice truthy
       MovieDetailScreen.id MovieDetailScreen.movie MovieDetailScreen.isInWatchlist
       TVShowDetailScreen.id TVShowDetailScreen.tvShow
       TVShowDetailScreen.isInWatchlist
       MovieCard.movie MovieCard.isLongPressed MovieCard.isInWatchlist
       WatchlistScreen.watchlist WatchlistScreen.loading
       WatchlistScreen.refreshing WatchlistScreen.activeWatchlistType
       ProfileScreen.watchlistStats ProfileScreen.loading].

(** ** What a storage key holds *)

Section stored.
Context `{JSONCodec} `{JSString}.

Lemma nonempty_stringify j : nonempty (JSON_stringify j) = true.
Proof.
  unfold nonempty. destruct (String.eqb _ _) eqn:E; [|done].
  apply String.eqb_eq in E. by apply JSON_stringify_nonempty in E.
Qed.

Lemma parse_stringify_or_throw j : JSON_parse_or_throw (JSON_stringify j) = Ok j.
Proof. unfold JSON_parse_or_throw. by rewrite JSON_parse_stringify. Qed.

(** The collection under [key] is [l]: what the code reads there, with
    [data ? JSON.parse(data) : []], is the array [l]. *)
Definition stored_list (d : Device) (key : string) (l : list json) : Prop :=
  parse_or_empty (storage d !! key) = Ok (JArr l).

Lemma parse_or_empty_stored d key l :
  stored_list d key l → parse_or_empty (storage d !! key) = Ok (JArr l).
Proof. done. Qed.

(** A key that was written with [JSON.stringify(l)] holds [l]. *)
Lemma stored_list_written d key l :
  storage d !! key = Some (JSON_stringify (JArr l)) → stored_list d key l.
Proof.
  unfold stored_list, parse_or_empty. intros ->.
  by rewrite nonempty_stringify, parse_stringify_or_throw.
Qed.

(** A key that holds nothing, or the empty text, holds the empty list. *)
Lemma stored_list_absent d key :
  present (storage d !! key) = false → stored_list d key [].
Proof.
  unfold stored_list, parse_or_empty, present.
  destruct (storage d !! key); [|done]. by intros ->.
Qed.

Lemma parse_or_empty_stringify j :
  parse_or_empty (Some (JSON_stringify j)) = Ok j.
Proof.
  unfold parse_or_empty. by rewrite nonempty_stringify, parse_stringify_or_throw.
Qed.

End stored.

(** ** Texts *)




Module TextFacts.













Section runtime.
Context `{JSString}.




Lemma String_length_below n s :
  (String.length s < n)%nat → (String_length s < n)%nat.
Proof. intros Hn. pose proof (String_length_le s). lia. Qed.

End runtime.
End TextFacts.

(** ** Session store *)

(** The address a registry entry is filed under, when it has one. *)
Definition email_of (u : json) : option string :=
  match member "email" u with
  | Some (JStr s) => Some s
  | _ => None
  end.

(** [u] is registered under [email], compared without regard to case. *)
Definition registered_as `{JSString} (email : string) (u : json) : bool :=
  match email_of u with
  | Some s => String.eqb (toLowerCase s) (toLowerCase email)
  | None => false
  end.

(** Every entry of the registry is an object with an [email] text. *)
Definition well_formed (users : list json) : Prop :=
  Forall (λ u, is_Some (email_of u)) users.


(** The [User] that [register] builds on device [d]. *)
Definition new_user `{JSString} (c : RegisterCredentials.t) (d : Device) : json :=
  JObj [("id", JStr (Number_toString (clock d)));
        ("email", JStr (toLowerCase (RegisterCredentials.email c)));
        ("name", JStr (RegisterCredentials.name c));
        ("createdAt", JStr (clock_iso d));
        ("preferences", AuthContext.default_preferences)].

(** The spec's error taxonomy, in terms of the errors the code throws. *)
Definition ValidationError (e : exn) : Prop :=
  e = Error "Passwords do not match" ∨
  e = Error "Password must be at least 6 characters".


Definition NotFoundError (e : exn) : Prop :=
  e = Error "User not found. Please register first.".

Definition InvalidCredentialError (e : exn) : Prop := e = Error "Invalid password".

Module AuthFacts.
Import AuthContext.


Section runs.
Context `{JSONCodec} `{JSString}.

Lemma same_email_registered email u :
  is_Some (email_of u) → same_email email u = Ok (registered_as email u).
Proof.
  unfold same_email, registered_as, email_of, prop. intros [s Hs].
  destruct u; try done. simpl in *.
  destruct (lookup_last "email" props) as [[]|]; try done.
Qed.

Lemma find_registered email users :
  well_formed users →
  find_first (same_email email) users = Ok (List.find (registered_as email) users).
Proof.
  intros Hwf. apply find_first_pure.
  eapply Forall_impl; [exact Hwf|]. intros u Hu. by apply same_email_registered.
Qed.

Lemma find_unregistered email users :
  Forall (λ u, registered_as email u = false) users →
  List.find (registered_as email) users = None.
Proof. induction 1 as [|u r Hu _ IH]; [done|]. simpl. by rewrite Hu. Qed.

Lemma find_registered_unique email users u :
  u ∈ users → registered_as email u = true →
  (∀ u', u' ∈ users → registered_as email u' = true → u' = u) →
  List.find (registered_as email) users = Some u.
Proof.
  induction users as [|x r IH]; intros Hin Hu Huniq; [by apply elem_of_nil in Hin|].
  simpl. destruct (registered_as email x) eqn:Hx.
  - f_equal. apply Huniq; [apply list_elem_of_here|done].
  - apply elem_of_cons in Hin as [->|Hin]; [congruence|].
    apply IH; [done..|]. intros u' Hu'. apply Huniq. by apply list_elem_of_further.
Qed.

Lemma find_after_unregistered email users u :
  Forall (λ u, registered_as email u = false) users →
  registered_as email u = true →
  List.find (registered_as email) (users ++ [u]) = Some u.
Proof.
  induction 1 as [|x r Hx _ IH]; intros Hu; simpl; [by rewrite Hu|].
  rewrite Hx. by apply IH.
Qed.


Lemma registered_as_object email u :
  registered_as email u = true → ∃ fs, u = JObj fs.
Proof.
  unfold registered_as, email_of, member. destruct u; try done. by eexists.
Qed.


Lemma password_key_fresh id : password_key id ≠ USERS_STORAGE_KEY ∧
                              password_key id ≠ AUTH_STORAGE_KEY.
Proof. by split. Qed.

(** *** register *)

Lemma register_mismatch c st d :
  RegisterCredentials.password c ≠ RegisterCredentials.confirmPassword c →
  register c st d =
  {| result := Throw (Error "Passwords do not match");
     local := authReducer st (SET_LOADING false);
     device := with_notice d (Alert "Registration Failed" "Passwords do not match") |}.
Proof.
  intros Hne%String.eqb_neq. unfold register. exec. rewrite Hne. reflexivity.
Qed.

Lemma register_short c st d :
  RegisterCredentials.password c = RegisterCredentials.confirmPassword c →
  (String_length (RegisterCredentials.password c) < 6)%nat →
  register c st d =
  {| result := Throw (Error "Password must be at least 6 characters");
     local := authReducer st (SET_LOADING false);
     device := with_notice d (Alert "Registration Failed"
                                "Password must be at least 6 characters") |}.
Proof.
  intros Heq%String.eqb_eq Hlen%Nat.ltb_lt. unfold register. exec.
  rewrite Heq. exec. rewrite Hlen. reflexivity.
Qed.



(** *** login *)

Lemma login_not_found c st d users :
  stored_list d USERS_STORAGE_KEY users →
  well_formed users →
  Forall (λ u, registered_as (LoginCredentials.email c) u = false) users →
  login c st d =
  {| result := Throw (Error "User not found. Please register first.");
     local := authReducer st (SET_LOADING false);
     device := with_notice d (Alert "Login Failed"
                                "User not found. Please register first.") |}.
Proof.
  intros Hstored Hwf Hnone. unfold login. exec.
  rewrite (parse_or_empty_stored _ _ _ Hstored). exec.
  rewrite Array_find_arr, (find_registered _ _ Hwf), (find_unregistered _ _ Hnone).
  reflexivity.
Qed.

Lemma login_run c st d users u :
  stored_list d USERS_STORAGE_KEY users →
  well_formed users →
  List.find (registered_as (LoginCredentials.email c)) users = Some u →
  login c st d =
  let failed e :=
    {| result := Throw e;
       local := authReducer st (SET_LOADING false);
       device := with_notice d (Alert "Login Failed" (message e)) |} in
  let done n :=
    {| result := Ok tt;
       local := authReducer st (LOGIN_SUCCESS u);
       device := with_storage d
                   (<[AUTH_STORAGE_KEY := JSON_stringify u]> (storage d)) n |} in
  if password_differs (storage d !! password_key (member "id" u))
       (LoginCredentials.password c)
  then failed (Error "Invalid password")
  else match faults d with
       | Some 0 =>
           {| result := Throw AsyncStorage.rejected;
              local := authReducer st (SET_LOADING false);
              device := with_notice (with_storage d (storage d) None)
                          (Alert "Login Failed" (message AsyncStorage.rejected)) |}
       | Some (S n) => done (Some n)
       | None => done None
       end.
Proof.
  intros Hstored Hwf Hfind.
  assert (∃ fs, u = JObj fs) as [fs ->].
  { apply find_some in Hfind as [_ Hu]. by eapply registered_as_object. }
  unfold login. exec.
  rewrite (parse_or_empty_stored _ _ _ Hstored). exec.
  rewrite Array_find_arr, (find_registered _ _ Hwf), Hfind. exec.
  rewrite prop_not_null by done. exec.
  destruct (password_differs _ _); [done|].
  destruct (faults d) as [[|n]|]; reflexivity.
Qed.

(** *** logout *)

Lemma logout_run st d :
  logout st d =
  match faults d with
  | Some 0 =>
      {| result := Ok tt; local := st;
         device := with_notice (with_storage d (storage d) None)
                     (Alert "Error" "Failed to logout") |}
  | Some (S n) =>
      {| result := Ok tt; local := authReducer st LOGOUT;
         device := with_storage d (delete AUTH_STORAGE_KEY (storage d)) (Some n) |}
  | None =>
      {| result := Ok tt; local := authReducer st LOGOUT;
         device := with_storage d (delete AUTH_STORAGE_KEY (storage d)) None |}
  end.
Proof. unfold logout. exec. by destruct (faults d) as [[|n]|]. Qed.

(** *** updateUser *)

Lemma same_id_pure current users :
  current ≠ JNull → Forall (λ u, u ≠ JNull) users →
  Forall (λ u, same_id current u = Ok (has_id_of current u)) users.
Proof.
  intros Hc Hu. eapply Forall_impl; [exact Hu|]. intros u Hnull.
  unfold same_id, has_id_of. by rewrite !prop_not_null.
Qed.

Lemma updateUser_signed_out userData st d :
  truthy (Some (user st)) = false →
  updateUser userData st d = {| result := Ok tt; local := st; device := d |}.
Proof. intros Hu. unfold updateUser. exec. unfold truthy in Hu. by rewrite Hu. Qed.

Lemma updateUser_run userData st d users :
  truthy (Some (user st)) = true →
  stored_list d USERS_STORAGE_KEY users →
  Forall (λ u, u ≠ JNull) users →
  updateUser userData st d =
  let updatedUser := JObj (spread [user st; userData]) in
  let session := <[AUTH_STORAGE_KEY := JSON_stringify updatedUser]> (storage d) in
  let failed s :=
    {| result := Ok tt; local := st;
       device := with_notice (with_storage d s None)
                   (Alert "Error" "Failed to update profile") |} in
  let done s n :=
    {| result := Ok tt; local := authReducer st (UPDATE_USER userData);
       device := with_storage d s n |} in
  let registry i :=
    <[USERS_STORAGE_KEY := JSON_stringify (JArr (<[i := updatedUser]> users))]> session in
  match faults d, index_of (has_id_of (user st)) users with
  | Some 0, _ => failed (storage d)
  | Some 1, Some i => failed session
  | Some (S (S n)), Some i => done (registry i) (Some n)
  | None, Some i => done (registry i) None
  | Some (S n), None => done session (Some n)
  | None, None => done session None
  end.
Proof.
  intros Huser Hstored Hnull.
  assert (user st ≠ JNull) as Hst by (by destruct (user st)).
  unfold updateUser. exec. unfold truthy in Huser. rewrite Huser.
  assert (parse_or_empty
            (<[AUTH_STORAGE_KEY :=
                 JSON_stringify (JObj (spread [user st; userData]))]> (storage d)
               !! USERS_STORAGE_KEY) = Ok (JArr users)) as Hparse.
  { rewrite lookup_insert_ne by done. by apply parse_or_empty_stored. }
  destruct (faults d) as [[|n]|] eqn:Hfaults; exec.
  - reflexivity.
  - rewrite Hparse. exec.
    rewrite Array_findIndex_arr,
      (find_index_pure _ _ _ (same_id_pure _ _ Hst Hnull)).
    destruct (index_of _ users) as [i|]; exec; by destruct n.
  - rewrite Hparse. exec.
    rewrite Array_findIndex_arr,
      (find_index_pure _ _ _ (same_id_pure _ _ Hst Hnull)).
    by destruct (index_of _ users) as [i|].
Qed.

(** *** register, then logout, then login *)


End runs.
End AuthFacts.

(** ** Watchlist store *)

Lemma id_differs_pure content l :
  content ≠ JNull → Forall (λ x, x ≠ JNull) l →
  Forall (λ x, id_differs_from content x = Ok (negb (has_id_of content x))) l.
Proof.
  intros Hc Hl. eapply Forall_impl; [exact Hl|]. intros x Hx.
  unfold id_differs_from, has_id_of. by rewrite !prop_not_null.
Qed.

Lemma id_is_pure v l :
  Forall (λ x, x ≠ JNull) l →
  Forall (λ x, id_is v x = Ok (strict_eq (member "id" x) v)) l.
Proof.
  intros Hl. eapply Forall_impl; [exact Hl|]. intros x Hx.
  unfold id_is. by rewrite prop_not_null.
Qed.

(** The entries of [l] whose [id] is not the one of [content]. *)
Definition others (content : json) (l : list json) : list json :=
  List.filter (λ x, negb (has_id_of content x)) l.

(** [l] has an entry with the [id] of [content]. *)
Definition listed (content : json) (l : list json) : bool :=
  existsb (has_id_of content) l.

Lemma others_app content l1 l2 :
  others content (l1 ++ l2) = others content l1 ++ others content l2.
Proof. apply List.filter_app. Qed.

Lemma others_idemp content l : others content (others content l) = others content l.
Proof.
  unfold others. induction l as [|x r IH]; [done|]. simpl.
  destruct (has_id_of content x) eqn:E; simpl; [done|]. by rewrite E, IH.
Qed.

Lemma listed_others content l : listed content (others content l) = false.
Proof.
  unfold listed, others. induction l as [|x r IH]; [done|]. simpl.
  destruct (has_id_of content x) eqn:E; simpl; [done|]. by rewrite E, IH.
Qed.

Lemma others_unlisted content l : listed content l = false → others content l = l.
Proof.
  unfold listed, others. induction l as [|x r IH]; [done|]. simpl.
  intros [Hx Hr]%orb_false_iff. rewrite Hx. simpl. by rewrite (IH Hr).
Qed.

Lemma listed_app content l1 l2 :
  listed content (l1 ++ l2) = listed content l1 || listed content l2.
Proof. apply existsb_app. Qed.

Lemma others_not_null content l :
  Forall (λ x, x ≠ JNull) l → Forall (λ x, x ≠ JNull) (others content l).
Proof.
  intros Hl. apply List.Forall_forall. intros x [Hx _]%filter_In.
  by eapply List.Forall_forall in Hl.
Qed.

(** A numeric [id] is found again by the comparison. *)
Lemma has_id_of_self content i :
  member "id" content = Some (JNum i) → has_id_of content content = true.
Proof. unfold has_id_of. intros ->. simpl. apply Z.eqb_refl. Qed.

Lemma has_id_of_tagged content tag i :
  member "id" content = Some (JNum i) →
  has_id_of content (with_media_type tag content) = true.
Proof.
  intros Hid. unfold has_id_of. destruct content; try done.
  rewrite with_media_type_other by done. rewrite Hid. simpl. apply Z.eqb_refl.
Qed.

(** The ids of a collection, entry by entry. *)
Definition ids (l : list json) : list jsval := map (member "id") l.

Lemma ids_others_NoDup content l : NoDup (ids l) → NoDup (ids (others content l)).
Proof.
  unfold ids, others. induction l as [|x r IH]; [done|]. simpl.
  intros [Hx Hr]%NoDup_cons. destruct (has_id_of content x); simpl; [by apply IH|].
  apply NoDup_cons. split; [|by apply IH].
  intros (y & Hy & Hin)%list_elem_of_fmap. apply Hx.
  apply list_elem_of_fmap. exists y. split; [done|].
  apply list_elem_of_In in Hin. apply filter_In in Hin as [Hin _].
  by apply list_elem_of_In.
Qed.

Lemma unlisted_id_fresh content l i :
  member "id" content = Some (JNum i) → listed content l = false →
  Some (JNum i) ∉ ids l.
Proof.
  intros Hid. unfold listed, ids, has_id_of. rewrite Hid.
  induction l as [|x r IH]; simpl; [intros _; apply not_elem_of_nil|].
  intros [Hx Hr]%orb_false_iff. apply not_elem_of_cons. split; [|by apply IH].
  intros E. rewrite <- E in Hx. simpl in Hx. by rewrite Z.eqb_refl in Hx.
Qed.

Module WatchlistFacts.
Section runs.
Context `{JSONCodec} `{JSString}.

Ltac toggle_run flag Hstored Hmovie Hnull :=
  exec; rewrite (parse_or_empty_stored _ _ _ Hstored); exec;
  destruct flag eqn:Hflag;
  [ rewrite (Array_filter_pure _ _ _ (id_differs_pure _ _ Hmovie (Hnull eq_refl)))
  | rewrite Array_push_arr ];
  exec; rewrite ?prop_not_null by exact Hmovie; exec;
  match goal with
  | |- context [ faults ?d ] => destruct (faults d) as [[|?]|]
  end; reflexivity.

Lemma MovieDetailScreen_toggle_run (s : MovieDetailScreen.State) d l :
  stored_list d "watchlist" l →
  MovieDetailScreen.movie s ≠ JNull →
  (MovieDetailScreen.isInWatchlist s = true → Forall (λ x, x ≠ JNull) l) →
  MovieDetailScreen.toggleWatchlist s d =
  let movie := MovieDetailScreen.movie s in
  let l' := if MovieDetailScreen.isInWatchlist s
            then others movie l else l ++ [movie] in
  let toast :=
    if MovieDetailScreen.isInWatchlist s
    then Toast "success" "Removed from Watchlist"
           (template (member "title" movie) +:+ " has been removed from your watchlist")
    else Toast "success" "Added to Watchlist"
           (template (member "title" movie) +:+ " has been added to your watchlist") in
  let written n :=
    {| result := Ok tt;
       local := {| MovieDetailScreen.id := MovieDetailScreen.id s;
                   MovieDetailScreen.movie := movie;
                   MovieDetailScreen.isInWatchlist :=
                     negb (MovieDetailScreen.isInWatchlist s) |};
       device := with_storage (with_notice d toast)
                   (<["watchlist" := JSON_stringify (JArr l')]> (storage d)) n |} in
  match faults d with
  | Some 0 =>
      {| result := Ok tt; local := s;
         device := with_notice (with_storage (with_notice d toast) (storage d) None)
                     (Toast "error" "Error" "Failed to update watchlist") |}
  | Some (S n) => written (Some n)
  | None => written None
  end.
Proof.
  intros Hstored Hmovie Hnull. unfold MovieDetailScreen.toggleWatchlist.
  toggle_run (MovieDetailScreen.isInWatchlist s) Hstored Hmovie Hnull.
Qed.

Lemma TVShowDetailScreen_toggle_run (s : TVShowDetailScreen.State) d l :
  stored_list d "tvWatchlist" l →
  TVShowDetailScreen.tvShow s ≠ JNull →
  (TVShowDetailScreen.isInWatchlist s = true → Forall (λ x, x ≠ JNull) l) →
  TVShowDetailScreen.toggleWatchlist s d =
  let tvShow := TVShowDetailScreen.tvShow s in
  let l' := if TVShowDetailScreen.isInWatchlist s
            then others tvShow l else l ++ [with_media_type "tv" tvShow] in
  let toast :=
    if TVShowDetailScreen.isInWatchlist s
    then Toast "success" "Removed from Watchlist"
           (template (member "name" tvShow) +:+ " has been removed from your watchlist")
    else Toast "success" "Added to Watchlist"
           (template (member "name" tvShow) +:+ " has been added to your watchlist") in
  let written n :=
    {| result := Ok tt;
       local := {| TVShowDetailScreen.id := TVShowDetailScreen.id s;
                   TVShowDetailScreen.tvShow := tvShow;
                   TVShowDetailScreen.isInWatchlist :=
                     negb (TVShowDetailScreen.isInWatchlist s) |};
       device := with_storage (with_notice d toast)
                   (<["tvWatchlist" := JSON_stringify (JArr l')]> (storage d)) n |} in
  match faults d with
  | Some 0 =>
      {| result := Ok tt; local := s;
         device := with_notice (with_storage (with_notice d toast) (storage d) None)
                     (Toast "error" "Error" "Failed to update watchlist") |}
  | Some (S n) => written (Some n)
  | None => written None
  end.
Proof.
  intros Hstored Hmovie Hnull. unfold TVShowDetailScreen.toggleWatchlist.
  toggle_run (TVShowDetailScreen.isInWatchlist s) Hstored Hmovie Hnull.
Qed.

Lemma MovieCard_toggle_run (s : MovieCard.State) d l :
  stored_list d (MovieCard.watchlistKey s) l →
  MovieCard.movie s ≠ JNull →
  (MovieCard.isInWatchlist s = true → Forall (λ x, x ≠ JNull) l) →
  MovieCard.toggleWatchlist s d =
  let movie := MovieCard.movie s in
  let itemToAdd :=
    if MovieCard.isTV s then with_media_type "tv" movie
    else with_media_type "movie" movie in
  let l' := if MovieCard.isInWatchlist s
            then others movie l else l ++ [itemToAdd] in
  let toast :=
    if MovieCard.isInWatchlist s
    then Toast "success" "Removed from Watchlist"
           (template (MovieCard.title s) +:+ " has been removed from your watchlist")
    else Toast "success" "Added to Watchlist"
           (template (MovieCard.title s) +:+ " has been added to your watchlist") in
  let written n :=
    {| result := Ok tt;
       local := {| MovieCard.movie := movie;
                   MovieCard.isLongPressed := false;
                   MovieCard.isInWatchlist := negb (MovieCard.isInWatchlist s) |};
       device := with_storage (with_notice d toast)
                   (<[MovieCard.watchlistKey s := JSON_stringify (JArr l')]> (storage d))
                   n |} in
  match faults d with
  | Some 0 =>
      {| result := Ok tt; local := s;
         device := with_notice (with_storage (with_notice d toast) (storage d) None)
                     (Toast "error" "Error" "Failed to update watchlist") |}
  | Some (S n) => written (Some n)
  | None => written None
  end.
Proof.
  intros Hstored Hmovie Hnull. unfold MovieCard.toggleWatchlist.
  toggle_run (MovieCard.isInWatchlist s) Hstored Hmovie Hnull.
Qed.

(** A toggle from a flag that agrees with the collection keeps the ids of
    the collection distinct, and the flag in agreement. *)
Lemma MovieDetailScreen_toggle_in_sync (s : MovieDetailScreen.State) d l i :
  faults d = None →
  stored_list d "watchlist" l →
  Forall (λ x, x ≠ JNull) l →
  member "id" (MovieDetailScreen.movie s) = Some (JNum i) →
  MovieDetailScreen.isInWatchlist s = listed (MovieDetailScreen.movie s) l →
  NoDup (ids l) →
  let r := MovieDetailScreen.toggleWatchlist s d in
  ∃ l', stored_list (device r) "watchlist" l' ∧ NoDup (ids l') ∧
        MovieDetailScreen.isInWatchlist (local r) =
          listed (MovieDetailScreen.movie s) l'.
Proof.
  intros Hfaults Hstored Hnull Hid Hsync Hnodup r.
  assert (MovieDetailScreen.movie s ≠ JNull) as Hmovie
    by (intros E; by rewrite E in Hid).
  pose proof (MovieDetailScreen_toggle_run s d l Hstored Hmovie (λ _, Hnull)) as Hr.
  fold r in Hr. rewrite Hfaults in Hr. cbv beta zeta in Hr.
  eexists. split; [apply stored_list_written; rewrite Hr; simpl; by simplify_map_eq|].
  rewrite Hr. simpl. destruct (MovieDetailScreen.isInWatchlist s).
  - split; [by apply ids_others_NoDup|]. by rewrite listed_others.
  - split.
    + unfold ids. rewrite map_app. simpl. rewrite Hid.
      apply NoDup_app. split_and!; [done| |apply NoDup_singleton].
      intros x Hx ->%list_elem_of_singleton.
      by eapply unlisted_id_fresh.
    + rewrite listed_app. simpl. rewrite (has_id_of_self _ i Hid).
      by rewrite orb_true_r.
Qed.

(** *** Two toggles in a row *)

(** What two toggles leave in the collection when they start from [l]
    with the flag [present], the entry that is appended being [entry]. *)
Definition toggled_twice (present : bool) (content entry : json) (l : list json)
  : list json :=
  if present then others content l ++ [entry] else l.

Lemma toggled_twice_listed present content entry l :
  present = listed content l →
  has_id_of content entry = true →
  listed content (toggled_twice present content entry l) = listed content l.
Proof.
  intros -> Hentry. unfold toggled_twice.
  destruct (listed content l) eqn:Hl; [|done].
  rewrite listed_app, listed_others. simpl. by rewrite Hentry.
Qed.

Lemma toggled_twice_others present content entry l :
  has_id_of content entry = true →
  others content (toggled_twice present content entry l) = others content l.
Proof.
  intros Hentry. unfold toggled_twice. destruct present; [|done].
  rewrite others_app, others_idemp. unfold others at 2. simpl.
  rewrite Hentry. simpl. apply app_nil_r.
Qed.

Lemma MovieDetailScreen_toggle_twice (s : MovieDetailScreen.State) d l i :
  faults d = None →
  stored_list d "watchlist" l →
  Forall (λ x, x ≠ JNull) l →
  member "id" (MovieDetailScreen.movie s) = Some (JNum i) →
  MovieDetailScreen.isInWatchlist s = listed (MovieDetailScreen.movie s) l →
  let r1 := MovieDetailScreen.toggleWatchlist s d in
  let r2 := MovieDetailScreen.toggleWatchlist (local r1) (device r1) in
  result r1 = Ok tt ∧ result r2 = Ok tt ∧
  MovieDetailScreen.isInWatchlist (local r1) = negb (MovieDetailScreen.isInWatchlist s) ∧
  MovieDetailScreen.isInWatchlist (local r2) = MovieDetailScreen.isInWatchlist s ∧
  stored_list (device r2) "watchlist"
    (toggled_twice (MovieDetailScreen.isInWatchlist s) (MovieDetailScreen.movie s)
       (MovieDetailScreen.movie s) l).
Proof.
  intros Hfaults Hstored Hnull Hid Hsync r1 r2.
  assert (MovieDetailScreen.movie s ≠ JNull) as Hmovie
    by (intros E; by rewrite E in Hid).
  pose proof (MovieDetailScreen_toggle_run s d l Hstored Hmovie (λ _, Hnull)) as Hr1.
  fold r1 in Hr1. rewrite Hfaults in Hr1. cbv beta zeta in Hr1.
  set (l1 := if MovieDetailScreen.isInWatchlist s
             then others (MovieDetailScreen.movie s) l
             else l ++ [MovieDetailScreen.movie s]) in Hr1.
  assert (stored_list (device r1) "watchlist" l1) as Hstored1.
  { apply stored_list_written. rewrite Hr1. simpl. by simplify_map_eq. }
  assert (Forall (λ x, x ≠ JNull) l1) as Hnull1.
  { subst l1. destruct (MovieDetailScreen.isInWatchlist s).
    - by apply others_not_null.
    - apply Forall_app. split; [done|]. by constructor. }
  assert (MovieDetailScreen.movie (local r1) = MovieDetailScreen.movie s) as Hsame
    by (by rewrite Hr1).
  pose proof (MovieDetailScreen_toggle_run (local r1) (device r1) l1 Hstored1) as Hr2.
  rewrite Hsame in Hr2. specialize (Hr2 Hmovie (λ _, Hnull1)). fold r2 in Hr2.
  assert (faults (device r1) = None) as Hf1 by (by rewrite Hr1).
  rewrite Hf1 in Hr2. cbv beta zeta in Hr2.
  assert (MovieDetailScreen.isInWatchlist (local r1) =
          negb (MovieDetailScreen.isInWatchlist s)) as Hflag by (by rewrite Hr1).
  rewrite Hflag in Hr2.
  split_and!.
  - by rewrite Hr1.
  - by rewrite Hr2.
  - done.
  - rewrite Hr2. simpl. apply negb_involutive.
  - apply stored_list_written. rewrite Hr2. simpl. rewrite lookup_insert_eq.
    do 3 f_equal. subst l1. unfold toggled_twice.
    destruct (MovieDetailScreen.isInWatchlist s); simpl; [done|].
    rewrite others_app, (others_unlisted _ l) by done.
    unfold others. simpl. rewrite (has_id_of_self _ i Hid). simpl. apply app_nil_r.
Qed.

Lemma TVShowDetailScreen_toggle_twice (s : TVShowDetailScreen.State) d l i :
  faults d = None →
  stored_list d "tvWatchlist" l →
  Forall (λ x, x ≠ JNull) l →
  member "id" (TVShowDetailScreen.tvShow s) = Some (JNum i) →
  TVShowDetailScreen.isInWatchlist s = listed (TVShowDetailScreen.tvShow s) l →
  let r1 := TVShowDetailScreen.toggleWatchlist s d in
  let r2 := TVShowDetailScreen.toggleWatchlist (local r1) (device r1) in
  result r1 = Ok tt ∧ result r2 = Ok tt ∧
  TVShowDetailScreen.isInWatchlist (local r1) =
    negb (TVShowDetailScreen.isInWatchlist s) ∧
  TVShowDetailScreen.isInWatchlist (local r2) = TVShowDetailScreen.isInWatchlist s ∧
  stored_list (device r2) "tvWatchlist"
    (toggled_twice (TVShowDetailScreen.isInWatchlist s) (TVShowDetailScreen.tvShow s)
       (with_media_type "tv" (TVShowDetailScreen.tvShow s)) l).
Proof.
  intros Hfaults Hstored Hnull Hid Hsync r1 r2.
  assert (TVShowDetailScreen.tvShow s ≠ JNull) as Hshow
    by (intros E; by rewrite E in Hid).
  pose proof (TVShowDetailScreen_toggle_run s d l Hstored Hshow (λ _, Hnull)) as Hr1.
  fold r1 in Hr1. rewrite Hfaults in Hr1. cbv beta zeta in Hr1.
  set (l1 := if TVShowDetailScreen.isInWatchlist s
             then others (TVShowDetailScreen.tvShow s) l
             else l ++ [with_media_type "tv" (TVShowDetailScreen.tvShow s)]) in Hr1.
  assert (stored_list (device r1) "tvWatchlist" l1) as Hstored1.
  { apply stored_list_written. rewrite Hr1. simpl. by simplify_map_eq. }
  assert (Forall (λ x, x ≠ JNull) l1) as Hnull1.
  { subst l1. destruct (TVShowDetailScreen.isInWatchlist s).
    - by apply others_not_null.
    - apply Forall_app. split; [done|]. by constructor. }
  assert (TVShowDetailScreen.tvShow (local r1) = TVShowDetailScreen.tvShow s) as Hsame
    by (by rewrite Hr1).
  pose proof (TVShowDetailScreen_toggle_run (local r1) (device r1) l1 Hstored1) as Hr2.
  rewrite Hsame in Hr2. specialize (Hr2 Hshow (λ _, Hnull1)). fold r2 in Hr2.
  assert (faults (device r1) = None) as Hf1 by (by rewrite Hr1).
  rewrite Hf1 in Hr2. cbv beta zeta in Hr2.
  assert (TVShowDetailScreen.isInWatchlist (local r1) =
          negb (TVShowDetailScreen.isInWatchlist s)) as Hflag by (by rewrite Hr1).
  rewrite Hflag in Hr2.
  split_and!.
  - by rewrite Hr1.
  - by rewrite Hr2.
  - done.
  - rewrite Hr2. simpl. apply negb_involutive.
  - apply stored_list_written. rewrite Hr2. simpl. rewrite lookup_insert_eq.
    do 3 f_equal. subst l1. unfold toggled_twice.
    destruct (TVShowDetailScreen.isInWatchlist s); simpl; [done|].
    rewrite others_app, (others_unlisted _ l) by done.
    unfold others. simpl. rewrite (has_id_of_tagged _ "tv" i Hid). simpl.
    apply app_nil_r.
Qed.

(** *** Reading a collection *)

Lemma parse_stored_text d key text l :
  stored_list d key l → storage d !! key = Some text → nonempty text = true →
  JSON_parse_or_throw text = Ok (JArr l).
Proof.
  unfold stored_list, parse_or_empty. intros Hstored Htext Hne.
  by rewrite Htext, Hne in Hstored.
Qed.

Lemma stored_text_empty d key text l :
  stored_list d key l → storage d !! key = Some text → nonempty text = false →
  l = [].
Proof.
  unfold stored_list, parse_or_empty. intros Hstored Htext Hne.
  rewrite Htext, Hne in Hstored. by injection Hstored.
Qed.

Lemma stored_none_empty d key l :
  stored_list d key l → storage d !! key = None → l = [].
Proof.
  unfold stored_list, parse_or_empty. intros Hstored Htext.
  rewrite Htext in Hstored. by injection Hstored.
Qed.

(** The check at mount: the flag becomes the membership of the route's
    [id], when the key holds a text; otherwise the flag is left alone. *)
Lemma MovieDetailScreen_check_run (s : MovieDetailScreen.State) d l :
  stored_list d "watchlist" l →
  Forall (λ x, x ≠ JNull) l →
  MovieDetailScreen.checkWatchlistStatus s d =
  {| result := Ok tt;
     local :=
       if present (storage d !! "watchlist")
       then {| MovieDetailScreen.id := MovieDetailScreen.id s;
               MovieDetailScreen.movie := MovieDetailScreen.movie s;
               MovieDetailScreen.isInWatchlist :=
                 existsb (λ x, strict_eq (member "id" x)
                                 (Some (JNum (MovieDetailScreen.id s)))) l |}
       else s;
     device := d |}.
Proof.
  intros Hstored Hnull. unfold MovieDetailScreen.checkWatchlistStatus. exec.
  destruct (storage d !! "watchlist") as [text|] eqn:Htext; [|done].
  cbn [present]. destruct (nonempty text) eqn:Hne; [|done].
  rewrite (parse_stored_text _ _ _ _ Hstored Htext Hne). exec.
  by rewrite (Array_some_pure _ _ _ (id_is_pure _ _ Hnull)).
Qed.

Lemma MovieCard_check_run (s : MovieCard.State) d l :
  stored_list d (MovieCard.watchlistKey s) l →
  Forall (λ x, x ≠ JNull) l →
  MovieCard.checkWatchlistStatus s d =
  {| result := Ok tt;
     local :=
       if present (storage d !! MovieCard.watchlistKey s)
       then {| MovieCard.movie := MovieCard.movie s;
               MovieCard.isLongPressed := MovieCard.isLongPressed s;
               MovieCard.isInWatchlist := listed (MovieCard.movie s) l |}
       else s;
     device := d |}.
Proof.
  intros Hstored Hnull. unfold MovieCard.checkWatchlistStatus. exec.
  destruct (storage d !! MovieCard.watchlistKey s) as [text|] eqn:Htext; [|done].
  cbn [present]. destruct (nonempty text) eqn:Hne; [|done].
  rewrite (parse_stored_text _ _ _ _ Hstored Htext Hne). exec.
  by rewrite (Array_some_pure _ _ _ (id_is_pure _ _ Hnull)).
Qed.

(** *** WatchlistScreen *)

Lemma tagged_items_stored tag d key l (s : WatchlistScreen.State) d' :
  stored_list d key l →
  WatchlistScreen.tagged_items tag (storage d !! key) s d' =
  {| result := Ok (map (with_media_type tag) l); local := s; device := d' |}.
Proof.
  intros Hstored. unfold WatchlistScreen.tagged_items.
  destruct (storage d !! key) as [text|] eqn:Htext.
  - destruct (nonempty text) eqn:Hne.
    + exec. by rewrite (parse_stored_text _ _ _ _ Hstored Htext Hne).
    + by rewrite (stored_text_empty _ _ _ _ Hstored Htext Hne).
  - by rewrite (stored_none_empty _ _ _ Hstored Htext).
Qed.

Lemma tagged_items_corrupt tag text (s : WatchlistScreen.State) d :
  nonempty text = true → JSON_parse text = None →
  WatchlistScreen.tagged_items tag (Some text) s d =
  {| result := Throw (SyntaxError "JSON Parse error"); local := s; device := d |}.
Proof.
  intros Hne Hparse. unfold WatchlistScreen.tagged_items, JSON_parse_or_throw.
  rewrite Hne. exec. by rewrite Hparse.
Qed.

Lemma loadWatchlist_run (s : WatchlistScreen.State) d movies shows :
  stored_list d "watchlist" movies →
  stored_list d "tvWatchlist" shows →
  WatchlistScreen.loadWatchlist s d =
  {| result := Ok tt;
     local := {| WatchlistScreen.watchlist :=
                   map (with_media_type "movie") movies ++
                   map (with_media_type "tv") shows;
                 WatchlistScreen.loading := false;
                 WatchlistScreen.refreshing := WatchlistScreen.refreshing s;
                 WatchlistScreen.activeWatchlistType :=
                   WatchlistScreen.activeWatchlistType s |};
     device := d |}.
Proof.
  intros Hmovies Hshows. unfold WatchlistScreen.loadWatchlist. exec.
  rewrite (tagged_items_stored _ _ _ _ _ _ Hmovies).
  rewrite (tagged_items_stored _ _ _ _ _ _ Hshows). reflexivity.
Qed.

(** A corrupt text under either key: the load is abandoned, the list on
    screen and the storage stay as they were. *)
Lemma loadWatchlist_corrupt (s : WatchlistScreen.State) d key text :
  key = "watchlist" ∨ (key = "tvWatchlist" ∧ ∃ l, stored_list d "watchlist" l) →
  storage d !! key = Some text →
  nonempty text = true → JSON_parse text = None →
  WatchlistScreen.loadWatchlist s d =
  {| result := Ok tt;
     local := {| WatchlistScreen.watchlist := WatchlistScreen.watchlist s;
                 WatchlistScreen.loading := false;
                 WatchlistScreen.refreshing := WatchlistScreen.refreshing s;
                 WatchlistScreen.activeWatchlistType :=
                   WatchlistScreen.activeWatchlistType s |};
     device := d |}.
Proof.
  intros Hkey Htext Hne Hparse. unfold WatchlistScreen.loadWatchlist. exec.
  destruct Hkey as [->|[-> [l Hl]]].
  - rewrite Htext, (tagged_items_corrupt _ _ _ _ Hne Hparse). reflexivity.
  - rewrite (tagged_items_stored _ _ _ _ _ _ Hl).
    rewrite Htext, (tagged_items_corrupt _ _ _ _ Hne Hparse). reflexivity.
Qed.

(** The membership check and the toggle give up on a corrupt text, too. *)
Lemma MovieDetailScreen_check_corrupt (s : MovieDetailScreen.State) d text :
  storage d !! "watchlist" = Some text →
  nonempty text = true → JSON_parse text = None →
  MovieDetailScreen.checkWatchlistStatus s d =
  {| result := Ok tt; local := s; device := d |}.
Proof.
  intros Htext Hne Hparse. unfold MovieDetailScreen.checkWatchlistStatus. exec.
  rewrite Htext, Hne. unfold JSON_parse_or_throw. by rewrite Hparse.
Qed.

Lemma MovieDetailScreen_toggle_corrupt (s : MovieDetailScreen.State) d text :
  storage d !! "watchlist" = Some text →
  nonempty text = true → JSON_parse text = None →
  MovieDetailScreen.toggleWatchlist s d =
  {| result := Ok tt; local := s;
     device := with_notice d (Toast "error" "Error" "Failed to update watchlist") |}.
Proof.
  intros Htext Hne Hparse. unfold MovieDetailScreen.toggleWatchlist. exec.
  rewrite Htext. unfold parse_or_empty, JSON_parse_or_throw. by rewrite Hne, Hparse.
Qed.

(** *** ProfileScreen *)

(** The profile screen is the one reader that repairs: it removes the key. *)
Lemma loadProfileData_corrupt (s : ProfileScreen.State) d text :
  storage d !! "watchlist" = Some text →
  nonempty text = true → JSON_parse text = None →
  faults d = None →
  ProfileScreen.loadProfileData s d =
  {| result := Ok tt;
     local := {| ProfileScreen.watchlistStats := ProfileScreen.no_stats;
                 ProfileScreen.loading := false |};
     device := with_storage d (delete "watchlist" (storage d)) None |}.
Proof.
  intros Htext Hne Hparse Hfaults. unfold ProfileScreen.loadProfileData. exec.
  rewrite Htext. cbn [present]. rewrite Hne. exec.
  unfold JSON_parse_or_throw. rewrite Hparse. exec. by rewrite Hfaults.
Qed.

End runs.
End WatchlistFacts.

(** * The claims *)

(** ** Sample inputs *)

(** The sample runs are on ASCII text. *)
#[global] Existing Instance ascii_strings.

Definition phone : Device :=
  {| storage := ∅; display := []; faults := None;
     clock := 1700000000000; clock_iso := "2023-11-14T22:13:20.000Z" |}.

Definition ann : RegisterCredentials.t :=
  {| RegisterCredentials.name := "Ann";
     RegisterCredentials.email := "ann@x.com";
     RegisterCredentials.password := "secret1";
     RegisterCredentials.confirmPassword := "secret1" |}.


(** The device after Ann has registered on [phone]. *)
Definition phone_with_ann : Device :=
  device (AuthContext.register (H := compact_json) ann AuthContext.initialState phone).

Definition ann_user : json := new_user ann phone.

(** ** Session store *)

Section session_claims.
Context `{JSONCodec} `{JSString}.
Import AuthContext.


(** C5.  A registration whose two passwords differ, or whose password has
    fewer than six characters, fails with a validation error before any
    write is attempted: the storage (registry, credentials, session slot)
    and the write counter of the device are untouched, and the
    authenticated flag and the user are what they were, so an
    unauthenticated session stays unauthenticated. *)
Theorem register_rejects_invalid_password (c : RegisterCredentials.t)
    (st : AuthState) (d : Device) :
  RegisterCredentials.password c ≠ RegisterCredentials.confirmPassword c ∨
  (String.length (RegisterCredentials.password c) < 6)%nat →
  let r := register c st d in
  (∃ e, result r = Throw e ∧ ValidationError e) ∧
  storage (device r) = storage d ∧
  faults (device r) = faults d ∧
  isAuthenticated (local r) = isAuthenticated st ∧
  user (local r) = user st.
Proof.
  intros Hbad. cbv zeta.
  destruct (decide (RegisterCredentials.password c =
                    RegisterCredentials.confirmPassword c)) as [Heq|Hne].
  - destruct Hbad as [Hne|Hshort]; [done|].
    apply TextFacts.String_length_below in Hshort.
    rewrite AuthFacts.register_short by done.
    split; [eexists; split; [reflexivity|by right]|done].
  - rewrite AuthFacts.register_mismatch by done.
    split; [eexists; split; [reflexivity|by left]|done].
Qed.


(** C7.  For a registered user, a login with the user's email and a
    password that is not the stored credential fails with an
    invalid-credential error, and the storage (session slot, registry,
    credentials), the authenticated flag and the user are what they
    were. *)
Theorem login_rejects_wrong_password (c : LoginCredentials.t)
    (st : AuthState) (d : Device) (users : list json) (u : json) :
  stored_list d USERS_STORAGE_KEY users →
  well_formed users →
  u ∈ users →
  registered_as (LoginCredentials.email c) u = true →
  (∀ u', u' ∈ users → registered_as (LoginCredentials.email c) u' = true → u' = u) →
  storage d !! password_key (member "id" u) ≠ Some (LoginCredentials.password c) →
  let r := login c st d in
  (∃ e, result r = Throw e ∧ InvalidCredentialError e) ∧
  storage (device r) = storage d ∧
  faults (device r) = faults d ∧
  isAuthenticated (local r) = isAuthenticated st ∧
  user (local r) = user st.
Proof.
  intros Hstored Hwf Hin Hu Huniq Hpw. cbv zeta.
  rewrite (AuthFacts.login_run c st d users u)
    by (done || by apply AuthFacts.find_registered_unique).
  cbv zeta.
  replace (password_differs _ _) with true.
  - split; [by eexists|done].
  - unfold password_differs.
    destruct (storage d !! password_key (member "id" u)) as [s|]; [|done].
    destruct (String.eqb_spec s (LoginCredentials.password c)) as [->|]; done.
Qed.


End session_claims.


(** A registration whose confirmation differs. *)
Lemma register_rejects_invalid_password_witness :
  let c := {| RegisterCredentials.name := "Ann";
              RegisterCredentials.email := "ann@x.com";
              RegisterCredentials.password := "secret1";
              RegisterCredentials.confirmPassword := "secret2" |} in
  let r := AuthContext.register (H := compact_json) c AuthContext.initialState phone in
  (∃ e, result r = Throw e ∧ ValidationError e) ∧
  storage (device r) = storage phone ∧
  faults (device r) = faults phone ∧
  isAuthenticated (local r) = false ∧
  user (local r) = JNull.
Proof.
  apply (register_rejects_invalid_password (H := compact_json)
           {| RegisterCredentials.name := "Ann";
              RegisterCredentials.email := "ann@x.com";
              RegisterCredentials.password := "secret1";
              RegisterCredentials.confirmPassword := "secret2" |}
           AuthContext.initialState phone).
  left. simpl. discriminate.
Defined.


(** Ann's address with the password [secret2]. *)
Lemma login_rejects_wrong_password_witness :
  let c := {| LoginCredentials.email := "ann@x.com";
              LoginCredentials.password := "secret2" |} in
  let r := AuthContext.login (H := compact_json) c
             AuthContext.initialState phone_with_ann in
  (∃ e, result r = Throw e ∧ InvalidCredentialError e) ∧
  storage (device r) = storage phone_with_ann ∧
  faults (device r) = faults phone_with_ann ∧
  isAuthenticated (local r) = false ∧
  user (local r) = JNull.
Proof.
  apply (login_rejects_wrong_password (H := compact_json)
           {| LoginCredentials.email := "ann@x.com";
              LoginCredentials.password := "secret2" |}
           AuthContext.initialState phone_with_ann [ann_user] ann_user).
  - vm_compute. reflexivity.
  - repeat constructor. by eexists.
  - apply list_elem_of_here.
  - vm_compute. reflexivity.
  - intros u' Hin _. apply elem_of_cons in Hin as [->|Hin]; [reflexivity|].
    by apply elem_of_nil in Hin.
  - vm_compute. discriminate.
Defined.


(** ** Watchlist store *)

Definition movie5 : json := JObj [("id", JNum 5); ("title", JStr "X")].

Definition show5 : json := JObj [("id", JNum 5); ("name", JStr "Y")].

Definition fresh_screen : WatchlistScreen.State :=
  {| WatchlistScreen.watchlist := [];
     WatchlistScreen.loading := true;
     WatchlistScreen.refreshing := false;
     WatchlistScreen.activeWatchlistType := WatchlistScreen.all |}.

(** A device whose two collections both have an entry with id 5. *)
Definition phone_with_both : Device :=
  {| storage := <["tvWatchlist" := Compact.stringify (JArr [show5])]>
                  (<["watchlist" := Compact.stringify (JArr [movie5])]> ∅);
     display := []; faults := None;
     clock := 1700000000000; clock_iso := "2023-11-14T22:13:20.000Z" |}.

(** A device whose movie collection is not JSON. *)
Definition phone_corrupt : Device :=
  {| storage := <["watchlist" := "not json"]> ∅;
     display := []; faults := None;
     clock := 1700000000000; clock_iso := "2023-11-14T22:13:20.000Z" |}.


Section watchlist_claims.
Context `{JSONCodec} `{JSString}.


End watchlist_claims.


(** The list screen showing one entry, loaded earlier. *)
Definition stale_screen : WatchlistScreen.State :=
  {| WatchlistScreen.watchlist := [with_media_type "movie" movie5];
     WatchlistScreen.loading := false;
     WatchlistScreen.refreshing := false;
     WatchlistScreen.activeWatchlistType := WatchlistScreen.all |}.

(** The detail screen of movie 5, before its membership check. *)
Definition detail5 : MovieDetailScreen.State :=
  {| MovieDetailScreen.id := 5;
     MovieDetailScreen.movie := movie5;
     MovieDetailScreen.isInWatchlist := false |}.

(** A card of movie 5 in a list of the home screen, before its check. *)
Definition card5 : MovieCard.State :=
  {| MovieCard.movie := movie5;
     MovieCard.isLongPressed := false;
     MovieCard.isInWatchlist := false |}.

Definition fresh_profile : ProfileScreen.State :=
  {| ProfileScreen.watchlistStats := ProfileScreen.no_stats;
     ProfileScreen.loading := true |}.

(** C2.  On a device whose [watchlist] key holds a text that is not JSON,
    the list read [loadWatchlist] and the membership read
    [checkWatchlistStatus] end normally but repair nothing: the key still
    holds the corrupt text afterwards, a list already on screen is kept
    rather than emptied, and a later toggle fails.  Only the profile
    screen's read removes the corrupt key. *)
Theorem corrupt_watchlist_is_not_repaired :
  let first := WatchlistScreen.loadWatchlist (H := compact_json) fresh_screen phone_corrupt in
  let again := WatchlistScreen.loadWatchlist (H := compact_json) stale_screen phone_corrupt in
  let check := MovieDetailScreen.checkWatchlistStatus (H := compact_json) detail5 phone_corrupt in
  let toggle := MovieDetailScreen.toggleWatchlist (H := compact_json) detail5 phone_corrupt in
  let profile := ProfileScreen.loadProfileData (H := compact_json) fresh_profile phone_corrupt in
  JSON_parse (JSONCodec := compact_json) "not json" = None ∧
  (result first = Ok tt ∧ WatchlistScreen.watchlist (local first) = [] ∧
   storage (device first) !! "watchlist" = Some "not json") ∧
  (result again = Ok tt ∧
   WatchlistScreen.watchlist (local again) = [with_media_type "movie" movie5] ∧
   storage (device again) !! "watchlist" = Some "not json") ∧
  (result check = Ok tt ∧ storage (device check) !! "watchlist" = Some "not json") ∧
  (display (device toggle) = [Toast "error" "Error" "Failed to update watchlist"] ∧
   storage (device toggle) !! "watchlist" = Some "not json") ∧
  (result profile = Ok tt ∧ storage (device profile) !! "watchlist" = None).
Proof.
  assert (JSON_parse (JSONCodec := compact_json) "not json" = None) as Hparse
    by reflexivity.
  assert (storage phone_corrupt !! "watchlist" = Some "not json") as Htext
    by reflexivity.
  cbv zeta. split; [exact Hparse|].
  rewrite !(WatchlistFacts.loadWatchlist_corrupt _ phone_corrupt "watchlist" "not json")
    by (done || by left).
  rewrite (WatchlistFacts.MovieDetailScreen_check_corrupt _ phone_corrupt "not json")
    by done.
  rewrite (WatchlistFacts.MovieDetailScreen_toggle_corrupt _ phone_corrupt "not json")
    by done.
  rewrite (WatchlistFacts.loadProfileData_corrupt _ phone_corrupt "not json") by done.
  by repeat split.
Qed.

(** C9.  Two components showing the same movie each keep their own
    membership flag, set when they are mounted.  The home screen's card of
    movie 5 and then the detail screen of movie 5 are mounted on an empty
    watchlist; the detail screen's toggle adds the movie; the card's flag
    still says "absent", so its toggle adds the movie a second time: the
    collection holds two entries with id 5. *)
Theorem stale_flag_inserts_duplicate :
  let card := MovieCard.checkWatchlistStatus (H := compact_json) card5 phone in
  let detail := MovieDetailScreen.checkWatchlistStatus (H := compact_json) detail5
                  (device card) in
  let first := MovieDetailScreen.toggleWatchlist (H := compact_json) (local detail)
                 (device detail) in
  let second := MovieCard.toggleWatchlist (H := compact_json) (local card)
                  (device first) in
  stored_list (H := compact_json) (device first) "watchlist" [movie5] ∧
  MovieCard.isInWatchlist (local card) = false ∧
  stored_list (H := compact_json) (device second) "watchlist"
    [movie5; with_media_type "movie" movie5] ∧
  map (member "id") [movie5; with_media_type "movie" movie5] =
    [Some (JNum 5); Some (JNum 5)].
Proof. vm_compute. by repeat split. Qed.

(** The movie collection as a card of movie 5 has saved it. *)
Definition phone_with_card_entry : Device :=
  {| storage := <["watchlist" :=
                    Compact.stringify (JArr [with_media_type "movie" movie5])]> ∅;
     display := []; faults := None;
     clock := 1700000000000; clock_iso := "2023-11-14T22:13:20.000Z" |}.

(** The detail screen of movie 5 after its check found the movie listed. *)
Definition detail5_listed : MovieDetailScreen.State :=
  {| MovieDetailScreen.id := 5;
     MovieDetailScreen.movie := movie5;
     MovieDetailScreen.isInWatchlist := true |}.

Definition tv5 : TVShowDetailScreen.State :=
  {| TVShowDetailScreen.id := 5;
     TVShowDetailScreen.tvShow := show5;
     TVShowDetailScreen.isInWatchlist := false |}.

(** C3, as stated, fails: the collection holds the entry a card saved for
    movie 5, the detail screen's flag agrees with it; after two toggles
    the flag is back but the collection holds the detail screen's own
    object, which is not the entry that was stored. *)
Lemma toggle_twice_replaces_entry :
  let r1 := MovieDetailScreen.toggleWatchlist (H := compact_json) detail5_listed
              phone_with_card_entry in
  let r2 := MovieDetailScreen.toggleWatchlist (H := compact_json) (local r1) (device r1) in
  stored_list (H := compact_json) phone_with_card_entry "watchlist"
    [with_media_type "movie" movie5] ∧
  MovieDetailScreen.isInWatchlist (local r2) = true ∧
  stored_list (H := compact_json) (device r2) "watchlist" [movie5] ∧
  ¬ [movie5] ≡ₚ [with_media_type "movie" movie5].
Proof.
  split_and!; [by vm_compute..|].
  intros Hperm. apply Permutation_singleton_l in Hperm. discriminate.
Qed.

Section toggle_claims.
Context `{JSONCodec} `{JSString}.

(** C3, amended.  On a device whose writes succeed, for a collection
    without [null] entries, a movie (or TV show) with a numeric id and a
    membership flag that agrees with the collection: two toggles in a row
    restore the flag and the membership of the id, and leave the entries
    with other ids as they were, in their order.  If the item was absent
    the collection is restored exactly; if it was present, the entries
    with its id are replaced by one entry at the end: the component's own
    object (tagged [media_type: "tv"] on the TV screen). *)
Theorem toggle_twice_restores_membership
    (m : MovieDetailScreen.State) (t : TVShowDetailScreen.State) (d : Device)
    (movies shows : list json) (i j : Z) :
  faults d = None →
  stored_list d "watchlist" movies →
  stored_list d "tvWatchlist" shows →
  Forall (λ x, x ≠ JNull) movies →
  Forall (λ x, x ≠ JNull) shows →
  member "id" (MovieDetailScreen.movie m) = Some (JNum i) →
  member "id" (TVShowDetailScreen.tvShow t) = Some (JNum j) →
  MovieDetailScreen.isInWatchlist m = listed (MovieDetailScreen.movie m) movies →
  TVShowDetailScreen.isInWatchlist t = listed (TVShowDetailScreen.tvShow t) shows →
  let m1 := MovieDetailScreen.toggleWatchlist m d in
  let m2 := MovieDetailScreen.toggleWatchlist (local m1) (device m1) in
  let t1 := TVShowDetailScreen.toggleWatchlist t d in
  let t2 := TVShowDetailScreen.toggleWatchlist (local t1) (device t1) in
  (MovieDetailScreen.isInWatchlist (local m2) = MovieDetailScreen.isInWatchlist m ∧
   ∃ movies',
     stored_list (device m2) "watchlist" movies' ∧
     listed (MovieDetailScreen.movie m) movies' =
       listed (MovieDetailScreen.movie m) movies ∧
     others (MovieDetailScreen.movie m) movies' =
       others (MovieDetailScreen.movie m) movies ∧
     (MovieDetailScreen.isInWatchlist m = false → movies' = movies) ∧
     (MovieDetailScreen.isInWatchlist m = true →
      movies' = others (MovieDetailScreen.movie m) movies ++
                [MovieDetailScreen.movie m])) ∧
  (TVShowDetailScreen.isInWatchlist (local t2) = TVShowDetailScreen.isInWatchlist t ∧
   ∃ shows',
     stored_list (device t2) "tvWatchlist" shows' ∧
     listed (TVShowDetailScreen.tvShow t) shows' =
       listed (TVShowDetailScreen.tvShow t) shows ∧
     others (TVShowDetailScreen.tvShow t) shows' =
       others (TVShowDetailScreen.tvShow t) shows ∧
     (TVShowDetailScreen.isInWatchlist t = false → shows' = shows) ∧
     (TVShowDetailScreen.isInWatchlist t = true →
      shows' = others (TVShowDetailScreen.tvShow t) shows ++
               [with_media_type "tv" (TVShowDetailScreen.tvShow t)])).
Proof.
  intros Hfaults Hmovies Hshows Hnm Hns Hi Hj Hm Ht.
  destruct (WatchlistFacts.MovieDetailScreen_toggle_twice m d movies i)
    as (_ & _ & _ & Hflag & Hstored); try done.
  destruct (WatchlistFacts.TVShowDetailScreen_toggle_twice t d shows j)
    as (_ & _ & _ & Hflag' & Hstored'); try done.
  cbv zeta. split.
  - split; [done|]. eexists. split; [exact Hstored|]. split_and!.
    + apply WatchlistFacts.toggled_twice_listed; [done|]. by eapply has_id_of_self.
    + apply WatchlistFacts.toggled_twice_others. by eapply has_id_of_self.
    + unfold WatchlistFacts.toggled_twice. by intros ->.
    + unfold WatchlistFacts.toggled_twice. by intros ->.
  - split; [done|]. eexists. split; [exact Hstored'|]. split_and!.
    + apply WatchlistFacts.toggled_twice_listed; [done|]. by eapply has_id_of_tagged.
    + apply WatchlistFacts.toggled_twice_others. by eapply has_id_of_tagged.
    + unfold WatchlistFacts.toggled_twice. by intros ->.
    + unfold WatchlistFacts.toggled_twice. by intros ->.
Qed.

End toggle_claims.

(** Two toggles for movie 5 (listed) and for TV show 5 (not listed). *)
Lemma toggle_twice_restores_membership_witness :
  let d := phone_with_card_entry in
  let m1 := MovieDetailScreen.toggleWatchlist (H := compact_json) detail5_listed d in
  let m2 := MovieDetailScreen.toggleWatchlist (H := compact_json) (local m1) (device m1) in
  let t1 := TVShowDetailScreen.toggleWatchlist (H := compact_json) tv5 d in
  let t2 := TVShowDetailScreen.toggleWatchlist (H := compact_json) (local t1) (device t1) in
  (MovieDetailScreen.isInWatchlist (local m2) = true ∧
   ∃ movies',
     stored_list (H := compact_json) (device m2) "watchlist" movies' ∧
     listed movie5 movies' = listed movie5 [with_media_type "movie" movie5] ∧
     others movie5 movies' = others movie5 [with_media_type "movie" movie5] ∧
     (true = false → movies' = [with_media_type "movie" movie5]) ∧
     (true = true →
      movies' = others movie5 [with_media_type "movie" movie5] ++ [movie5])) ∧
  (TVShowDetailScreen.isInWatchlist (local t2) = false ∧
   ∃ shows',
     stored_list (H := compact_json) (device t2) "tvWatchlist" shows' ∧
     listed show5 shows' = listed show5 [] ∧
     others show5 shows' = others show5 [] ∧
     (false = false → shows' = []) ∧
     (false = true → shows' = others show5 [] ++ [with_media_type "tv" show5])).
Proof.
  apply (toggle_twice_restores_membership (H := compact_json) detail5_listed tv5
           phone_with_card_entry [with_media_type "movie" movie5] [] 5 5).
  - reflexivity.
  - vm_compute. reflexivity.
  - vm_compute. reflexivity.
  - repeat constructor. discriminate.
  - constructor.
  - reflexivity.
  - reflexivity.
  - vm_compute. reflexivity.
  - reflexivity.
Defined.

(** ** Storage-write failures *)

(** [phone], with the write after the next [n] ones rejected. *)
Definition phone_failing (n : nat) : Device :=
  {| storage := ∅; display := []; faults := Some n;
     clock := 1700000000000; clock_iso := "2023-11-14T22:13:20.000Z" |}.



Section write_plans.
Context `{JSONCodec} `{JSString}.



End write_plans.


Section write_failure_claims.
Context `{JSONCodec} `{JSString}.
Import AuthContext.


End write_failure_claims.

(** Ann's device, with the write after the next [n] ones rejected. *)
Definition phone_with_ann_failing (n : nat) : Device :=
  with_storage phone_with_ann (storage phone_with_ann) (Some n).

(** The session after Ann has registered. *)
Definition ann_session : AuthState :=
  local (AuthContext.register (H := compact_json) ann AuthContext.initialState phone).

Definition rename : json := JObj [("name", JStr "Anna")].


(** * Further properties of the code *)

(** ** Session store: start-up *)

(** The callback [u => u.email === 'demo@movieflix.com'] on an entry that
    is not [null]. *)
Definition is_demo (u : json) : bool :=
  strict_eq (member "email" u) (Some (JStr "demo@movieflix.com")).

(** The account [createDemoUserIfNeeded] builds on device [d]. *)
Definition demo_user (d : Device) : json :=
  JObj [("id", JStr ("demo-user-" +:+ Number_toString (clock d)));
        ("email", JStr "demo@movieflix.com");
        ("name", JStr "Demo User");
        ("createdAt", JStr (clock_iso d));
        ("preferences", AuthContext.default_preferences)].

Definition demo_key (d : Device) : string :=
  AuthContext.password_key (Some (JStr ("demo-user-" +:+ Number_toString (clock d)))).

Module StartFacts.
Import AuthContext.

Lemma is_demo_user_pure users :
  Forall (λ u, u ≠ JNull) users →
  Forall (λ u, is_demo_user u = Ok (is_demo u)) users.
Proof.
  intros Hobj. eapply List.Forall_impl; [|exact Hobj].
  intros u Hu. unfold is_demo_user. by rewrite prop_not_null.
Qed.

Lemma is_demo_truthy u : is_demo u = true → truthy (Some u) = true.
Proof. by destruct u. Qed.

Section runs.
Context `{JSONCodec} `{JSString}.

Lemma is_demo_registered u :
  is_demo u = true → registered_as "demo@movieflix.com" u = true.
Proof.
  unfold is_demo, registered_as, email_of.
  destruct (member "email" u) as [[| | |s| |]|]; try done.
  cbn [strict_eq]. intros ->%String.eqb_eq. apply String.eqb_refl.
Qed.

(** What [checkAuthSession] does with the session slot, whatever it holds:
    the slot is only read. *)
Lemma checkAuthSession_run st d :
  checkAuthSession st d =
  {| result := Ok tt;
     local :=
       match storage d !! AUTH_STORAGE_KEY with
       | Some text =>
           if nonempty text then
             match JSON_parse text with
             | Some JNull | None => authReducer st (SET_LOADING false)
             | Some user =>
                 authReducer (authReducer st (LOGIN_SUCCESS user)) (SET_LOADING false)
             end
           else authReducer st (SET_LOADING false)
       | None => authReducer st (SET_LOADING false)
       end;
     device := d |}.
Proof.
  unfold checkAuthSession. exec.
  destruct (storage d !! AUTH_STORAGE_KEY) as [text|]; [|done].
  cbn [present]. destruct (nonempty text); [|done]. exec.
  unfold JSON_parse_or_throw. destruct (JSON_parse text) as [user|]; [|done].
  exec. by destruct user.
Qed.

(** [createDemoUserIfNeeded] swallows every failure, never touches the
    component state and never writes the session slot. *)
Lemma createDemoUserIfNeeded_frame (st : AuthState) d :
  let r := createDemoUserIfNeeded st d in
  result r = Ok tt ∧ local r = st ∧
  storage (device r) !! AUTH_STORAGE_KEY = storage d !! AUTH_STORAGE_KEY.
Proof.
  unfold createDemoUserIfNeeded. exec.
  destruct (parse_or_empty (storage d !! USERS_STORAGE_KEY)) as [users|e]; [|done].
  exec. destruct (Array_find is_demo_user users) as [demoUser|e]; [|done].
  exec. destruct (truthy demoUser); [done|]. exec.
  destruct (Array_push users _) as [users'|e]; [|done]. exec.
  destruct (faults d) as [[|n]|]; exec; try done.
  - destruct n; exec; split_and!; try done; by simplify_map_eq.
  - split_and!; try done; by simplify_map_eq.
Qed.

Lemma initializeApp_run st d :
  initializeApp st d = checkAuthSession st (device (createDemoUserIfNeeded st d)).
Proof.
  pose proof (createDemoUserIfNeeded_frame st d) as (Hr & Hl & _).
  unfold initializeApp. exec.
  destruct (createDemoUserIfNeeded st d) as [res st' d'].
  cbn [result local device] in *. subst res st'.
  rewrite checkAuthSession_run. by exec.
Qed.

(** The registry with the demo account, and the writes that put it
    there. *)
Lemma createDemoUserIfNeeded_run st d users :
  stored_list d USERS_STORAGE_KEY users →
  Forall (λ u, u ≠ JNull) users →
  createDemoUserIfNeeded st d =
  let registry :=
    <[USERS_STORAGE_KEY := JSON_stringify (JArr (users ++ [demo_user d]))]> (storage d) in
  let seeded := <[demo_key d := "demo123"]> registry in
  match List.find is_demo users with
  | Some _ => {| result := Ok tt; local := st; device := d |}
  | None =>
      match faults d with
      | Some 0 =>
          {| result := Ok tt; local := st;
             device := with_storage d (storage d) None |}
      | Some 1 =>
          {| result := Ok tt; local := st;
             device := with_storage d registry None |}
      | Some (S (S n)) =>
          {| result := Ok tt; local := st;
             device := with_storage d seeded (Some n) |}
      | None =>
          {| result := Ok tt; local := st;
             device := with_storage d seeded None |}
      end
  end.
Proof.
  intros Hstored Hobj. unfold createDemoUserIfNeeded. exec.
  rewrite (parse_or_empty_stored _ _ _ Hstored). exec.
  rewrite Array_find_arr, (find_first_pure _ _ _ (is_demo_user_pure _ Hobj)). exec.
  destruct (List.find is_demo users) as [u|] eqn:Hfind.
  - apply find_some in Hfind as [_ Hu]. by rewrite (is_demo_truthy _ Hu).
  - exec. rewrite Array_push_arr. exec.
    destruct (faults d) as [[|[|n]]|]; by exec.
Qed.

End runs.
End StartFacts.

(** A device whose session slot holds a text that is not JSON. *)
Definition phone_corrupt_session : Device :=
  {| storage := <["auth_user" := "{oops"]> ∅;
     display := []; faults := None;
     clock := 1700000000000; clock_iso := "2023-11-14T22:13:20.000Z" |}.

(** [phone_with_ann] one second later. *)
Definition phone_later : Device :=
  {| storage := storage phone_with_ann; display := []; faults := None;
     clock := 1700000001000; clock_iso := "2023-11-14T22:13:21.000Z" |}.

Section startup.
Context `{JSONCodec} `{JSString}.
Import AuthContext.

(** X1.  Start-up always completes: whatever the storage holds and whether
    or not its writes fail, [initializeApp] ends normally with the loading
    flag cleared, and it leaves the session slot as it found it. *)
Theorem initializeApp_always_completes (st : AuthState) (d : Device) :
  let r := initializeApp st d in
  result r = Ok tt ∧ isLoading (local r) = false ∧
  storage (device r) !! AUTH_STORAGE_KEY = storage d !! AUTH_STORAGE_KEY.
Proof.
  cbv zeta. rewrite StartFacts.initializeApp_run, StartFacts.checkAuthSession_run.
  pose proof (StartFacts.createDemoUserIfNeeded_frame st d) as (_ & _ & Hslot).
  cbn [result local device]. rewrite Hslot. split_and!; try done.
  destruct (storage d !! AUTH_STORAGE_KEY) as [text|]; [|done].
  destruct (nonempty text); [|done].
  by destruct (JSON_parse text) as [[]|].
Qed.

(** X2.  A session slot that was written with [JSON.stringify(user)] for a
    user that is not [null] is restored at start-up: from the initial
    state, [initializeApp] ends authenticated with exactly that user. *)
Theorem initializeApp_restores_session (d : Device) (u : json) :
  u ≠ JNull →
  storage d !! AUTH_STORAGE_KEY = Some (JSON_stringify u) →
  let r := initializeApp initialState d in
  result r = Ok tt ∧
  local r = {| isAuthenticated := true; user := u; isLoading := false |}.
Proof.
  intros Hu Hslot. cbv zeta.
  rewrite StartFacts.initializeApp_run, StartFacts.checkAuthSession_run.
  pose proof (StartFacts.createDemoUserIfNeeded_frame initialState d) as (_ & _ & Hkeep).
  cbn [result local device]. rewrite Hkeep, Hslot, nonempty_stringify.
  rewrite JSON_parse_stringify. by destruct u.
Qed.

(** X3.  A session slot that is absent, or holds a text that does not
    parse, or parses to [null], never fails start-up and never
    authenticates: the authenticated flag and the user stay what they
    were and the slot is not repaired. *)
Theorem initializeApp_ignores_unreadable_session (st : AuthState) (d : Device) :
  (∀ text u, storage d !! AUTH_STORAGE_KEY = Some text →
             JSON_parse text = Some u → u = JNull) →
  let r := initializeApp st d in
  result r = Ok tt ∧
  local r = {| isAuthenticated := isAuthenticated st; user := user st;
               isLoading := false |} ∧
  storage (device r) !! AUTH_STORAGE_KEY = storage d !! AUTH_STORAGE_KEY.
Proof.
  intros Hbad. cbv zeta.
  rewrite StartFacts.initializeApp_run, StartFacts.checkAuthSession_run.
  pose proof (StartFacts.createDemoUserIfNeeded_frame st d) as (_ & _ & Hkeep).
  cbn [result local device]. rewrite Hkeep. split_and!; try done.
  destruct (storage d !! AUTH_STORAGE_KEY) as [text|]; [|done].
  destruct (nonempty text); [|done].
  destruct (JSON_parse text) as [u|] eqn:Hparse; [|done].
  by rewrite (Hbad text u eq_refl Hparse).
Qed.

End startup.

(** Ann's session after a restart of the application. *)
Lemma initializeApp_restores_session_witness :
  let r := AuthContext.initializeApp (H := compact_json)
             AuthContext.initialState phone_with_ann in
  result r = Ok tt ∧
  local r = {| isAuthenticated := true; user := ann_user; isLoading := false |}.
Proof.
  apply (initializeApp_restores_session (H := compact_json) phone_with_ann ann_user).
  - discriminate.
  - vm_compute. reflexivity.
Defined.

(** A start on the device whose session slot is not JSON. *)
Lemma initializeApp_ignores_unreadable_session_witness :
  let r := AuthContext.initializeApp (H := compact_json)
             AuthContext.initialState phone_corrupt_session in
  result r = Ok tt ∧
  local r = {| isAuthenticated := false; user := JNull; isLoading := false |} ∧
  storage (device r) !! AuthContext.AUTH_STORAGE_KEY =
    storage phone_corrupt_session !! AuthContext.AUTH_STORAGE_KEY.
Proof.
  apply (initializeApp_ignores_unreadable_session (H := compact_json)
           AuthContext.initialState phone_corrupt_session).
  intros text u Hslot. vm_compute in Hslot.
  injection Hslot as <-. vm_compute. discriminate.
Defined.

(** ** Session store: the demo account *)

Section demo_account.
Context `{JSONCodec} `{JSString}.
Import AuthContext.

(** X4.  The demo account is created once.  On a device whose writes
    succeed, [createDemoUserIfNeeded] leaves a registry that has an entry
    under the demo address and at most one entry more than before; run
    again on that storage, at any later time and in any state, it writes
    nothing. *)
Theorem createDemoUserIfNeeded_once (st st' : AuthState) (d d' : Device)
    (users : list json) :
  faults d = None →
  stored_list d USERS_STORAGE_KEY users →
  Forall (λ u, u ≠ JNull) users →
  storage d' = storage (device (createDemoUserIfNeeded st d)) →
  (∃ users' u, stored_list d' USERS_STORAGE_KEY users' ∧
               u ∈ users' ∧ is_demo u = true ∧
               (length users' ≤ S (length users))%nat) ∧
  createDemoUserIfNeeded st' d' = {| result := Ok tt; local := st'; device := d' |}.
Proof.
  intros Hfaults Hstored Hobj Hsame.
  rewrite (StartFacts.createDemoUserIfNeeded_run st d users Hstored Hobj) in Hsame.
  cbv zeta in Hsame. rewrite Hfaults in Hsame.
  assert (∃ users' u, stored_list d' USERS_STORAGE_KEY users' ∧
            Forall (λ u, u ≠ JNull) users' ∧
            u ∈ users' ∧ is_demo u = true ∧
            (length users' ≤ S (length users))%nat) as (users' & u & Hs' & Hobj' & Hin & Hu & Hlen).
  { destruct (List.find is_demo users) as [u|] eqn:Hfind.
    - exists users, u. apply find_some in Hfind as [Hin Hu].
      split_and!; try done.
      + unfold stored_list. rewrite Hsame. exact Hstored.
      + by apply list_elem_of_In.
      + lia.
    - exists (users ++ [demo_user d]), (demo_user d). split_and!.
      + apply stored_list_written. rewrite Hsame. cbn [device storage with_storage].
        rewrite lookup_insert_ne, lookup_insert_eq; [done|].
        apply (AuthFacts.password_key_fresh _).
      + apply Forall_app. split; [done|]. by repeat constructor.
      + apply elem_of_app. right. apply list_elem_of_here.
      + reflexivity.
      + rewrite length_app. simpl. lia. }
  split; [by exists users', u|].
  rewrite (StartFacts.createDemoUserIfNeeded_run st' d' users' Hs' Hobj').
  cbv zeta. destruct (List.find is_demo users') eqn:Hfind; [done|].
  apply list_elem_of_In in Hin.
  by rewrite (find_none _ _ Hfind u Hin) in Hu.
Qed.

(** X5.  After a start on a device whose writes succeed and whose registry
    has no entry under the demo address, a login with
    [demo@movieflix.com] and [demo123] succeeds and the session user is
    the demo account that the start created. *)
Theorem demo_account_can_log_in (st : AuthState) (d : Device) (users : list json) :
  faults d = None →
  stored_list d USERS_STORAGE_KEY users →
  well_formed users →
  Forall (λ u, registered_as "demo@movieflix.com" u = false) users →
  let r0 := initializeApp st d in
  let r := login {| LoginCredentials.email := "demo@movieflix.com";
                    LoginCredentials.password := "demo123" |}
             (local r0) (device r0) in
  result r = Ok tt ∧ isAuthenticated (local r) = true ∧
  user (local r) = demo_user d.
Proof.
  intros Hfaults Hstored Hwf Hnone. cbv zeta.
  assert (Forall (λ u, u ≠ JNull) users) as Hobj.
  { eapply List.Forall_impl; [|exact Hwf]. intros u [e He] ->. discriminate. }
  assert (List.find is_demo users = None) as Hfind.
  { destruct (List.find is_demo users) as [u|] eqn:Hfind; [|done].
    apply find_some in Hfind as [Hin Hu].
    eapply List.Forall_forall in Hnone; [|exact Hin].
    by rewrite (StartFacts.is_demo_registered _ Hu) in Hnone. }
  rewrite StartFacts.initializeApp_run, StartFacts.checkAuthSession_run.
  cbn [result local device].
  rewrite (StartFacts.createDemoUserIfNeeded_run st d users Hstored Hobj).
  cbv zeta. rewrite Hfind, Hfaults. cbn [device].
  set (st0 := match _ with Some _ => _ | None => _ end).
  set (d0 := with_storage d _ None).
  assert (stored_list d0 USERS_STORAGE_KEY (users ++ [demo_user d])) as Hstored0.
  { apply stored_list_written. unfold d0. cbn [storage with_storage].
    rewrite lookup_insert_ne, lookup_insert_eq; [done|].
    apply (AuthFacts.password_key_fresh _). }
  assert (well_formed (users ++ [demo_user d])) as Hwf0.
  { apply Forall_app. split; [done|]. repeat constructor. by eexists. }
  rewrite (AuthFacts.login_run _ st0 d0 _ (demo_user d) Hstored0 Hwf0).
  2: { apply AuthFacts.find_after_unregistered; [done|]. apply String.eqb_refl. }
  cbv zeta.
  replace (storage d0 !! password_key (member "id" (demo_user d)))
    with (Some "demo123"%string).
  2: { unfold d0. cbn [storage with_storage]. symmetry. apply lookup_insert_eq. }
  by cbn.
Qed.

End demo_account.

(** The first start of the application, and a second one a second later. *)
Lemma createDemoUserIfNeeded_once_witness :
  let d' := device (AuthContext.createDemoUserIfNeeded (H := compact_json)
                      AuthContext.initialState phone) in
  (∃ users' u, stored_list (H := compact_json) d' AuthContext.USERS_STORAGE_KEY users' ∧
               u ∈ users' ∧ is_demo u = true ∧
               (length users' ≤ 1)%nat) ∧
  AuthContext.createDemoUserIfNeeded (H := compact_json) AuthContext.initialState d' =
  {| result := Ok tt; local := AuthContext.initialState; device := d' |}.
Proof.
  apply (createDemoUserIfNeeded_once (H := compact_json)
           AuthContext.initialState AuthContext.initialState phone
           (device (AuthContext.createDemoUserIfNeeded (H := compact_json)
                      AuthContext.initialState phone)) []).
  - reflexivity.
  - vm_compute. reflexivity.
  - constructor.
  - reflexivity.
Defined.

(** The first start on an empty device, then the demo login. *)
Lemma demo_account_can_log_in_witness :
  let r0 := AuthContext.initializeApp (H := compact_json)
              AuthContext.initialState phone in
  let r := AuthContext.login (H := compact_json)
             {| LoginCredentials.email := "demo@movieflix.com";
                LoginCredentials.password := "demo123" |}
             (local r0) (device r0) in
  result r = Ok tt ∧ isAuthenticated (local r) = true ∧
  user (local r) = demo_user phone.
Proof.
  apply (demo_account_can_log_in (H := compact_json)
           AuthContext.initialState phone []).
  - reflexivity.
  - vm_compute. reflexivity.
  - constructor.
  - constructor.
Defined.

(** ** Session store: the operations *)

(** The object literal [{...a, ...b}] of two objects: a property of [b]
    wins, any other property of [a] is kept. *)
Lemma lookup_last_spread2 k fs gs :
  lookup_last k (spread [JObj fs; JObj gs]) =
  match lookup_last k gs with Some v => Some v | None => lookup_last k fs end.
Proof.
  unfold spread. simpl. rewrite app_nil_r, lookup_last_assign_all, lookup_last_app.
  by destruct (lookup_last k gs), (lookup_last k fs).
Qed.

Lemma index_of_lookup q l i :
  index_of q l = Some i → ∃ x, l !! i = Some x ∧ q x = true.
Proof.
  revert i. induction l as [|y r IH]; intros i; [done|]. simpl.
  destruct (q y) eqn:Hy.
  - intros [= <-]. by exists y.
  - destruct (index_of q r) as [j|]; [|done]. intros [= <-].
    destruct (IH j eq_refl) as (x & Hx & Hq). by exists x.
Qed.

Section session_operations.
Context `{JSONCodec} `{JSString}.
Import AuthContext.


(** X7.  When the removal succeeds, [logout] removes the session slot and
    nothing else: every other key (the registry, the credentials, the
    watchlists) holds what it held, the session is unauthenticated with no
    user, and a restart of the application stays unauthenticated. *)
Theorem logout_removes_only_the_session (st : AuthState) (d : Device) :
  faults d ≠ Some 0 →
  let r := logout st d in
  let r' := initializeApp initialState (device r) in
  result r = Ok tt ∧
  local r = {| isAuthenticated := false; user := JNull; isLoading := false |} ∧
  storage (device r) !! AUTH_STORAGE_KEY = None ∧
  (∀ k, k ≠ AUTH_STORAGE_KEY → storage (device r) !! k = storage d !! k) ∧
  display (device r) = display d ∧
  isAuthenticated (local r') = false.
Proof.
  intros Hfaults. cbv zeta.
  assert (∀ d', storage d' !! AUTH_STORAGE_KEY = None →
            isAuthenticated (local (initializeApp initialState d')) = false) as Hrestart.
  { intros d' Hslot.
    rewrite StartFacts.initializeApp_run, StartFacts.checkAuthSession_run.
    pose proof (StartFacts.createDemoUserIfNeeded_frame initialState d') as (_ & _ & Hkeep).
    cbn [local]. by rewrite Hkeep, Hslot. }
  rewrite AuthFacts.logout_run.
  destruct (faults d) as [[|n]|]; [done| |];
    cbn [result local device storage display with_storage];
    (split_and!; [done|done|apply lookup_delete_eq
                 |by intros k Hk; apply lookup_delete_ne|done
                 |apply Hrestart; apply lookup_delete_eq]).
Qed.

(** X8.  When the removal is rejected, [logout] does not throw and does
    not sign out: the state and the storage are what they were and the
    alert "Failed to logout" is shown. *)
Theorem logout_failure_keeps_session (st : AuthState) (d : Device) :
  faults d = Some 0 →
  let r := logout st d in
  result r = Ok tt ∧ local r = st ∧ storage (device r) = storage d ∧
  display (device r) = Alert "Error" "Failed to logout" :: display d.
Proof. intros Hfaults. cbv zeta. by rewrite AuthFacts.logout_run, Hfaults. Qed.

(** X9.  After a successful [updateUser] of a signed-in user who has an
    entry in the registry, the session slot, the registry entry at the
    user's position and the user in memory all hold the same merged
    object; the registry keeps its length and every other entry. *)
Theorem updateUser_keeps_copies_equal (userData : json) (st : AuthState)
    (d : Device) (users : list json) (i : nat) :
  truthy (Some (user st)) = true →
  faults d = None →
  stored_list d USERS_STORAGE_KEY users →
  Forall (λ u, u ≠ JNull) users →
  index_of (has_id_of (user st)) users = Some i →
  let r := updateUser userData st d in
  let merged := JObj (spread [user st; userData]) in
  result r = Ok tt ∧
  user (local r) = merged ∧
  storage (device r) !! AUTH_STORAGE_KEY = Some (JSON_stringify merged) ∧
  (∃ users', stored_list (device r) USERS_STORAGE_KEY users' ∧
             users' !! i = Some merged ∧
             length users' = length users ∧
             ∀ j, j ≠ i → users' !! j = users !! j) ∧
  isAuthenticated (local r) = isAuthenticated st.
Proof.
  intros Huser Hfaults Hstored Hobj Hindex. cbv zeta.
  rewrite (AuthFacts.updateUser_run userData st d users Huser Hstored Hobj).
  cbv zeta. rewrite Hfaults, Hindex.
  cbn [result local device storage with_storage authReducer user isAuthenticated].
  rewrite Huser. split_and!; try done.
  - by rewrite lookup_insert_ne, lookup_insert_eq.
  - exists (<[i := JObj (spread [user st; userData])]> users). split_and!.
    + apply stored_list_written. cbn [storage]. apply lookup_insert_eq.
    + apply list_lookup_insert_eq.
      destruct (index_of_lookup _ _ _ Hindex) as (x & Hx & _).
      by eapply lookup_lt_Some.
    + apply length_insert.
    + intros j Hj. by apply list_lookup_insert_ne.
Qed.

(** X10.  What a successful [updateUser] merges, whether or not the user
    has an entry in the registry: a property that the change names takes
    the change's value, every other property of the user is kept. *)
Theorem updateUser_merges_fields (fs gs : list (string * json))
    (st : AuthState) (d : Device) (users : list json) (k : string) :
  user st = JObj fs →
  faults d = None →
  stored_list d USERS_STORAGE_KEY users →
  Forall (λ u, u ≠ JNull) users →
  let r := updateUser (JObj gs) st d in
  result r = Ok tt ∧
  member k (user (local r)) =
    match member k (JObj gs) with
    | Some v => Some v
    | None => member k (JObj fs)
    end.
Proof.
  intros Huser Hfaults Hstored Hobj. cbv zeta.
  assert (truthy (Some (user st)) = true) as Htruthy by by rewrite Huser.
  rewrite (AuthFacts.updateUser_run (JObj gs) st d users Htruthy Hstored Hobj).
  cbv zeta. rewrite Hfaults.
  destruct (index_of (has_id_of (user st)) users);
    cbn [result local authReducer user]; rewrite Huser; cbn [truthy member];
    (split; [done|apply lookup_last_spread2]).
Qed.

(** X11.  Without a signed-in user [updateUser] does nothing: no write is
    attempted, nothing is shown and the state is what it was. *)
Theorem updateUser_needs_a_session (userData : json) (st : AuthState) (d : Device) :
  user st = JNull →
  updateUser userData st d = {| result := Ok tt; local := st; device := d |}.
Proof. intros Huser. apply AuthFacts.updateUser_signed_out. by rewrite Huser. Qed.

End session_operations.


(** Ann signs out. *)
Lemma logout_removes_only_the_session_witness :
  let r := AuthContext.logout ann_session phone_with_ann in
  let r' := AuthContext.initializeApp (H := compact_json)
              AuthContext.initialState (device r) in
  result r = Ok tt ∧
  local r = {| isAuthenticated := false; user := JNull; isLoading := false |} ∧
  storage (device r) !! AuthContext.AUTH_STORAGE_KEY = None ∧
  (∀ k, k ≠ AuthContext.AUTH_STORAGE_KEY →
        storage (device r) !! k = storage phone_with_ann !! k) ∧
  display (device r) = display phone_with_ann ∧
  isAuthenticated (local r') = false.
Proof.
  apply (logout_removes_only_the_session (H := compact_json)
           ann_session phone_with_ann).
  vm_compute. discriminate.
Defined.

(** Ann signs out on a device that rejects the removal. *)
Lemma logout_failure_keeps_session_witness :
  let r := AuthContext.logout ann_session (phone_with_ann_failing 0) in
  result r = Ok tt ∧ local r = ann_session ∧
  storage (device r) = storage (phone_with_ann_failing 0) ∧
  display (device r) =
    Alert "Error" "Failed to logout" :: display (phone_with_ann_failing 0).
Proof.
  apply (logout_failure_keeps_session ann_session (phone_with_ann_failing 0)).
  reflexivity.
Defined.

(** Ann changes her name. *)
Lemma updateUser_keeps_copies_equal_witness :
  let r := AuthContext.updateUser (H := compact_json) rename ann_session phone_with_ann in
  let merged := JObj (spread [user ann_session; rename]) in
  result r = Ok tt ∧
  user (local r) = merged ∧
  storage (device r) !! AuthContext.AUTH_STORAGE_KEY =
    Some (JSON_stringify (JSONCodec := compact_json) merged) ∧
  (∃ users', stored_list (H := compact_json) (device r)
               AuthContext.USERS_STORAGE_KEY users' ∧
             users' !! 0%nat = Some merged ∧
             length users' = length [ann_user] ∧
             ∀ j, j ≠ 0%nat → users' !! j = [ann_user] !! j) ∧
  isAuthenticated (local r) = isAuthenticated ann_session.
Proof.
  apply (updateUser_keeps_copies_equal (H := compact_json) rename ann_session
           phone_with_ann [ann_user] 0).
  - reflexivity.
  - reflexivity.
  - vm_compute. reflexivity.
  - repeat constructor. discriminate.
  - vm_compute. reflexivity.
Defined.

(** The [name] of Ann after the rename. *)
Lemma updateUser_merges_fields_witness :
  let r := AuthContext.updateUser (H := compact_json)
             (JObj [("name", JStr "Anna")]) ann_session phone_with_ann in
  result r = Ok tt ∧
  member "name" (user (local r)) =
    match member "name" (JObj [("name", JStr "Anna")]) with
    | Some v => Some v
    | None =>
        member "name"
          (JObj [("id", JStr "1700000000000"); ("email", JStr "ann@x.com");
                 ("name", JStr "Ann");
                 ("createdAt", JStr "2023-11-14T22:13:20.000Z");
                 ("preferences", AuthContext.default_preferences)])
    end.
Proof.
  apply (updateUser_merges_fields (H := compact_json)
           [("id", JStr "1700000000000"); ("email", JStr "ann@x.com");
            ("name", JStr "Ann");
            ("createdAt", JStr "2023-11-14T22:13:20.000Z");
            ("preferences", AuthContext.default_preferences)]
           [("name", JStr "Anna")] ann_session phone_with_ann [ann_user] "name").
  - vm_compute. reflexivity.
  - reflexivity.
  - vm_compute. reflexivity.
  - repeat constructor. discriminate.
Defined.

(** A rename before anybody has signed in. *)
Lemma updateUser_needs_a_session_witness :
  AuthContext.updateUser (H := compact_json) rename AuthContext.initialState phone =
  {| result := Ok tt; local := AuthContext.initialState; device := phone |}.
Proof.
  apply (updateUser_needs_a_session (H := compact_json) rename
           AuthContext.initialState phone).
  reflexivity.
Defined.

(** ** Session store: the state's invariant *)

(** The session is authenticated exactly when it has a user. *)
Definition consistent (st : AuthState) : Prop :=
  isAuthenticated st = truthy (Some (user st)).

Lemma find_first_found p l u : find_first p l = Ok (Some u) → p u = Ok true.
Proof.
  induction l as [|x r IH]; [done|]. simpl.
  destruct (p x) as [[]|] eqn:Hx; [|done|done].
  by intros [= <-].
Qed.

Lemma same_email_object `{JSString} email u :
  AuthContext.same_email email u = Ok true → ∃ fs, u = JObj fs.
Proof. destruct u; try done. by eexists. Qed.

Section invariant.
Context `{JSONCodec} `{JSString}.
Import AuthContext.

Lemma authReducer_consistent st a :
  consistent st →
  (∀ payload, a = LOGIN_SUCCESS payload → truthy (Some payload) = true) →
  consistent (authReducer st a).
Proof.
  unfold consistent. intros Hst Ha. destruct a as [b|payload| |payload];
    cbn [authReducer isAuthenticated user].
  - done.
  - by rewrite (Ha payload eq_refl).
  - done.
  - rewrite Hst. by destruct (truthy (Some (user st))).
Qed.

Lemma login_consistent c st d : consistent st → consistent (local (login c st d)).
Proof.
  intros Hst.
  assert (consistent (authReducer st (SET_LOADING false))) as Hfail by done.
  unfold login. exec.
  destruct (parse_or_empty (storage d !! USERS_STORAGE_KEY)) as [users|e]; [|done].
  exec.
  destruct (Array_find (same_email (LoginCredentials.email c)) users)
    as [[u|]|e] eqn:Hfind; exec; try done.
  destruct users as [| | | |l|]; try done.
  rewrite Array_find_arr in Hfind.
  apply find_first_found, same_email_object in Hfind as [fs ->]. exec.
  rewrite prop_not_null by done. exec.
  destruct (password_differs _ _); exec; [done|].
  destruct (faults d) as [[|n]|]; by exec.
Qed.

Lemma register_consistent c st d : consistent st → consistent (local (register c st d)).
Proof.
  intros Hst.
  assert (consistent (authReducer st (SET_LOADING false))) as Hfail by done.
  unfold register. exec.
  destruct (String.eqb _ _); exec; [|done].
  destruct (_ <? _)%nat; exec; [done|].
  destruct (parse_or_empty (storage d !! USERS_STORAGE_KEY)) as [users|e]; [|done].
  exec.
  destruct (Array_find (same_email (RegisterCredentials.email c)) users)
    as [[u|]|e] eqn:Hfind; exec; try done.
  - destruct users as [| | | |l|]; try done.
    rewrite Array_find_arr in Hfind.
    apply find_first_found, same_email_object in Hfind as [fs ->]. by exec.
  - destruct (Array_push users _) as [users'|e]; [|done]. exec.
    destruct (faults d) as [[|[|[|n]]]|]; by exec.
Qed.

Lemma logout_consistent st d : consistent st → consistent (local (logout st d)).
Proof.
  intros Hst. rewrite AuthFacts.logout_run. by destruct (faults d) as [[|n]|].
Qed.

Lemma updateUser_consistent userData st d :
  consistent st → consistent (local (updateUser userData st d)).
Proof.
  intros Hst.
  assert (consistent (authReducer st (UPDATE_USER userData))) as Hdone.
  { by apply authReducer_consistent. }
  destruct (truthy (Some (user st))) eqn:Huser.
  2: { by rewrite AuthFacts.updateUser_signed_out. }
  unfold updateUser. exec. unfold truthy in Huser. rewrite Huser. exec.
  destruct (faults d) as [[|[|n]]|]; exec; try done;
    (destruct (parse_or_empty _) as [users|e]; exec; [|done]);
    (destruct (Array_findIndex _ users) as [[i|]|e]; exec; try done);
    destruct users; by exec.
Qed.

(** X12.  The session stays consistent: when the authenticated flag agrees
    with the presence of a user, it still does after any reducer action
    whose signed-in user is an object, and after [login], [register],
    [logout] and [updateUser], whatever the storage holds and whether or
    not its writes fail. *)
Theorem session_stays_consistent (st : AuthState) (d : Device) :
  consistent st →
  (∀ a, (∀ payload, a = LOGIN_SUCCESS payload → truthy (Some payload) = true) →
        consistent (authReducer st a)) ∧
  (∀ c, consistent (local (login c st d))) ∧
  (∀ c, consistent (local (register c st d))) ∧
  consistent (local (logout st d)) ∧
  (∀ userData, consistent (local (updateUser userData st d))).
Proof.
  intros Hst. split_and!.
  - intros a Ha. by apply authReducer_consistent.
  - intros c. by apply login_consistent.
  - intros c. by apply register_consistent.
  - by apply logout_consistent.
  - intros userData. by apply updateUser_consistent.
Qed.

End invariant.

(** The initial state on Ann's device. *)
Lemma session_stays_consistent_witness :
  let st := AuthContext.initialState in
  let d := phone_with_ann in
  (∀ a, (∀ payload, a = AuthContext.LOGIN_SUCCESS payload →
                    truthy (Some payload) = true) →
        consistent (AuthContext.authReducer st a)) ∧
  (∀ c, consistent (local (AuthContext.login (H := compact_json) c st d))) ∧
  (∀ c, consistent (local (AuthContext.register (H := compact_json) c st d))) ∧
  consistent (local (AuthContext.logout st d)) ∧
  (∀ userData, consistent (local (AuthContext.updateUser (H := compact_json)
                                    userData st d))).
Proof.
  apply (session_stays_consistent (H := compact_json)
           AuthContext.initialState phone_with_ann).
  reflexivity.
Defined.

(** ** Watchlist screen *)

(** What [loadWatchlist] shows for the two stored collections. *)
Definition shown (movies shows : list json) : list json :=
  map (with_media_type "movie") movies ++ map (with_media_type "tv") shows.

(** The stored entries that [removeFromWatchlist(id, _)] keeps. *)
Definition without_id (id : Z) (l : list json) : list json :=
  List.filter (λ x, negb (WatchlistScreen.has_id id x)) l.

Module ScreenFacts.
Import WatchlistScreen.

Lemma has_id_tagged id tag x : has_id id (with_media_type tag x) = has_id id x.
Proof. unfold has_id. by rewrite with_media_type_id. Qed.

Lemma has_media_type_tagged tag tag' x :
  has_media_type tag' (with_media_type tag x) = String.eqb tag tag'.
Proof. unfold has_media_type. by rewrite with_media_type_tag. Qed.

Lemma filter_tagged (q : json → bool) (q' : json → bool) tag l :
  (∀ x, q (with_media_type tag x) = q' x) →
  List.filter q (map (with_media_type tag) l) =
  map (with_media_type tag) (List.filter q' l).
Proof.
  intros Hq. induction l as [|x r IH]; [done|]. simpl.
  rewrite Hq, IH. by destruct (q' x).
Qed.

Lemma filter_all {A} (q : A → bool) l : (∀ x, q x = true) → List.filter q l = l.
Proof. intros Hq. induction l as [|x r IH]; [done|]. simpl. by rewrite Hq, IH. Qed.

Lemma filter_none {A} (q : A → bool) l : (∀ x, q x = false) → List.filter q l = [].
Proof. intros Hq. induction l as [|x r IH]; [done|]. simpl. by rewrite Hq. Qed.

(** Removing from the shown list is removing from the stored collection
    of that media type. *)
Lemma shown_without id mediaType movies shows :
  List.filter (λ item, negb (has_id id item &&
                             has_media_type (media_tag mediaType) item))
    (shown movies shows) =
  match mediaType with
  | movie_type => shown (without_id id movies) shows
  | tv_type => shown movies (without_id id shows)
  end.
Proof.
  unfold shown, without_id. rewrite List.filter_app.
  destruct mediaType; cbn [media_tag].
  - rewrite (filter_tagged _ (λ x, negb (has_id id x)) "movie").
    2: { intros x. by rewrite has_id_tagged, has_media_type_tagged, andb_true_r. }
    f_equal. rewrite (filter_tagged _ (λ _, true) "tv").
    2: { intros x. by rewrite has_media_type_tagged, andb_false_r. }
    by rewrite filter_all.
  - rewrite (filter_tagged _ (λ _, true) "movie").
    2: { intros x. by rewrite has_media_type_tagged, andb_false_r. }
    rewrite filter_all by done. f_equal.
    apply filter_tagged. intros x.
    by rewrite has_id_tagged, has_media_type_tagged, andb_true_r.
Qed.

Lemma shown_only tag movies shows :
  List.filter (has_media_type tag) (shown movies shows) =
  (if String.eqb "movie" tag then map (with_media_type "movie") movies else []) ++
  (if String.eqb "tv" tag then map (with_media_type "tv") shows else []).
Proof.
  unfold shown. rewrite List.filter_app. f_equal.
  - rewrite (filter_tagged _ (λ _, String.eqb "movie" tag) "movie").
    2: { intros x. apply has_media_type_tagged. }
    destruct (String.eqb "movie" tag).
    + by rewrite filter_all.
    + by rewrite filter_none.
  - rewrite (filter_tagged _ (λ _, String.eqb "tv" tag) "tv").
    2: { intros x. apply has_media_type_tagged. }
    destruct (String.eqb "tv" tag).
    + by rewrite filter_all.
    + by rewrite filter_none.
Qed.

Section runs.
Context `{JSONCodec} `{JSString}.

Lemma removeFromWatchlist_run id mediaType (s : State) d l :
  faults d = None →
  stored_list d (watchlistKey mediaType) l →
  Forall (λ x, x ≠ JNull) l →
  let r := removeFromWatchlist id mediaType s d in
  result r = Ok tt ∧
  local r =
    {| watchlist :=
         List.filter (λ item, negb (has_id id item &&
                                    has_media_type (media_tag mediaType) item))
           (watchlist s);
       loading := loading s; refreshing := refreshing s;
       activeWatchlistType := activeWatchlistType s |} ∧
  storage (device r) =
    <[watchlistKey mediaType := JSON_stringify (JArr (without_id id l))]> (storage d).
Proof.
  intros Hfaults Hstored Hobj. unfold removeFromWatchlist. exec.
  rewrite (parse_or_empty_stored _ _ _ Hstored). exec.
  rewrite (Array_filter_pure _ (λ x, negb (has_id id x)) l).
  2: { eapply List.Forall_impl; [|exact Hobj]. intros x Hx.
       unfold id_is. by rewrite prop_not_null. }
  exec. rewrite Hfaults. by exec.
Qed.

Lemma clearWatchlist_run (s : State) d :
  faults d = None →
  let r := clearWatchlist s d in
  result r = Ok tt ∧
  local r =
    {| watchlist :=
         match activeWatchlistType s with
         | all => []
         | movies => List.filter (has_media_type "tv") (watchlist s)
         | tv => List.filter (has_media_type "movie") (watchlist s)
         end;
       loading := loading s; refreshing := refreshing s;
       activeWatchlistType := activeWatchlistType s |} ∧
  storage (device r) =
    match activeWatchlistType s with
    | all => delete "tvWatchlist" (delete "watchlist" (storage d))
    | movies => delete "watchlist" (storage d)
    | tv => delete "tvWatchlist" (storage d)
    end.
Proof.
  intros Hfaults. unfold clearWatchlist. exec.
  destruct (activeWatchlistType s) eqn:Hscope; exec; rewrite Hfaults; exec;
    by rewrite ?Hscope.
Qed.

(** A key that a write did not touch holds the list it held. *)
Lemma stored_list_kept d d' key l :
  storage d' !! key = storage d !! key →
  stored_list d key l → stored_list d' key l.
Proof. unfold stored_list. by intros ->. Qed.

Lemma stored_list_deleted d key :
  storage d !! key = None → stored_list d key [].
Proof. intros Hnone. apply stored_list_absent. by rewrite Hnone. Qed.

End runs.
End ScreenFacts.

Section watchlist_screen.
Context `{JSONCodec} `{JSString}.
Import WatchlistScreen.

(** X13.  With the dialog answered "Remove", on a device whose writes
    succeed, [removeFromWatchlist(id, mediaType)] rewrites the collection
    of that media type without any entry whose [id] is [id], keeps its
    other entries in their order, and leaves every other key, the other
    collection included, as it was. *)
Theorem removeFromWatchlist_removes_id (id : Z) (mediaType : MediaType)
    (s : State) (d : Device) (l : list json) :
  faults d = None →
  stored_list d (watchlistKey mediaType) l →
  Forall (λ x, x ≠ JNull) l →
  let r := removeFromWatchlist id mediaType s d in
  result r = Ok tt ∧
  stored_list (device r) (watchlistKey mediaType) (without_id id l) ∧
  Forall (λ x, has_id id x = false) (without_id id l) ∧
  (∀ x, x ∈ l → has_id id x = false → x ∈ without_id id l) ∧
  (∀ k, k ≠ watchlistKey mediaType → storage (device r) !! k = storage d !! k).
Proof.
  intros Hfaults Hstored Hobj.
  destruct (ScreenFacts.removeFromWatchlist_run id mediaType s d l Hfaults Hstored Hobj)
    as (Hres & _ & Hstorage).
  cbv zeta. split_and!.
  - done.
  - apply stored_list_written. rewrite Hstorage. apply lookup_insert_eq.
  - apply List.Forall_forall. intros x [_ Hx]%filter_In.
    by apply negb_true_iff in Hx.
  - intros x Hin Hx. apply list_elem_of_In, filter_In. split.
    + by apply list_elem_of_In.
    + by rewrite Hx.
  - intros k Hk. rewrite Hstorage. by apply lookup_insert_ne.
Qed.

(** X14.  The screen follows the storage: when the list on screen is what
    [loadWatchlist] showed for the two stored collections, then after
    [removeFromWatchlist] it is what a fresh [loadWatchlist] shows. *)
Theorem removeFromWatchlist_matches_reload (id : Z) (mediaType : MediaType)
    (s : State) (d : Device) (movies shows : list json) :
  faults d = None →
  stored_list d "watchlist" movies →
  stored_list d "tvWatchlist" shows →
  Forall (λ x, x ≠ JNull) (match mediaType with movie_type => movies | tv_type => shows end) →
  watchlist s = shown movies shows →
  let r := removeFromWatchlist id mediaType s d in
  let r' := loadWatchlist (local r) (device r) in
  result r' = Ok tt ∧ watchlist (local r') = watchlist (local r).
Proof.
  intros Hfaults Hmovies Hshows Hobj Hscreen. cbv zeta.
  destruct mediaType.
  - destruct (ScreenFacts.removeFromWatchlist_run id movie_type s d movies
                Hfaults Hmovies Hobj) as (_ & Hlocal & Hstorage).
    rewrite (WatchlistFacts.loadWatchlist_run _ _ (without_id id movies) shows).
    + cbn [result local watchlist]. rewrite Hlocal. cbn [watchlist].
      by rewrite Hscreen, ScreenFacts.shown_without.
    + apply stored_list_written. rewrite Hstorage. apply lookup_insert_eq.
    + eapply ScreenFacts.stored_list_kept; [|exact Hshows].
      rewrite Hstorage. by apply lookup_insert_ne.
  - destruct (ScreenFacts.removeFromWatchlist_run id tv_type s d shows
                Hfaults Hshows Hobj) as (_ & Hlocal & Hstorage).
    rewrite (WatchlistFacts.loadWatchlist_run _ _ movies (without_id id shows)).
    + cbn [result local watchlist]. rewrite Hlocal. cbn [watchlist].
      by rewrite Hscreen, ScreenFacts.shown_without.
    + eapply ScreenFacts.stored_list_kept; [|exact Hmovies].
      rewrite Hstorage. by apply lookup_insert_ne.
    + apply stored_list_written. rewrite Hstorage. apply lookup_insert_eq.
Qed.

(** X15.  With the dialog answered "Clear All", on a device whose writes
    succeed, [clearWatchlist] removes the keys of the selected segment
    only ("all": both; "movies": [watchlist]; "tv": [tvWatchlist]) and no
    other key; when the list on screen was what [loadWatchlist] showed, it
    is afterwards what a fresh [loadWatchlist] shows. *)
Theorem clearWatchlist_clears_the_segment (s : State) (d : Device)
    (movies shows : list json) :
  faults d = None →
  stored_list d "watchlist" movies →
  stored_list d "tvWatchlist" shows →
  watchlist s = shown movies shows →
  let r := clearWatchlist s d in
  let r' := loadWatchlist (local r) (device r) in
  let clears_movies :=
    match activeWatchlistType s with tv => false | _ => true end in
  let clears_tv :=
    match activeWatchlistType s with WatchlistScreen.movies => false | _ => true end in
  result r = Ok tt ∧
  storage (device r) !! "watchlist" =
    (if clears_movies then None else storage d !! "watchlist") ∧
  storage (device r) !! "tvWatchlist" =
    (if clears_tv then None else storage d !! "tvWatchlist") ∧
  (∀ k, k ≠ "watchlist" → k ≠ "tvWatchlist" →
        storage (device r) !! k = storage d !! k) ∧
  watchlist (local r) =
    shown (if clears_movies then [] else movies) (if clears_tv then [] else shows) ∧
  result r' = Ok tt ∧ watchlist (local r') = watchlist (local r).
Proof.
  intros Hfaults Hmovies Hshows Hscreen.
  destruct (ScreenFacts.clearWatchlist_run s d Hfaults) as (Hres & Hlocal & Hstorage).
  cbv zeta.
  assert (storage (device (clearWatchlist s d)) !! "watchlist" =
          match activeWatchlistType s with
          | tv => storage d !! "watchlist" | _ => None end) as Hm.
  { rewrite Hstorage. destruct (activeWatchlistType s); by simplify_map_eq. }
  assert (storage (device (clearWatchlist s d)) !! "tvWatchlist" =
          match activeWatchlistType s with
          | WatchlistScreen.movies => storage d !! "tvWatchlist" | _ => None end) as Ht.
  { rewrite Hstorage. destruct (activeWatchlistType s); by simplify_map_eq. }
  assert (watchlist (local (clearWatchlist s d)) =
          shown (match activeWatchlistType s with tv => movies | _ => [] end)
                (match activeWatchlistType s with WatchlistScreen.movies => shows | _ => [] end))
    as Hshown.
  { rewrite Hlocal. cbn [watchlist]. rewrite Hscreen.
    destruct (activeWatchlistType s); [done| |].
    - rewrite ScreenFacts.shown_only. by cbn.
    - rewrite ScreenFacts.shown_only. unfold shown. cbn. by rewrite !app_nil_r. }
  split_and!.
  - done.
  - rewrite Hm. by destruct (activeWatchlistType s).
  - rewrite Ht. by destruct (activeWatchlistType s).
  - intros k Hk1 Hk2. rewrite Hstorage.
    destruct (activeWatchlistType s); by simplify_map_eq.
  - rewrite Hshown. by destruct (activeWatchlistType s).
  - rewrite (WatchlistFacts.loadWatchlist_run _ _
               (match activeWatchlistType s with tv => movies | _ => [] end)
               (match activeWatchlistType s with WatchlistScreen.movies => shows | _ => [] end));
      [done| |].
    + destruct (activeWatchlistType s);
        [by apply ScreenFacts.stored_list_deleted
        |by apply ScreenFacts.stored_list_deleted
        |by eapply ScreenFacts.stored_list_kept].
    + destruct (activeWatchlistType s);
        [by apply ScreenFacts.stored_list_deleted
        |by eapply ScreenFacts.stored_list_kept
        |by apply ScreenFacts.stored_list_deleted].
  - rewrite (WatchlistFacts.loadWatchlist_run _ _
               (match activeWatchlistType s with tv => movies | _ => [] end)
               (match activeWatchlistType s with WatchlistScreen.movies => shows | _ => [] end)).
    + cbn [local watchlist]. by rewrite Hshown.
    + destruct (activeWatchlistType s);
        [by apply ScreenFacts.stored_list_deleted
        |by apply ScreenFacts.stored_list_deleted
        |by eapply ScreenFacts.stored_list_kept].
    + destruct (activeWatchlistType s);
        [by apply ScreenFacts.stored_list_deleted
        |by eapply ScreenFacts.stored_list_kept
        |by apply ScreenFacts.stored_list_deleted].
Qed.

(** X16.  After [loadWatchlist], each segment shows the entries of its
    collection in their stored order: "movies" the movie collection, "tv"
    the TV collection, "all" one after the other; the two counts of the
    header add up to the length of the list. *)
Theorem filteredWatchlist_shows_the_segment (s : State) (d : Device)
    (movies shows : list json) :
  stored_list d "watchlist" movies →
  stored_list d "tvWatchlist" shows →
  let s' := local (loadWatchlist s d) in
  filteredWatchlist s' =
    match activeWatchlistType s with
    | all => shown movies shows
    | WatchlistScreen.movies => map (with_media_type "movie") movies
    | tv => map (with_media_type "tv") shows
    end ∧
  (length (List.filter (has_media_type "movie") (watchlist s')) = length movies ∧
   length (List.filter (has_media_type "tv") (watchlist s')) = length shows ∧
   length (watchlist s') = length movies + length shows)%nat.
Proof.
  intros Hmovies Hshows. cbv zeta.
  rewrite (WatchlistFacts.loadWatchlist_run s d movies shows Hmovies Hshows).
  cbn [local]. unfold filteredWatchlist. cbn [watchlist activeWatchlistType].
  fold (shown movies shows). split_and!.
  - destruct (activeWatchlistType s).
    + by apply ScreenFacts.filter_all.
    + rewrite ScreenFacts.shown_only. cbn. by rewrite app_nil_r.
    + rewrite ScreenFacts.shown_only. by cbn.
  - rewrite ScreenFacts.shown_only. cbn. by rewrite app_nil_r, length_map.
  - rewrite ScreenFacts.shown_only. cbn. by rewrite length_map.
  - unfold shown. by rewrite length_app, !length_map.
Qed.

End watchlist_screen.

(** Movie 5 is removed on the device that lists a movie and a show with
    that id. *)
Lemma removeFromWatchlist_removes_id_witness :
  let r := WatchlistScreen.removeFromWatchlist (H := compact_json) 5 movie_type
             fresh_screen phone_with_both in
  result r = Ok tt ∧
  stored_list (H := compact_json) (device r) (watchlistKey movie_type)
    (without_id 5 [movie5]) ∧
  Forall (λ x, WatchlistScreen.has_id 5 x = false) (without_id 5 [movie5]) ∧
  (∀ x, x ∈ [movie5] → WatchlistScreen.has_id 5 x = false →
        x ∈ without_id 5 [movie5]) ∧
  (∀ k, k ≠ watchlistKey movie_type →
        storage (device r) !! k = storage phone_with_both !! k).
Proof.
  apply (removeFromWatchlist_removes_id (H := compact_json) 5 movie_type
           fresh_screen phone_with_both [movie5]).
  - reflexivity.
  - vm_compute. reflexivity.
  - repeat constructor. discriminate.
Defined.

(** The screen that has loaded both collections. *)
Definition loaded_screen : WatchlistScreen.State :=
  {| WatchlistScreen.watchlist := shown [movie5] [show5];
     WatchlistScreen.loading := false;
     WatchlistScreen.refreshing := false;
     WatchlistScreen.activeWatchlistType := WatchlistScreen.movies |}.

Lemma removeFromWatchlist_matches_reload_witness :
  let r := WatchlistScreen.removeFromWatchlist (H := compact_json) 5 tv_type
             loaded_screen phone_with_both in
  let r' := WatchlistScreen.loadWatchlist (H := compact_json) (local r) (device r) in
  result r' = Ok tt ∧
  WatchlistScreen.watchlist (local r') = WatchlistScreen.watchlist (local r).
Proof.
  apply (removeFromWatchlist_matches_reload (H := compact_json) 5 tv_type
           loaded_screen phone_with_both [movie5] [show5]).
  - reflexivity.
  - vm_compute. reflexivity.
  - vm_compute. reflexivity.
  - repeat constructor. discriminate.
  - reflexivity.
Defined.

(** "Clear All" on the segment of the movies. *)
Lemma clearWatchlist_clears_the_segment_witness :
  let r := WatchlistScreen.clearWatchlist loaded_screen phone_with_both in
  let r' := WatchlistScreen.loadWatchlist (H := compact_json) (local r) (device r) in
  let clears_movies := true in
  let clears_tv := false in
  result r = Ok tt ∧
  storage (device r) !! "watchlist" =
    (if clears_movies then None else storage phone_with_both !! "watchlist") ∧
  storage (device r) !! "tvWatchlist" =
    (if clears_tv then None else storage phone_with_both !! "tvWatchlist") ∧
  (∀ k, k ≠ "watchlist" → k ≠ "tvWatchlist" →
        storage (device r) !! k = storage phone_with_both !! k) ∧
  WatchlistScreen.watchlist (local r) =
    shown (if clears_movies then [] else [movie5])
          (if clears_tv then [] else [show5]) ∧
  result r' = Ok tt ∧
  WatchlistScreen.watchlist (local r') = WatchlistScreen.watchlist (local r).
Proof.
  apply (clearWatchlist_clears_the_segment (H := compact_json)
           loaded_screen phone_with_both [movie5] [show5]).
  - reflexivity.
  - vm_compute. reflexivity.
  - vm_compute. reflexivity.
  - reflexivity.
Defined.

(** The segment of the movies after a load of both collections. *)
Lemma filteredWatchlist_shows_the_segment_witness :
  let s' := local (WatchlistScreen.loadWatchlist (H := compact_json)
                     loaded_screen phone_with_both) in
  WatchlistScreen.filteredWatchlist s' = map (with_media_type "movie") [movie5] ∧
  (length (List.filter (WatchlistScreen.has_media_type "movie")
             (WatchlistScreen.watchlist s')) = length [movie5] ∧
   length (List.filter (WatchlistScreen.has_media_type "tv")
             (WatchlistScreen.watchlist s')) = length [show5] ∧
   length (WatchlistScreen.watchlist s') = length [movie5] + length [show5])%nat.
Proof.
  apply (filteredWatchlist_shows_the_segment (H := compact_json)
           loaded_screen phone_with_both [movie5] [show5]).
  - vm_compute. reflexivity.
  - vm_compute. reflexivity.
Defined.

(** ** Detail screens and cards *)

Lemma has_id_of_num content i x :
  member "id" content = Some (JNum i) →
  has_id_of content x = WatchlistScreen.has_id i x.
Proof. unfold has_id_of, WatchlistScreen.has_id. by intros ->. Qed.

Lemma without_id_others content i l :
  member "id" content = Some (JNum i) → without_id i l = others content l.
Proof.
  intros Hid. unfold without_id, others. apply filter_ext. intros x.
  by rewrite (has_id_of_num content i).
Qed.

Lemma listed_has_id content i l :
  member "id" content = Some (JNum i) →
  listed content l = existsb (WatchlistScreen.has_id i) l.
Proof.
  intros Hid. unfold listed. induction l as [|x r IH]; [done|]. simpl.
  by rewrite IH, (has_id_of_num content i).
Qed.

Section detail_screens.
Context `{JSONCodec} `{JSString}.

(** X17.  The bookmark flag of the movie screen follows the storage: when
    the flag says whether the collection lists the movie and the ids of
    the collection are distinct, then after a toggle whose write succeeds
    the flag is flipped, it again says whether the collection lists the
    movie, the ids are still distinct, and a fresh [checkWatchlistStatus]
    changes nothing. *)
Theorem MovieDetailScreen_flag_follows_storage (s : MovieDetailScreen.State)
    (d : Device) (l : list json) :
  faults d = None →
  stored_list d "watchlist" l →
  Forall (λ x, x ≠ JNull) l →
  member "id" (MovieDetailScreen.movie s) = Some (JNum (MovieDetailScreen.id s)) →
  MovieDetailScreen.isInWatchlist s = listed (MovieDetailScreen.movie s) l →
  NoDup (ids l) →
  let r := MovieDetailScreen.toggleWatchlist s d in
  let r' := MovieDetailScreen.checkWatchlistStatus (local r) (device r) in
  result r = Ok tt ∧
  MovieDetailScreen.isInWatchlist (local r) = negb (MovieDetailScreen.isInWatchlist s) ∧
  (∃ l', stored_list (device r) "watchlist" l' ∧ NoDup (ids l') ∧
         MovieDetailScreen.isInWatchlist (local r) =
           listed (MovieDetailScreen.movie s) l') ∧
  result r' = Ok tt ∧ local r' = local r.
Proof.
  intros Hfaults Hstored Hobj Hid Hflag Hdistinct. cbv zeta.
  assert (MovieDetailScreen.movie s ≠ JNull) as Hmovie.
  { intros Hnull. by rewrite Hnull in Hid. }
  rewrite (WatchlistFacts.MovieDetailScreen_toggle_run s d l Hstored Hmovie (λ _, Hobj)).
  cbv zeta. rewrite Hfaults. cbn [result local device MovieDetailScreen.isInWatchlist].
  set (l' := if MovieDetailScreen.isInWatchlist s
             then others (MovieDetailScreen.movie s) l
             else l ++ [MovieDetailScreen.movie s]).
  set (d' := with_storage _ _ None).
  assert (stored_list d' "watchlist" l') as Hstored'.
  { apply stored_list_written. apply lookup_insert_eq. }
  assert (Forall (λ x, x ≠ JNull) l') as Hobj'.
  { unfold l'. destruct (MovieDetailScreen.isInWatchlist s).
    - by apply others_not_null.
    - apply Forall_app. split; [done|]. by repeat constructor. }
  assert (negb (MovieDetailScreen.isInWatchlist s) =
          listed (MovieDetailScreen.movie s) l') as Hflag'.
  { unfold l'. destruct (MovieDetailScreen.isInWatchlist s) eqn:Hin; cbn [negb].
    - by rewrite listed_others.
    - rewrite listed_app, <- Hflag. cbn.
      by rewrite (has_id_of_self _ _ Hid). }
  split_and!; try done.
  - exists l'. split_and!; try done.
    unfold l'. destruct (MovieDetailScreen.isInWatchlist s) eqn:Hin.
    + by apply ids_others_NoDup.
    + unfold ids. rewrite map_app. apply NoDup_app. split_and!; try done.
      * intros v Hv [->|[]%elem_of_nil]%elem_of_cons.
        rewrite Hid in Hv. symmetry in Hflag.
        exact (unlisted_id_fresh _ _ _ Hid Hflag Hv).
      * cbn. apply NoDup_singleton.
  - by rewrite (WatchlistFacts.MovieDetailScreen_check_run _ d' l' Hstored' Hobj').
  - rewrite (WatchlistFacts.MovieDetailScreen_check_run _ d' l' Hstored' Hobj').
    cbn [local].
    replace (present (storage d' !! "watchlist")) with true.
    2: { unfold d'. cbn [storage with_storage]. rewrite lookup_insert_eq.
         cbn [present]. by rewrite nonempty_stringify. }
    cbn [MovieDetailScreen.id MovieDetailScreen.movie]. f_equal.
    by rewrite Hflag', (listed_has_id _ _ _ Hid).
Qed.

(** X18.  A card keeps to the collection of its media type: an item
    whose [media_type] is "tv" is read from and written to [tvWatchlist],
    any other item [watchlist]; no other key changes.  An item that is
    added is stored at the end with that media type as its tag and with
    its own [id]; an item that is removed leaves no entry with its id. *)
Theorem MovieCard_keeps_to_its_collection (s : MovieCard.State) (d : Device)
    (l : list json) :
  faults d = None →
  stored_list d (MovieCard.watchlistKey s) l →
  Forall (λ x, x ≠ JNull) l →
  MovieCard.movie s ≠ JNull →
  let r := MovieCard.toggleWatchlist s d in
  let tag := if MovieCard.isTV s then "tv" else "movie" in
  result r = Ok tt ∧
  MovieCard.watchlistKey s = (if MovieCard.isTV s then "tvWatchlist" else "watchlist") ∧
  (∀ k, k ≠ MovieCard.watchlistKey s → storage (device r) !! k = storage d !! k) ∧
  (if MovieCard.isInWatchlist s
   then stored_list (device r) (MovieCard.watchlistKey s) (others (MovieCard.movie s) l) ∧
        listed (MovieCard.movie s) (others (MovieCard.movie s) l) = false
   else ∃ item,
        stored_list (device r) (MovieCard.watchlistKey s) (l ++ [item]) ∧
        member "media_type" item = Some (JStr tag) ∧
        member "id" item = member "id" (MovieCard.movie s)) ∧
  MovieCard.isInWatchlist (local r) = negb (MovieCard.isInWatchlist s) ∧
  MovieCard.isLongPressed (local r) = false.
Proof.
  intros Hfaults Hstored Hobj Hmovie. cbv zeta.
  rewrite (WatchlistFacts.MovieCard_toggle_run s d l Hstored Hmovie (λ _, Hobj)).
  cbv zeta. rewrite Hfaults.
  cbn [result local device storage with_storage with_notice
       MovieCard.isInWatchlist MovieCard.isLongPressed].
  split_and!; try done.
  - intros k Hk. by apply lookup_insert_ne.
  - destruct (MovieCard.isInWatchlist s).
    + split; [|apply listed_others].
      apply stored_list_written. apply lookup_insert_eq.
    + exists (if MovieCard.isTV s then with_media_type "tv" (MovieCard.movie s)
              else with_media_type "movie" (MovieCard.movie s)).
      split_and!.
      * apply stored_list_written. apply lookup_insert_eq.
      * destruct (MovieCard.isTV s); apply with_media_type_tag.
      * destruct (MovieCard.isTV s); apply with_media_type_id.
Qed.

(** X19.  A show that the TV screen adds is stored at the end of
    [tvWatchlist] with the tag "tv", the movie collection is untouched,
    and the watchlist screen then lists it last. *)
Theorem TVShowDetailScreen_add_is_listed (s : TVShowDetailScreen.State)
    (w : WatchlistScreen.State) (d : Device) (movies shows : list json) :
  faults d = None →
  stored_list d "watchlist" movies →
  stored_list d "tvWatchlist" shows →
  TVShowDetailScreen.tvShow s ≠ JNull →
  TVShowDetailScreen.isInWatchlist s = false →
  let r := TVShowDetailScreen.toggleWatchlist s d in
  let r' := WatchlistScreen.loadWatchlist w (device r) in
  let entry := with_media_type "tv" (TVShowDetailScreen.tvShow s) in
  result r = Ok tt ∧
  TVShowDetailScreen.isInWatchlist (local r) = true ∧
  stored_list (device r) "tvWatchlist" (shows ++ [entry]) ∧
  storage (device r) !! "watchlist" = storage d !! "watchlist" ∧
  result r' = Ok tt ∧
  WatchlistScreen.watchlist (local r') =
    shown movies shows ++ [with_media_type "tv" entry] ∧
  member "id" (with_media_type "tv" entry) = member "id" (TVShowDetailScreen.tvShow s) ∧
  WatchlistScreen.has_media_type "tv" (with_media_type "tv" entry) = true.
Proof.
  intros Hfaults Hmovies Hshows Hshow Hflag. cbv zeta.
  rewrite (WatchlistFacts.TVShowDetailScreen_toggle_run s d shows Hshows Hshow).
  2: { intros Hin. by rewrite Hin in Hflag. }
  cbv zeta. rewrite Hfaults, Hflag.
  cbn [result local device negb TVShowDetailScreen.isInWatchlist].
  set (d' := with_storage _ _ None).
  assert (stored_list d' "tvWatchlist"
            (shows ++ [with_media_type "tv" (TVShowDetailScreen.tvShow s)])) as Hshows'.
  { apply stored_list_written. apply lookup_insert_eq. }
  assert (stored_list d' "watchlist" movies) as Hmovies'.
  { eapply ScreenFacts.stored_list_kept; [|exact Hmovies].
    unfold d'. cbn [storage with_storage]. by apply lookup_insert_ne. }
  rewrite (WatchlistFacts.loadWatchlist_run w d' _ _ Hmovies' Hshows').
  cbn [result local WatchlistScreen.watchlist]. split_and!; try done.
  - unfold d'. cbn [storage with_storage]. by apply lookup_insert_ne.
  - unfold shown. by rewrite map_app, app_assoc.
  - by rewrite !with_media_type_id.
  - apply ScreenFacts.has_media_type_tagged.
Qed.

(** X20.  A movie that the movie screen adds to a collection that did not
    list it, and that the watchlist screen then removes by its id, leaves
    the stored collection exactly as it was before the two steps. *)
Theorem add_then_remove_restores_collection (s : MovieDetailScreen.State)
    (w : WatchlistScreen.State) (d : Device) (l : list json) (i : Z) :
  faults d = None →
  stored_list d "watchlist" l →
  Forall (λ x, x ≠ JNull) l →
  member "id" (MovieDetailScreen.movie s) = Some (JNum i) →
  MovieDetailScreen.isInWatchlist s = false →
  listed (MovieDetailScreen.movie s) l = false →
  let r1 := MovieDetailScreen.toggleWatchlist s d in
  let r2 := WatchlistScreen.removeFromWatchlist i movie_type w (device r1) in
  result r1 = Ok tt ∧ result r2 = Ok tt ∧
  stored_list (device r1) "watchlist" (l ++ [MovieDetailScreen.movie s]) ∧
  stored_list (device r2) "watchlist" l.
Proof.
  intros Hfaults Hstored Hobj Hid Hflag Hunlisted. cbv zeta.
  assert (MovieDetailScreen.movie s ≠ JNull) as Hmovie.
  { intros Hnull. by rewrite Hnull in Hid. }
  rewrite (WatchlistFacts.MovieDetailScreen_toggle_run s d l Hstored Hmovie (λ _, Hobj)).
  cbv zeta. rewrite Hfaults, Hflag. cbn [result local device].
  set (d' := with_storage _ _ None).
  assert (stored_list d' (watchlistKey movie_type) (l ++ [MovieDetailScreen.movie s]))
    as Hstored'.
  { apply stored_list_written. apply lookup_insert_eq. }
  assert (Forall (λ x, x ≠ JNull) (l ++ [MovieDetailScreen.movie s])) as Hobj'.
  { apply Forall_app. split; [done|]. by repeat constructor. }
  destruct (ScreenFacts.removeFromWatchlist_run i movie_type w d'
              (l ++ [MovieDetailScreen.movie s]) eq_refl Hstored' Hobj')
    as (Hres & _ & Hstorage).
  split_and!; try done.
  apply stored_list_written. rewrite Hstorage. cbn [watchlistKey].
  rewrite lookup_insert_eq. do 3 f_equal.
  rewrite (without_id_others _ _ _ Hid), others_app, (others_unlisted _ _ Hunlisted).
  cbn. by rewrite (has_id_of_self _ _ Hid), app_nil_r.
Qed.

End detail_screens.

(** Movie 5 on a device that lists nothing yet. *)
Lemma MovieDetailScreen_flag_follows_storage_witness :
  let r := MovieDetailScreen.toggleWatchlist (H := compact_json) detail5 phone in
  let r' := MovieDetailScreen.checkWatchlistStatus (H := compact_json)
              (local r) (device r) in
  result r = Ok tt ∧
  MovieDetailScreen.isInWatchlist (local r) =
    negb (MovieDetailScreen.isInWatchlist detail5) ∧
  (∃ l', stored_list (H := compact_json) (device r) "watchlist" l' ∧ NoDup (ids l') ∧
         MovieDetailScreen.isInWatchlist (local r) =
           listed (MovieDetailScreen.movie detail5) l') ∧
  result r' = Ok tt ∧ local r' = local r.
Proof.
  apply (MovieDetailScreen_flag_follows_storage (H := compact_json) detail5 phone []).
  - reflexivity.
  - vm_compute. reflexivity.
  - constructor.
  - reflexivity.
  - reflexivity.
  - constructor.
Defined.

(** A card of show 5, as the watchlist screen renders it. *)
Definition card_show5 : MovieCard.State :=
  {| MovieCard.movie := with_media_type "tv" show5;
     MovieCard.isLongPressed := true;
     MovieCard.isInWatchlist := false |}.

Lemma MovieCard_keeps_to_its_collection_witness :
  let r := MovieCard.toggleWatchlist (H := compact_json) card_show5 phone in
  let tag := if MovieCard.isTV card_show5 then "tv" else "movie" in
  result r = Ok tt ∧
  MovieCard.watchlistKey card_show5 =
    (if MovieCard.isTV card_show5 then "tvWatchlist" else "watchlist") ∧
  (∀ k, k ≠ MovieCard.watchlistKey card_show5 →
        storage (device r) !! k = storage phone !! k) ∧
  (if MovieCard.isInWatchlist card_show5
   then stored_list (H := compact_json) (device r) (MovieCard.watchlistKey card_show5)
          (others (MovieCard.movie card_show5) []) ∧
        listed (MovieCard.movie card_show5)
          (others (MovieCard.movie card_show5) []) = false
   else ∃ item,
        stored_list (H := compact_json) (device r) (MovieCard.watchlistKey card_show5)
          ([] ++ [item]) ∧
        member "media_type" item = Some (JStr tag) ∧
        member "id" item = member "id" (MovieCard.movie card_show5)) ∧
  MovieCard.isInWatchlist (local r) = negb (MovieCard.isInWatchlist card_show5) ∧
  MovieCard.isLongPressed (local r) = false.
Proof.
  apply (MovieCard_keeps_to_its_collection (H := compact_json) card_show5 phone []).
  - reflexivity.
  - vm_compute. reflexivity.
  - constructor.
  - discriminate.
Defined.

(** Show 5 is added on the device that already lists a movie and a show. *)
Lemma TVShowDetailScreen_add_is_listed_witness :
  let show6 := JObj [("id", JNum 6); ("name", JStr "Z")] in
  let s := {| TVShowDetailScreen.id := 6; TVShowDetailScreen.tvShow := show6;
              TVShowDetailScreen.isInWatchlist := false |} in
  let r := TVShowDetailScreen.toggleWatchlist (H := compact_json) s phone_with_both in
  let r' := WatchlistScreen.loadWatchlist (H := compact_json) fresh_screen (device r) in
  let entry := with_media_type "tv" (TVShowDetailScreen.tvShow s) in
  result r = Ok tt ∧
  TVShowDetailScreen.isInWatchlist (local r) = true ∧
  stored_list (H := compact_json) (device r) "tvWatchlist" ([show5] ++ [entry]) ∧
  storage (device r) !! "watchlist" = storage phone_with_both !! "watchlist" ∧
  result r' = Ok tt ∧
  WatchlistScreen.watchlist (local r') =
    shown [movie5] [show5] ++ [with_media_type "tv" entry] ∧
  member "id" (with_media_type "tv" entry) = member "id" (TVShowDetailScreen.tvShow s) ∧
  WatchlistScreen.has_media_type "tv" (with_media_type "tv" entry) = true.
Proof.
  apply (TVShowDetailScreen_add_is_listed (H := compact_json)
           {| TVShowDetailScreen.id := 6;
              TVShowDetailScreen.tvShow := JObj [("id", JNum 6); ("name", JStr "Z")];
              TVShowDetailScreen.isInWatchlist := false |}
           fresh_screen phone_with_both [movie5] [show5]).
  - reflexivity.
  - vm_compute. reflexivity.
  - vm_compute. reflexivity.
  - discriminate.
  - reflexivity.
Defined.

(** Movie 5 is added on the movie screen and removed on the watchlist
    screen. *)
Lemma add_then_remove_restores_collection_witness :
  let r1 := MovieDetailScreen.toggleWatchlist (H := compact_json) detail5 phone in
  let r2 := WatchlistScreen.removeFromWatchlist (H := compact_json) 5 movie_type
              fresh_screen (device r1) in
  result r1 = Ok tt ∧ result r2 = Ok tt ∧
  stored_list (H := compact_json) (device r1) "watchlist"
    ([] ++ [MovieDetailScreen.movie detail5]) ∧
  stored_list (H := compact_json) (device r2) "watchlist" [].
Proof.
  apply (add_then_remove_restores_collection (H := compact_json) detail5
           fresh_screen phone [] 5).
  - reflexivity.
  - vm_compute. reflexivity.
  - constructor.
  - reflexivity.
  - reflexivity.
  - reflexivity.
Defined.

(** ** Theme *)

(** Running the code of the provider and of the screens below. *)
Ltac run :=
  cbv [ThemeContext.dispatch ThemeContext.apply_system_theme
       LoginScreen.setIsLoading LoginScreen.router_replace LoginScreen.useAuth
       LoginScreen.validateForm];
  exec;
  cbn [ThemeContext.themeState ThemeContext.systemColorScheme
       ThemeContext.mode ThemeContext.theme ThemeContext.isDark
       LoginScreen.screen LoginScreen.authState LoginScreen.route
       LoginScreen.email LoginScreen.password LoginScreen.showPassword
       LoginScreen.isLoading].

(** Comparisons of two literal texts. *)
Ltac compare_texts :=
  repeat match goal with
  | |- context [String.eqb ?a ?b] =>
      let v := eval vm_compute in (String.eqb a b) in
      match v with
      | true => change (String.eqb a b) with true
      | false => change (String.eqb a b) with false
      end
  end.

(** The palette is the one the dark flag names. *)
Definition coherent_theme (t : ThemeContext.ThemeState) : Prop :=
  ThemeContext.theme t =
  Some (if ThemeContext.isDark t then ThemeContext.dark else ThemeContext.light).

(** The three modes the application sets. *)
Definition known_mode (m : string) : Prop :=
  m = "light" ∨ m = "dark" ∨ m = "auto".

Section theme.
Import ThemeContext.

Lemma themeReducer_coherent t a :
  coherent_theme t →
  (∀ m, a = SET_THEME m → known_mode m) →
  coherent_theme (themeReducer t a).
Proof.
  unfold coherent_theme. intros Ht Ha. destruct a as [m|c]; cbn [themeReducer].
  - destruct (Ha m eq_refl) as [->|[->| ->]]; by cbn.
  - destruct (String.eqb (mode t) "auto"); [|done]. by destruct c.
Qed.

(** X25.  The palette always matches the dark flag: when it does, it
    still does after any reducer action that sets one of the modes
    "light", "dark" and "auto" or reports the system scheme, and after
    [setTheme] of such a mode, whether or not the preference could be
    saved. *)
Theorem theme_stays_coherent (s : State) (d : Device) :
  coherent_theme (themeState s) →
  (∀ a, (∀ m, a = SET_THEME m → known_mode m) →
        coherent_theme (themeReducer (themeState s) a)) ∧
  (∀ m, known_mode m → coherent_theme (themeState (local (setTheme m s d)))).
Proof.
  intros Hs. split.
  - intros a Ha. by apply themeReducer_coherent.
  - intros m Hm. unfold setTheme. run.
    assert (coherent_theme (themeReducer (themeState s) (SET_THEME m))) as Hset.
    { apply themeReducer_coherent; [done|]. by intros m' [= <-]. }
    destruct (faults d) as [[|n]|]; run; try done;
      (destruct (systemColorScheme s) as [c|]; [|done]);
      (destruct (String.eqb m "auto"); run; [|done]);
      by apply themeReducer_coherent.
Qed.

(** X26.  A saved choice comes back: after [setTheme] of "light" or
    "dark", or of "auto" while the system reports a scheme, on a device
    whose writes succeed, the preference is stored, and a provider that
    starts afresh under the same system scheme and runs
    [loadThemePreference] ends with the same mode, palette and dark
    flag. *)
Theorem setTheme_survives_restart (m : string) (s s0 : State) (d : Device) :
  faults d = None →
  m = "light" ∨ m = "dark" ∨ (m = "auto" ∧ is_Some (systemColorScheme s)) →
  themeState s0 = initialState →
  systemColorScheme s0 = systemColorScheme s →
  let r := setTheme m s d in
  let r' := loadThemePreference s0 (device r) in
  result r = Ok tt ∧
  storage (device r) !! "theme_preference" = Some m ∧
  mode (themeState (local r)) = m ∧
  result r' = Ok tt ∧
  themeState (local r') = themeState (local r).
Proof.
  intros Hfaults Hm Hinit Hscheme. cbv zeta.
  destruct s as [t c], s0 as [t0 c0]. cbn in Hinit, Hscheme, Hm. subst t0 c0.
  unfold setTheme, loadThemePreference. run. rewrite Hfaults. run.
  destruct Hm as [->|[->|[-> [c' ->]]]].
  - destruct c as [[]|]; compare_texts; run; rewrite !lookup_insert_eq;
      by vm_compute.
  - destruct c as [[]|]; compare_texts; run; rewrite !lookup_insert_eq;
      by vm_compute.
  - destruct c'; compare_texts; run; rewrite !lookup_insert_eq; by vm_compute.
Qed.

(** X27.  When the preference cannot be saved, [setTheme] ends normally
    and switches nothing: the mode, the palette and the dark flag are what
    they were and the stored preference is untouched. *)
Theorem setTheme_failure_keeps_theme (m : string) (s : State) (d : Device) :
  faults d = Some 0 →
  let r := setTheme m s d in
  result r = Ok tt ∧ local r = s ∧ storage (device r) = storage d.
Proof. intros Hfaults. cbv zeta. unfold setTheme. run. by rewrite Hfaults. Qed.

End theme.

(** A provider that has just started on a system in its light scheme. *)
Definition fresh_provider : ThemeContext.State :=
  {| ThemeContext.themeState := ThemeContext.initialState;
     ThemeContext.systemColorScheme := Some ThemeContext.scheme_light |}.

Lemma theme_stays_coherent_witness :
  (∀ a, (∀ m, a = ThemeContext.SET_THEME m → known_mode m) →
        coherent_theme (ThemeContext.themeReducer
                          (ThemeContext.themeState fresh_provider) a)) ∧
  (∀ m, known_mode m →
        coherent_theme (ThemeContext.themeState
                          (local (ThemeContext.setTheme m fresh_provider phone)))).
Proof.
  apply (theme_stays_coherent fresh_provider phone).
  reflexivity.
Defined.

(** The mode "auto" is chosen and the application is started again. *)
Lemma setTheme_survives_restart_witness :
  let r := ThemeContext.setTheme "auto" fresh_provider phone in
  let r' := ThemeContext.loadThemePreference fresh_provider (device r) in
  result r = Ok tt ∧
  storage (device r) !! "theme_preference" = Some "auto" ∧
  ThemeContext.mode (ThemeContext.themeState (local r)) = "auto" ∧
  result r' = Ok tt ∧
  ThemeContext.themeState (local r') = ThemeContext.themeState (local r).
Proof.
  apply (setTheme_survives_restart "auto" fresh_provider fresh_provider phone).
  - reflexivity.
  - right. right. split; [reflexivity|]. by eexists.
  - reflexivity.
  - reflexivity.
Defined.

(** The light theme is chosen on a device that rejects the write. *)
Lemma setTheme_failure_keeps_theme_witness :
  let r := ThemeContext.setTheme "light" fresh_provider (phone_failing 0) in
  result r = Ok tt ∧ local r = fresh_provider ∧
  storage (device r) = storage (phone_failing 0).
Proof.
  apply (setTheme_failure_keeps_theme "light" fresh_provider (phone_failing 0)).
  reflexivity.
Defined.

(** ** Profile screen *)

Lemma formatRuntime_hours (n : nat) :
  ProfileSettings.formatRuntime (Z.of_nat (120 * n)) =
  Number_toString (Z.of_nat (2 * n)) +:+ "h 0m".
Proof.
  unfold ProfileSettings.formatRuntime. cbv zeta.
  replace (Z.of_nat (120 * n)) with (Z.of_nat (2 * n) * 60)%Z by lia.
  rewrite Z.div_mul by done. rewrite Z.rem_mul by done. reflexivity.
Qed.

Section profile.
Context `{JSONCodec} `{JSString}.
Import ProfileScreen.

(** X21.  The statistics of the profile count the entries of the stored
    movie collection that are objects with a truthy [id] and [title], and
    no other entry; the runtime is 120 minutes for each of them, which the
    screen prints as twice that many hours and no minutes.  The read
    writes nothing, also when it skips entries. *)
Theorem loadProfileData_counts_valid_entries (s : State) (d : Device)
    (text : string) (l : list json) :
  storage d !! "watchlist" = Some text →
  nonempty text = true →
  JSON_parse text = Some (JArr l) →
  let r := loadProfileData s d in
  let stats := watchlistStats (local r) in
  result r = Ok tt ∧ device r = d ∧ loading (local r) = false ∧
  totalMovies stats = length (List.filter valid_movie l) ∧
  (totalMovies stats ≤ length l)%nat ∧
  totalRuntime stats = (120 * totalMovies stats)%nat ∧
  ProfileSettings.formatRuntime (Z.of_nat (totalRuntime stats)) =
    Number_toString (Z.of_nat (2 * totalMovies stats)) +:+ "h 0m".
Proof.
  intros Hslot Hfull Hparse. cbv zeta.
  unfold loadProfileData. exec. rewrite Hslot. cbn [present]. rewrite Hfull. exec.
  unfold JSON_parse_or_throw. rewrite Hparse. exec.
  cbn [watchlistStats totalMovies totalRuntime loading].
  split_and!; try done.
  - apply filter_length_le.
  - apply formatRuntime_hours.
Qed.

(** X22.  A stored movie collection that parses to something that is not
    an array is removed by the profile's read, and the statistics are
    zero. *)
Theorem loadProfileData_removes_non_array (s : State) (d : Device)
    (text : string) (j : json) :
  storage d !! "watchlist" = Some text →
  nonempty text = true →
  JSON_parse text = Some j →
  (∀ l, j ≠ JArr l) →
  faults d = None →
  let r := loadProfileData s d in
  result r = Ok tt ∧
  storage (device r) = delete "watchlist" (storage d) ∧
  local r = {| watchlistStats := no_stats; loading := false |}.
Proof.
  intros Hslot Hfull Hparse Hshape Hfaults. cbv zeta.
  unfold loadProfileData. exec. rewrite Hslot. cbn [present]. rewrite Hfull. exec.
  unfold JSON_parse_or_throw. rewrite Hparse. exec.
  destruct j as [| | | |l|]; exec; rewrite ?Hfaults; exec; try done.
  by destruct (Hshape l).
Qed.

(** X23.  The notification switch changes one setting: after
    [toggleNotifications(value)] for a signed-in user whose preferences
    are an object, on a device whose writes succeed, the user's
    [preferences.notifications] is [value], every other preference and
    every other property of the user is what it was, and the session
    slot holds that user. *)
Theorem toggleNotifications_changes_one_setting (value : bool)
    (fs ps : list (string * json)) (st : AuthState) (d : Device)
    (users : list json) :
  user st = JObj fs →
  member "preferences" (JObj fs) = Some (JObj ps) →
  faults d = None →
  stored_list d AuthContext.USERS_STORAGE_KEY users →
  Forall (λ u, u ≠ JNull) users →
  let r := ProfileSettings.toggleNotifications value st d in
  result r = Ok tt ∧
  (∃ ps', member "preferences" (user (local r)) = Some (JObj ps') ∧
          member "notifications" (JObj ps') = Some (JBool value) ∧
          ∀ k, k ≠ "notifications" → member k (JObj ps') = member k (JObj ps)) ∧
  (∀ k, k ≠ "preferences" → member k (user (local r)) = member k (JObj fs)) ∧
  storage (device r) !! AuthContext.AUTH_STORAGE_KEY =
    Some (JSON_stringify (user (local r))).
Proof.
  intros Huser Hprefs Hfaults Hstored Hobj. cbv zeta.
  assert (truthy (Some (user st)) = true) as Htruthy by by rewrite Huser.
  unfold ProfileSettings.toggleNotifications. exec.
  unfold truthy in Htruthy. rewrite Htruthy. fold (truthy (Some (user st))) in Htruthy.
  rewrite (AuthFacts.updateUser_run _ st d users Htruthy Hstored Hobj).
  cbv zeta. rewrite Hfaults.
  set (merged := JObj (spread [user st; ProfileSettings.with_notifications (user st) value])).
  assert (user (AuthContext.authReducer st
            (AuthContext.UPDATE_USER
               (ProfileSettings.with_notifications (user st) value))) = merged)
    as Hmerged.
  { cbn [AuthContext.authReducer user]. by rewrite Htruthy. }
  assert (∀ k, member k merged =
               if String.eqb k "preferences"
               then Some (JObj (assign "notifications" (JBool value) (spread [JObj ps])))
               else member k (JObj fs)) as Hfields.
  { intros k. unfold merged, ProfileSettings.with_notifications. rewrite Huser.
    cbn [member]. rewrite lookup_last_spread2, lookup_last_assign, lookup_last_spread.
    cbn [member] in Hprefs. rewrite Hprefs. cbn [ProfileSettings.spread_value].
    destruct (String.eqb k "preferences"); [done|].
    by destruct (lookup_last k fs). }
  destruct (index_of (has_id_of (user st)) users);
    cbn [result local device storage with_storage]; rewrite Hmerged;
    (split_and!;
     [ done
     | eexists; split_and!;
       [ by rewrite Hfields
       | cbn [member]; by rewrite lookup_last_assign
       | intros k Hk; cbn [member];
         rewrite lookup_last_assign, lookup_last_spread;
         by apply String.eqb_neq in Hk as -> ]
     | intros k Hk; rewrite Hfields; by apply String.eqb_neq in Hk as ->
     | ]).
  - by rewrite lookup_insert_ne, lookup_insert_eq.
  - apply lookup_insert_eq.
Qed.

(** X24.  "Clear All Data" forgets every account: on a device whose
    writes succeed the storage is empty afterwards and the statistics are
    zero; at the next start nobody is signed in, the registry holds the
    demo account alone, and a login under any other address fails with
    "User not found. Please register first.". *)
Theorem clearAllData_forgets_every_account (s : State) (d : Device)
    (c : LoginCredentials.t) :
  faults d = None →
  toLowerCase (LoginCredentials.email c) ≠ "demo@movieflix.com" →
  let r := ProfileSettings.clearAllData s d in
  let r' := AuthContext.initializeApp AuthContext.initialState (device r) in
  let r'' := AuthContext.login c (local r') (device r') in
  result r = Ok tt ∧
  storage (device r) = ∅ ∧
  watchlistStats (local r) = no_stats ∧
  head (display (device r)) = Some (Alert "Success" "All data has been cleared") ∧
  isAuthenticated (local r') = false ∧
  stored_list (device r') AuthContext.USERS_STORAGE_KEY [demo_user d] ∧
  result r'' = Throw (Error "User not found. Please register first.").
Proof.
  intros Hfaults Hother. cbv zeta.
  unfold ProfileSettings.clearAllData. exec. rewrite Hfaults. exec.
  set (d0 := with_notice _ _).
  assert (stored_list d0 AuthContext.USERS_STORAGE_KEY []) as Hempty.
  { by apply stored_list_absent. }
  rewrite StartFacts.initializeApp_run, StartFacts.checkAuthSession_run.
  rewrite (StartFacts.createDemoUserIfNeeded_run _ d0 [] Hempty) by constructor.
  cbv zeta. change (faults d0) with (@None nat).
  cbn [List.find result local device].
  set (d1 := with_storage d0 _ None).
  assert (stored_list d1 AuthContext.USERS_STORAGE_KEY [demo_user d]) as Hdemo.
  { apply stored_list_written. unfold d1. cbn [storage with_storage].
    rewrite lookup_insert_ne, lookup_insert_eq; [done|].
    apply (AuthFacts.password_key_fresh _). }
  replace (storage d1 !! AuthContext.AUTH_STORAGE_KEY) with (@None string).
  2: { unfold d1. cbn [storage with_storage]. symmetry.
       rewrite !lookup_insert_ne; [done|done|].
       apply (AuthFacts.password_key_fresh _). }
  split_and!; try done.
  rewrite (AuthFacts.login_not_found c _ d1 [demo_user d] Hdemo); [done| |].
  - repeat constructor. by eexists.
  - repeat constructor.
    change (registered_as (LoginCredentials.email c) (demo_user d))
      with (String.eqb (toLowerCase "demo@movieflix.com")
              (toLowerCase (LoginCredentials.email c))).
    rewrite (toLowerCase_ascii "demo@movieflix.com" eq_refl).
    apply String.eqb_neq. by intros Heq.
Qed.

End profile.

(** A device whose movie collection has movie 5 and an entry without a
    title. *)
Definition phone_with_untitled : Device :=
  {| storage := <["watchlist" :=
                    Compact.stringify (JArr [movie5; JObj [("id", JNum 6)]])]> ∅;
     display := []; faults := None;
     clock := 1700000000000; clock_iso := "2023-11-14T22:13:20.000Z" |}.

Lemma loadProfileData_counts_valid_entries_witness :
  let r := ProfileScreen.loadProfileData (H := compact_json) fresh_profile
             phone_with_untitled in
  let stats := ProfileScreen.watchlistStats (local r) in
  result r = Ok tt ∧ device r = phone_with_untitled ∧
  ProfileScreen.loading (local r) = false ∧
  ProfileScreen.totalMovies stats =
    length (List.filter ProfileScreen.valid_movie [movie5; JObj [("id", JNum 6)]]) ∧
  (ProfileScreen.totalMovies stats ≤ length [movie5; JObj [("id", JNum 6)]])%nat ∧
  ProfileScreen.totalRuntime stats = (120 * ProfileScreen.totalMovies stats)%nat ∧
  ProfileSettings.formatRuntime (Z.of_nat (ProfileScreen.totalRuntime stats)) =
    Number_toString (Z.of_nat (2 * ProfileScreen.totalMovies stats)) +:+ "h 0m".
Proof.
  apply (loadProfileData_counts_valid_entries (H := compact_json) fresh_profile
           phone_with_untitled
           (Compact.stringify (JArr [movie5; JObj [("id", JNum 6)]]))
           [movie5; JObj [("id", JNum 6)]]).
  - reflexivity.
  - reflexivity.
  - vm_compute. reflexivity.
Defined.

(** A device whose movie collection is an object. *)
Definition phone_with_object : Device :=
  {| storage := <["watchlist" := Compact.stringify movie5]> ∅;
     display := []; faults := None;
     clock := 1700000000000; clock_iso := "2023-11-14T22:13:20.000Z" |}.

Lemma loadProfileData_removes_non_array_witness :
  let r := ProfileScreen.loadProfileData (H := compact_json) fresh_profile
             phone_with_object in
  result r = Ok tt ∧
  storage (device r) = delete "watchlist" (storage phone_with_object) ∧
  local r = {| ProfileScreen.watchlistStats := ProfileScreen.no_stats;
               ProfileScreen.loading := false |}.
Proof.
  apply (loadProfileData_removes_non_array (H := compact_json) fresh_profile
           phone_with_object (Compact.stringify movie5) movie5).
  - reflexivity.
  - reflexivity.
  - vm_compute. reflexivity.
  - discriminate.
  - reflexivity.
Defined.

(** Ann switches the notifications off. *)
Lemma toggleNotifications_changes_one_setting_witness :
  let fs := [("id", JStr "1700000000000"); ("email", JStr "ann@x.com");
             ("name", JStr "Ann");
             ("createdAt", JStr "2023-11-14T22:13:20.000Z");
             ("preferences", AuthContext.default_preferences)] in
  let ps := [("notifications", JBool true); ("darkMode", JBool true);
             ("language", JStr "en")] in
  let r := ProfileSettings.toggleNotifications (H := compact_json) false
             ann_session phone_with_ann in
  result r = Ok tt ∧
  (∃ ps', member "preferences" (user (local r)) = Some (JObj ps') ∧
          member "notifications" (JObj ps') = Some (JBool false) ∧
          ∀ k, k ≠ "notifications" → member k (JObj ps') = member k (JObj ps)) ∧
  (∀ k, k ≠ "preferences" → member k (user (local r)) = member k (JObj fs)) ∧
  storage (device r) !! AuthContext.AUTH_STORAGE_KEY =
    Some (JSON_stringify (JSONCodec := compact_json) (user (local r))).
Proof.
  apply (toggleNotifications_changes_one_setting (H := compact_json) false
           [("id", JStr "1700000000000"); ("email", JStr "ann@x.com");
            ("name", JStr "Ann");
            ("createdAt", JStr "2023-11-14T22:13:20.000Z");
            ("preferences", AuthContext.default_preferences)]
           [("notifications", JBool true); ("darkMode", JBool true);
            ("language", JStr "en")]
           ann_session phone_with_ann [ann_user]).
  - vm_compute. reflexivity.
  - reflexivity.
  - reflexivity.
  - vm_compute. reflexivity.
  - repeat constructor. discriminate.
Defined.

(** Everything is cleared on Ann's device; Ann then tries to sign in. *)
Lemma clearAllData_forgets_every_account_witness :
  let c := {| LoginCredentials.email := "ann@x.com";
              LoginCredentials.password := "secret1" |} in
  let r := ProfileSettings.clearAllData fresh_profile phone_with_ann in
  let r' := AuthContext.initializeApp (H := compact_json)
              AuthContext.initialState (device r) in
  let r'' := AuthContext.login (H := compact_json) c (local r') (device r') in
  result r = Ok tt ∧
  storage (device r) = ∅ ∧
  ProfileScreen.watchlistStats (local r) = ProfileScreen.no_stats ∧
  head (display (device r)) = Some (Alert "Success" "All data has been cleared") ∧
  isAuthenticated (local r') = false ∧
  stored_list (H := compact_json) (device r') AuthContext.USERS_STORAGE_KEY
    [demo_user phone_with_ann] ∧
  result r'' = Throw (Error "User not found. Please register first.").
Proof.
  apply (clearAllData_forgets_every_account (H := compact_json) fresh_profile
           phone_with_ann
           {| LoginCredentials.email := "ann@x.com";
              LoginCredentials.password := "secret1" |}).
  - reflexivity.
  - vm_compute. discriminate.
Defined.

(** ** Login screen *)

Section login_screen.
Context `{JSONCodec} `{JSString}.
Import LoginScreen.

(** [login] ends signed in, or throws and leaves the flag and the user as
    they were, whatever the storage holds. *)
Lemma login_outcome c st d :
  let r := AuthContext.login c st d in
  (result r = Ok tt ∧ isAuthenticated (local r) = true) ∨
  ((∃ e, result r = Throw e) ∧
   isAuthenticated (local r) = isAuthenticated st ∧ user (local r) = user st).
Proof.
  cbv zeta. unfold AuthContext.login. exec.
  destruct (parse_or_empty (storage d !! AuthContext.USERS_STORAGE_KEY))
    as [users|e]; exec; [|right; by eauto].
  destruct (Array_find (AuthContext.same_email (LoginCredentials.email c)) users)
    as [[u|]|e] eqn:Hfind; exec; try (right; by eauto).
  destruct users as [| | | |l|]; try done.
  rewrite Array_find_arr in Hfind.
  apply find_first_found, same_email_object in Hfind as [fs ->]. exec.
  rewrite prop_not_null by done. exec.
  destruct (AuthContext.password_differs _ _); exec; [right; by eauto|].
  destruct (faults d) as [[|n]|]; exec; [right; by eauto|by left|by left].
Qed.

Lemma validateForm_run (a : App) d :
  validateForm a d =
  if negb (nonempty (trim (email (screen a)))) then
    {| result := Ok false; local := a;
       device := with_notice d (Alert "Validation Error" "Please enter your email") |}
  else if negb (includes (email (screen a)) "@") then
    {| result := Ok false; local := a;
       device := with_notice d
                   (Alert "Validation Error" "Please enter a valid email address") |}
  else if negb (nonempty (trim (password (screen a)))) then
    {| result := Ok false; local := a;
       device := with_notice d (Alert "Validation Error" "Please enter your password") |}
  else {| result := Ok true; local := a; device := d |}.
Proof.
  unfold validateForm. exec.
  destruct (nonempty (trim (email (screen a)))); [|done]. cbn [negb].
  destruct (includes (email (screen a)) "@"); [|done]. cbn [negb].
  by destruct (nonempty (trim (password (screen a)))).
Qed.

(** X28.  A form with a blank email, an email without "@" or a blank
    password never reaches the session store: [handleLogin] shows one
    "Validation Error" alert and changes neither the storage nor the
    session, the route or the screen. *)
Theorem handleLogin_rejects_invalid_form (a : App) (d : Device) :
  nonempty (trim (email (screen a))) = false ∨
  includes (email (screen a)) "@" = false ∨
  nonempty (trim (password (screen a))) = false →
  let r := handleLogin a d in
  result r = Ok tt ∧ local r = a ∧
  storage (device r) = storage d ∧ faults (device r) = faults d ∧
  ∃ body, display (device r) = Alert "Validation Error" body :: display d.
Proof.
  intros Hbad. cbv zeta. unfold handleLogin. exec. rewrite validateForm_run.
  destruct (nonempty (trim (email (screen a)))); cbn [negb];
    [|split_and!; try done; by eexists].
  destruct (includes (email (screen a)) "@"); cbn [negb];
    [|split_and!; try done; by eexists].
  destruct (nonempty (trim (password (screen a)))); cbn [negb];
    [|split_and!; try done; by eexists].
  by destruct Hbad as [?|[?|?]].
Qed.

(** X29.  [handleLogin] never throws, and it navigates only after a login
    that succeeded: either the form was refused and nothing but the
    display changed, or the route is "/(tabs)/home" and the session is
    authenticated, or the route, the authenticated flag and the user are
    what they were; in the last two cases the screen's loading flag is
    cleared. *)
Theorem handleLogin_navigates_only_when_signed_in (a : App) (d : Device) :
  let r := handleLogin a d in
  result r = Ok tt ∧
  (local r = a ∨
   (route (local r) = "/(tabs)/home" ∧
    isAuthenticated (authState (local r)) = true ∧
    isLoading (screen (local r)) = false) ∨
   (route (local r) = route a ∧
    isAuthenticated (authState (local r)) = isAuthenticated (authState a) ∧
    user (authState (local r)) = user (authState a) ∧
    isLoading (screen (local r)) = false)).
Proof.
  cbv zeta. unfold handleLogin. exec. rewrite validateForm_run.
  destruct (nonempty (trim (email (screen a)))); cbn [negb]; [|by auto].
  destruct (includes (email (screen a)) "@"); cbn [negb]; [|by auto].
  destruct (nonempty (trim (password (screen a)))); cbn [negb]; [|by auto].
  run.
  pose proof (login_outcome
                {| LoginCredentials.email := email (screen a);
                   LoginCredentials.password := password (screen a) |}
                (authState a) d) as Hlogin.
  cbv zeta in Hlogin.
  destruct (AuthContext.login _ (authState a) d) as [res st' d'].
  cbn [result local] in Hlogin.
  destruct Hlogin as [[-> Hin]|[[e ->] [Hflag Huser]]]; run.
  - split; [done|]. right. left. by rewrite Hin.
  - split; [done|]. right. right. by rewrite Hflag, Huser.
Qed.


End login_screen.


(** The login screen with an address that has no "@". *)
Definition typo_at_login : LoginScreen.App :=
  {| LoginScreen.screen :=
       {| LoginScreen.email := "ann.x.com"; LoginScreen.password := "secret1";
          LoginScreen.showPassword := false; LoginScreen.isLoading := false |};
     LoginScreen.authState := AuthContext.initialState;
     LoginScreen.route := "/(auth)/login" |}.

Lemma handleLogin_rejects_invalid_form_witness :
  let r := LoginScreen.handleLogin (H := compact_json) typo_at_login phone_with_ann in
  result r = Ok tt ∧ local r = typo_at_login ∧
  storage (device r) = storage phone_with_ann ∧
  faults (device r) = faults phone_with_ann ∧
  ∃ body, display (device r) = Alert "Validation Error" body :: display phone_with_ann.
Proof.
  apply (handleLogin_rejects_invalid_form (H := compact_json) typo_at_login
           phone_with_ann).
  right. left. reflexivity.
Defined.

